(** * EnsoAI settings engine: sanitizers, migration, store setters, storage

    A shallow embedding of
      - src/renderer/stores/settings/migration.ts  (clampNumber, sanitizeBoolean,
        sanitizeString, migrateSettings, migrateXtermKeybindings,
        migrateClaudeCodeIntegration, cleanupLegacyFields),
      - src/renderer/stores/settings/index.ts      (agent and background setters,
        favorites, log retention, prompt presets),
      - src/renderer/stores/settings/storage.ts    (electronStorage),
      - the todo store (migrateLocalStorage and the actions of the store),
      - src/renderer/components/todo/useEnabledAgents.ts (resolveAgent),
    together with the properties the specification states about them and
    further properties read off the code.

    Modelling conventions.
      - A JavaScript number is [NaN], an infinity, or a finite value.  The code
        only compares and selects numbers (Math.min, Math.max, Number.isFinite)
        and rounds them down (Math.floor), all of which are exact, so finite
        doubles are embedded as rationals; the two zeros are identified, as
        [===] does.
      - A JavaScript object is a finite map from property names to values.
        Property reads see own properties; the members of Object.prototype
        are modelled where the storage adapter tests [name in data], and the
        properties of code that reads a name given by the caller are stated
        for names that Object.prototype does not define.
      - A TypeError (property read on undefined or null) is [None].
      - The actions of the store are functions held in the state object;
        [VFun] stands for them, they are copied and never called here. *)

From Stdlib Require Import QArith Qround Lqa.
From stdpp Require Import gmap strings list fin_maps pretty.

Set Warnings "-register-all".

(** ** JavaScript values *)

Inductive number := NaN | NegInf | Finite (q : Q) | PosInf.

Inductive value :=
  | VUndef
  | VNull
  | VBool (b : bool)
  | VNum (n : number)
  | VStr (s : string)
  | VArr (items : list value)
  | VObj (fields : gmap string value)
  | VFun (name : string).

Inductive jstype := TUndefined | TObject | TBoolean | TNumber | TString | TFunction.

Definition typeof (v : value) : jstype :=
  match v with
  | VUndef => TUndefined
  | VNull | VArr _ | VObj _ => TObject
  | VBool _ => TBoolean
  | VNum _ => TNumber
  | VStr _ => TString
  | VFun _ => TFunction
  end.

Definition Number_isFinite (n : number) : bool :=
  match n with Finite _ => true | _ => false end.

(** [a <= b] on numbers; every comparison with [NaN] is false. *)
Definition num_leb (a b : number) : bool :=
  match a, b with
  | NaN, _ | _, NaN => false
  | NegInf, _ => true
  | _, PosInf => true
  | Finite x, Finite y => Qle_bool x y
  | _, _ => false
  end.

(** [a < b] on numbers. *)
Definition num_ltb (a b : number) : bool :=
  match a, b with
  | NaN, _ | _, NaN => false
  | _, _ => negb (num_leb b a)
  end.

Definition Math_max (a b : number) : number :=
  match a, b with
  | NaN, _ | _, NaN => NaN
  | _, _ => if num_leb a b then b else a
  end.

Definition Math_min (a b : number) : number :=
  match a, b with
  | NaN, _ | _, NaN => NaN
  | _, _ => if num_leb b a then b else a
  end.

(** ToBoolean. *)
Definition truthy (v : value) : bool :=
  match v with
  | VUndef | VNull => false
  | VBool b => b
  | VNum NaN => false
  | VNum (Finite q) => negb (Qeq_bool q 0)
  | VNum _ => true
  | VStr s => negb (String.eqb s "")
  | VArr _ | VObj _ | VFun _ => true
  end.

Definition nullish (v : value) : bool :=
  match v with VUndef | VNull => true | _ => false end.

(** [a ?? b] *)
Definition nullish_coalesce (a b : value) : value :=
  if nullish a then b else a.

(** [a || b] *)
Definition js_or (a b : value) : value :=
  if truthy a then a else b.

(** [v === "s"] for a string literal [s]. *)
Definition is_string (v : value) (s : string) : bool :=
  match v with VStr t => String.eqb t s | _ => false end.

(** ** Sanitizers (migration.ts, lines 6-25) *)

Section Sanitizers.

(** [Number(s)] on a string: the host's StringToNumber. *)
Variable Number_of_string : string -> number.

(** The signature declares [fallback : number]; nothing checks it at run
    time, and the callers pass a field of the current state, so the
    fallback is an arbitrary value here. *)
Definition clampNumber (v : value) (min max : number) (fallback : value) : value :=
  match v with
  | VNum n =>
      if Number_isFinite n then VNum (Math_min max (Math_max min n))
      else fallback
  | VStr s =>
      let parsed := Number_of_string s in
      if Number_isFinite parsed then VNum (Math_min max (Math_max min parsed))
      else fallback
  | _ => fallback
  end.

Definition sanitizeBoolean (v fallback : value) : value :=
  match v with VBool _ => v | _ => fallback end.

Definition sanitizeString (v fallback : value) : value :=
  match v with VStr _ => v | _ => fallback end.

End Sanitizers.

(** ** Objects: property reads, spread, object literals *)

Definition num_of_nat (n : nat) : number := Finite (inject_Z (Z.of_nat n)).

(** The own enumerable properties of an array-like: index [i] under the
    decimal name of [i]. *)
Definition index_entries (l : list value) : gmap string value :=
  list_to_map (imap (fun i x => (pretty i, x)) l).

Definition chars (s : string) : list value :=
  (fun c => VStr (String c EmptyString)) <$> String.list_ascii_of_string s.

(** What [{...v}] copies: nothing for undefined, null, booleans, numbers and
    functions; the indexed elements of strings and arrays. *)
Definition own_enumerable (v : value) : gmap string value :=
  match v with
  | VObj m => m
  | VArr l => index_entries l
  | VStr s => index_entries (chars s)
  | _ => ∅
  end.

(** [v.k] / [v[k]] for a receiver that is not undefined or null. *)
Definition prop (v : value) (k : string) : value :=
  match v with
  | VObj m => default VUndef (m !! k)
  | VArr l =>
      if String.eqb k "length" then VNum (num_of_nat (length l))
      else default VUndef (index_entries l !! k)
  | VStr s =>
      if String.eqb k "length" then VNum (num_of_nat (String.length s))
      else default VUndef (index_entries (chars s) !! k)
  | _ => VUndef
  end.

(** [v?.k] *)
Definition opt_prop (v : value) (k : string) : value :=
  if nullish v then VUndef else prop v k.

(** [v.k] where [v] may be undefined or null: a TypeError is [None]. *)
Definition get_prop (v : value) (k : string) : option value :=
  if nullish v then None else Some (prop v k).

(** [a && b] *)
Definition js_and (a b : value) : value :=
  if truthy a then b else a.

(** The members of an object literal, in source order: a spread [...v] or a
    property [k: v].  Later members win. *)
Inductive member :=
  | Spread (v : value)
  | Field (k : string) (v : value).

Definition add_member (acc : gmap string value) (m : member) : gmap string value :=
  match m with
  | Spread v => own_enumerable v ∪ acc
  | Field k v => <[k := v]> acc
  end.

Definition object_literal (ms : list member) : gmap string value :=
  foldl add_member ∅ ms.

Definition is_undefined (v : value) : bool :=
  match v with VUndef => true | _ => false end.

(** [arr.includes(v)] for an array of string literals. *)
Definition includes (allowed : list string) (v : value) : bool :=
  existsb (is_string v) allowed.

(** [Object.fromEntries(Object.entries(m).filter(([k]) => f(k)))] where the
    callback may throw: the first throw aborts the whole expression. *)
Definition filter_keys (f : string -> option bool) (m : gmap string value)
  : option (gmap string value) :=
  if decide (map_Forall (fun k _ => is_Some (f k)) m)
  then Some (filter (fun kv => f kv.1 = Some true) m)
  else None.

(** ** Migration (migration.ts, lines 27-294) *)

Section Migration.

Variable Number_of_string : string -> number.

(** migrateXtermKeybindings, lines 207-264.  The legacy records are read on
    their own properties.  Of the names read, only [split] is also a member
    of a prototype, that of strings. *)
Definition filterDefined (obj : gmap string value) : gmap string value :=
  filter (fun kv => is_undefined kv.2 = false) obj.

Definition migrateXtermKeybindings (persisted currentState : value) : value :=
  if truthy (prop persisted "xtermKeybindings") then
    VObj (object_literal
            [ Spread (prop currentState "xtermKeybindings");
              Spread (prop persisted "xtermKeybindings") ])
  else
    let legacy := persisted in
    let terminalKeybindings := prop legacy "terminalKeybindings" in
    let agentKeybindings := prop legacy "agentKeybindings" in
    let terminalPaneKeybindings := prop legacy "terminalPaneKeybindings" in
    VObj (object_literal
            [ Spread (prop currentState "xtermKeybindings");
              Spread (js_and terminalKeybindings
                 (VObj (filterDefined (object_literal
                    [ Field "newTab" (prop terminalKeybindings "newTab");
                      Field "closeTab" (prop terminalKeybindings "closeTab");
                      Field "nextTab" (prop terminalKeybindings "nextTab");
                      Field "prevTab" (prop terminalKeybindings "prevTab");
                      Field "clear" (prop terminalKeybindings "clear") ]))));
              Spread (js_and agentKeybindings
                 (VObj (filterDefined (object_literal
                    [ Field "newTab" (prop agentKeybindings "newSession");
                      Field "closeTab" (prop agentKeybindings "closeSession");
                      Field "nextTab" (prop agentKeybindings "nextSession");
                      Field "prevTab" (prop agentKeybindings "prevSession") ]))));
              Spread (js_and terminalPaneKeybindings
                 (VObj (filterDefined (object_literal
                    [ Field "split" (prop terminalPaneKeybindings "split");
                      Field "merge" (prop terminalPaneKeybindings "merge") ])))) ]).

(** migrateClaudeCodeIntegration, lines 269-294.  The read of
    [currentState.claudeCodeIntegration.statusLineFields] throws when the
    current state has no claudeCodeIntegration. *)
Definition migrateClaudeCodeIntegration (persisted currentState : value)
  : option (gmap string value) :=
  let current := prop currentState "claudeCodeIntegration" in
  let saved := prop persisted "claudeCodeIntegration" in
  currentFields ← get_prop current "statusLineFields";
  let merged :=
    object_literal
      [ Spread current;
        Spread saved;
        Field "statusLineFields"
          (VObj (object_literal
                   [ Spread currentFields;
                     Spread (opt_prop saved "statusLineFields") ])) ] in
  let legacyAutoPopup := opt_prop saved "enhancedInputAutoPopup" in
  let merged :=
    match legacyAutoPopup with
    | VBool b =>
        <["enhancedInputAutoPopup" :=
            VStr (if b then "hideWhileRunning" else "manual")]> merged
    | _ => merged
    end in
  let merged :=
    if is_string (prop (VObj merged) "enhancedInputAutoPopup") "hideWhileRunning"
       && negb (truthy (prop (VObj merged) "stopHookEnabled"))
    then <["enhancedInputAutoPopup" := VStr "always"]> merged
    else merged in
  Some merged.

(** The filter callback of lines 128-131:
    [persisted.agentSettings?.[agentId] ?? currentState.agentSettings[agentId]],
    then [agentConfig?.enabled], read on own properties. *)
Definition agentConfig_of (persisted currentState : value) (agentId : string)
  : option value :=
  let saved := opt_prop (prop persisted "agentSettings") agentId in
  if nullish saved then get_prop (prop currentState "agentSettings") agentId
  else Some saved.

Definition agent_enabled (persisted currentState : value) (agentId : string)
  : option bool :=
  agentConfig ← agentConfig_of persisted currentState agentId;
  Some (truthy (opt_prop agentConfig "enabled")).

Definition sourceTypes : list string := ["file"; "folder"; "url"].
Definition sizeModes : list string := ["cover"; "contain"; "repeat"; "center"].

Definition merge_domain (persisted currentState : value) (domain : string) : member :=
  Field domain
    (VObj (object_literal
             [ Spread (prop currentState domain); Spread (prop persisted domain) ])).

(** migrateSettings, lines 31-201. *)
Definition migrateSettings (persistedState currentState : value) : option value :=
  if negb (truthy persistedState) then Some currentState
  else if nullish currentState then None
  else
    let persisted := persistedState in
    let sanitizedBackgroundOpacity :=
      clampNumber Number_of_string (prop persisted "backgroundOpacity") (Finite 0) (Finite 1)
        (prop currentState "backgroundOpacity") in
    let sanitizedBackgroundBlur :=
      clampNumber Number_of_string (prop persisted "backgroundBlur") (Finite 0) (Finite 20)
        (prop currentState "backgroundBlur") in
    let sanitizedBackgroundBrightness :=
      clampNumber Number_of_string (prop persisted "backgroundBrightness") (Finite 0) (Finite 2)
        (prop currentState "backgroundBrightness") in
    let sanitizedBackgroundSaturation :=
      clampNumber Number_of_string (prop persisted "backgroundSaturation") (Finite 0) (Finite 2)
        (prop currentState "backgroundSaturation") in
    let sanitizedBackgroundImageEnabled :=
      sanitizeBoolean (prop persisted "backgroundImageEnabled")
        (prop currentState "backgroundImageEnabled") in
    let sanitizedBackgroundImagePath :=
      sanitizeString (prop persisted "backgroundImagePath")
        (prop currentState "backgroundImagePath") in
    let sanitizedBackgroundUrlPath :=
      sanitizeString (prop persisted "backgroundUrlPath")
        (prop currentState "backgroundUrlPath") in
    let sanitizedBackgroundFolderPath :=
      sanitizeString (prop persisted "backgroundFolderPath")
        (prop currentState "backgroundFolderPath") in
    let sanitizedBackgroundSourceType :=
      if truthy (prop persisted "backgroundSourceType")
         && includes sourceTypes (prop persisted "backgroundSourceType")
      then prop persisted "backgroundSourceType"
      else prop currentState "backgroundSourceType" in
    let migratedBackgroundUrlPath :=
      js_or sanitizedBackgroundUrlPath
        (if is_string sanitizedBackgroundSourceType "url"
         then sanitizedBackgroundImagePath else VStr "") in
    let sanitizedBackgroundRandomEnabled :=
      sanitizeBoolean (prop persisted "backgroundRandomEnabled")
        (prop currentState "backgroundRandomEnabled") in
    let sanitizedBackgroundRandomInterval :=
      clampNumber Number_of_string (prop persisted "backgroundRandomInterval") (Finite 5) (Finite 86400)
        (prop currentState "backgroundRandomInterval") in
    let sanitizedBackgroundSizeMode :=
      if truthy (prop persisted "backgroundSizeMode")
         && includes sizeModes (prop persisted "backgroundSizeMode")
      then prop persisted "backgroundSizeMode"
      else prop currentState "backgroundSizeMode" in
    let terminalRenderer :=
      if is_string (prop persisted "terminalRenderer") "canvas"
      then VStr "webgl" else prop persisted "terminalRenderer" in
    let migratedXtermKeybindings := migrateXtermKeybindings persisted currentState in
    migratedClaudeCodeIntegration ← migrateClaudeCodeIntegration persisted currentState;
    migratedAgentDetectionStatus ←
      filter_keys (agent_enabled persisted currentState)
        (object_literal
           [ Spread (prop currentState "agentDetectionStatus");
             Spread (prop persisted "agentDetectionStatus") ]);
    Some (VObj (object_literal
      [ Spread currentState;
        Spread persisted;
        Spread (js_and terminalRenderer
                  (VObj (object_literal [ Field "terminalRenderer" terminalRenderer ])));
        Field "xtermKeybindings" migratedXtermKeybindings;
        merge_domain persisted currentState "mainTabKeybindings";
        merge_domain persisted currentState "sourceControlKeybindings";
        merge_domain persisted currentState "searchKeybindings";
        merge_domain persisted currentState "globalKeybindings";
        merge_domain persisted currentState "workspaceKeybindings";
        Field "backgroundImageEnabled" sanitizedBackgroundImageEnabled;
        Field "backgroundImagePath" sanitizedBackgroundImagePath;
        Field "backgroundUrlPath" migratedBackgroundUrlPath;
        Field "backgroundFolderPath" sanitizedBackgroundFolderPath;
        Field "backgroundSourceType" sanitizedBackgroundSourceType;
        Field "backgroundRandomEnabled" sanitizedBackgroundRandomEnabled;
        Field "backgroundRandomInterval" sanitizedBackgroundRandomInterval;
        Field "backgroundOpacity" sanitizedBackgroundOpacity;
        Field "backgroundBlur" sanitizedBackgroundBlur;
        Field "backgroundBrightness" sanitizedBackgroundBrightness;
        Field "backgroundSaturation" sanitizedBackgroundSaturation;
        Field "backgroundSizeMode" sanitizedBackgroundSizeMode;
        merge_domain persisted currentState "editorSettings";
        Field "claudeCodeIntegration" (VObj migratedClaudeCodeIntegration);
        merge_domain persisted currentState "commitMessageGenerator";
        merge_domain persisted currentState "codeReview";
        merge_domain persisted currentState "branchNameGenerator";
        merge_domain persisted currentState "hapiSettings";
        Field "agentDetectionStatus" (VObj migratedAgentDetectionStatus);
        Field "mcpServers"
          (nullish_coalesce (prop persisted "mcpServers") (prop currentState "mcpServers"));
        Field "promptPresets"
          (nullish_coalesce (prop persisted "promptPresets")
             (prop currentState "promptPresets"));
        merge_domain persisted currentState "quickTerminal" ])).

End Migration.

(** ** The default table (defaults.ts) and the initial state (index.ts, 95-197) *)

Definition obj (fields : list (string * value)) : value := VObj (list_to_map fields).
Definition num (q : Q) : value := VNum (Finite q).

(** A keybinding: a key and the modifier flags that are set. *)
Definition keybinding (key : string) (modifiers : list string) : value :=
  obj (("key", VStr key) :: ((fun m => (m, VBool true)) <$> modifiers)).

Definition defaultXtermKeybindings : value :=
  obj [ ("newTab", keybinding "t" ["meta"]);
        ("closeTab", keybinding "w" ["meta"]);
        ("nextTab", keybinding "]" ["meta"]);
        ("prevTab", keybinding "[" ["meta"]);
        ("split", keybinding "d" ["meta"]);
        ("merge", keybinding "d" ["meta"; "shift"]);
        ("clear", keybinding "r" ["meta"]) ].

Definition defaultMainTabKeybindings : value :=
  obj [ ("switchToAgent", keybinding "1" ["ctrl"]);
        ("switchToFile", keybinding "2" ["ctrl"]);
        ("switchToTerminal", keybinding "3" ["ctrl"]);
        ("switchToSourceControl", keybinding "4" ["ctrl"]) ].

Definition defaultSourceControlKeybindings : value :=
  obj [ ("prevDiff", keybinding "F7" []); ("nextDiff", keybinding "F8" []) ].

Definition defaultSearchKeybindings : value :=
  obj [ ("searchFiles", keybinding "p" ["meta"]);
        ("searchContent", keybinding "f" ["meta"; "shift"]) ].

Definition defaultGlobalKeybindings : value :=
  obj [ ("runningProjects", keybinding "l" ["meta"]) ].

Definition defaultWorkspaceKeybindings : value :=
  obj [ ("toggleWorktree", keybinding "w" ["meta"; "shift"]);
        ("toggleRepository", keybinding "r" ["meta"; "shift"]);
        ("switchActiveWorktree", keybinding "CapsLock" ["ctrl"]) ].

Definition defaultStatusLineFieldSettings : value :=
  obj [ ("model", VBool true); ("context", VBool true); ("cost", VBool true);
        ("duration", VBool false); ("lines", VBool false); ("tokens", VBool false);
        ("cache", VBool false); ("apiTime", VBool false); ("currentDir", VBool false);
        ("projectDir", VBool false); ("version", VBool false) ].

Definition defaultClaudeCodeIntegrationSettings : value :=
  obj [ ("enabled", VBool true);
        ("selectionChangedDebounce", num 300);
        ("atMentionedKeybinding", keybinding "m" ["meta"; "shift"]);
        ("stopHookEnabled", VBool true);
        ("permissionRequestHookEnabled", VBool true);
        ("statusLineEnabled", VBool false);
        ("statusLineFields", defaultStatusLineFieldSettings);
        ("tmuxEnabled", VBool false);
        ("showProviderSwitcher", VBool true);
        ("enableProviderDisableFeature", VBool false);
        ("providers", VArr []);
        ("enhancedInputEnabled", VBool false);
        ("enhancedInputAutoPopup", VStr "hideWhileRunning") ].

Definition defaultHapiSettings : value :=
  obj [ ("enabled", VBool false); ("webappPort", num 3006); ("cliApiToken", VStr "");
        ("telegramBotToken", VStr ""); ("webappUrl", VStr ""); ("allowedChatIds", VStr "");
        ("cfEnabled", VBool false); ("tunnelMode", VStr "quick"); ("tunnelToken", VStr "");
        ("useHttp2", VBool true); ("runnerEnabled", VBool false);
        ("happyEnabled", VBool false) ].

Definition defaultProxySettings : value :=
  obj [ ("enabled", VBool false); ("server", VStr "");
        ("bypassList", VStr "localhost,127.0.0.1") ].

Definition defaultEditorSettings : value :=
  obj [ ("minimapEnabled", VBool false); ("lineNumbers", VStr "on");
        ("wordWrap", VStr "on"); ("renderWhitespace", VStr "selection");
        ("renderLineHighlight", VStr "line"); ("folding", VBool true);
        ("links", VBool true); ("smoothScrolling", VBool true);
        ("fontSize", num 13);
        ("fontFamily", VStr "JetBrains Mono, Menlo, Monaco, Consolas, monospace");
        ("lineHeight", num 20); ("fontLigatures", VBool true);
        ("paddingTop", num 12); ("paddingBottom", num 12);
        ("tabSize", num 2); ("insertSpaces", VBool true);
        ("cursorStyle", VStr "line"); ("cursorBlinking", VStr "smooth");
        ("bracketPairColorization", VBool true); ("matchBrackets", VStr "always");
        ("bracketPairGuides", VBool true); ("indentationGuides", VBool true);
        ("autoClosingBrackets", VStr "languageDefined");
        ("autoClosingQuotes", VStr "languageDefined");
        ("autoSave", VStr "off"); ("autoSaveDelay", num 1000) ].

Definition defaultQuickTerminalSettings : value :=
  obj [ ("enabled", VBool true); ("buttonPosition", VNull); ("modalPosition", VNull);
        ("modalSize", VNull); ("isOpen", VBool false) ].

Definition agentConfig_value (isEnabled isDefaultAgent : bool) : value :=
  obj [ ("enabled", VBool isEnabled); ("isDefault", VBool isDefaultAgent) ].

Definition defaultAgentSettings_value : value :=
  obj [ ("claude", agentConfig_value true true);
        ("codex", agentConfig_value false false);
        ("droid", agentConfig_value false false);
        ("gemini", agentConfig_value false false);
        ("auggie", agentConfig_value false false);
        ("cursor", agentConfig_value false false);
        ("opencode", agentConfig_value false false) ].

Section InitialState.

(** What the host decides: the locale (getDefaultLocale), the platform
    (getDefaultShellConfig) and the three long prompt texts of defaults.ts,
    which no migration step reads. *)
Variable language : string.
Variable win32 : bool.
Variables commitPrompt codeReviewPrompt branchNamePrompt : string.

Definition defaultCommitMessageGeneratorSettings : value :=
  obj [ ("enabled", VBool true); ("maxDiffLines", num 1000); ("timeout", num 120);
        ("provider", VStr "claude-code"); ("model", VStr "haiku");
        ("prompt", VStr commitPrompt) ].

Definition defaultBranchNameGeneratorSettings : value :=
  obj [ ("enabled", VBool false); ("provider", VStr "claude-code");
        ("model", VStr "haiku"); ("prompt", VStr branchNamePrompt) ].

Definition defaultCodeReviewSettings : value :=
  obj [ ("enabled", VBool true); ("provider", VStr "claude-code");
        ("model", VStr "haiku"); ("language", VStr "中文");
        ("prompt", VStr codeReviewPrompt) ].

Definition getDefaultShellConfig : value :=
  obj [ ("shellType", VStr (if win32 then "powershell" else "system")) ].

Definition getInitialState : value :=
  obj [ ("theme", VStr "system");
        ("layoutMode", VStr "tree");
        ("fileTreeDisplayMode", VStr "legacy");
        ("language", VStr language);
        ("fontSize", num 14);
        ("fontFamily", VStr "Inter");
        ("terminalFontSize", num 18);
        ("terminalFontFamily",
           VStr "ui-monospace, SF Mono, Menlo, Monaco, Consolas, monospace");
        ("terminalFontWeight", VStr "normal");
        ("terminalFontWeightBold", VStr "500");
        ("terminalTheme", VStr "Dracula");
        ("terminalRenderer", VStr "dom");
        ("terminalScrollback", num 10000);
        ("terminalOptionIsMeta", VBool true);
        ("copyOnSelection", VBool false);
        ("xtermKeybindings", defaultXtermKeybindings);
        ("mainTabKeybindings", defaultMainTabKeybindings);
        ("sourceControlKeybindings", defaultSourceControlKeybindings);
        ("searchKeybindings", defaultSearchKeybindings);
        ("globalKeybindings", defaultGlobalKeybindings);
        ("workspaceKeybindings", defaultWorkspaceKeybindings);
        ("editorSettings", defaultEditorSettings);
        ("agentSettings", defaultAgentSettings_value);
        ("agentDetectionStatus", obj []);
        ("customAgents", VArr []);
        ("shellConfig", getDefaultShellConfig);
        ("agentNotificationEnabled", VBool true);
        ("agentNotificationDelay", num 5);
        ("agentNotificationEnterDelay", num 5);
        ("claudeCodeIntegration", defaultClaudeCodeIntegrationSettings);
        ("commitMessageGenerator", defaultCommitMessageGeneratorSettings);
        ("codeReview", defaultCodeReviewSettings);
        ("branchNameGenerator", defaultBranchNameGeneratorSettings);
        ("autoUpdateEnabled", VBool true);
        ("hapiSettings", defaultHapiSettings);
        ("defaultWorktreePath", VStr "");
        ("proxySettings", defaultProxySettings);
        ("autoCreateSessionOnActivate", VBool false);
        ("glowEffectEnabled", VBool false);
        ("temporaryWorkspaceEnabled", VBool false);
        ("defaultTemporaryPath", VStr "");
        ("autoCreateSessionOnTempActivate", VBool false);
        ("backgroundImageEnabled", VBool false);
        ("backgroundImagePath", VStr "");
        ("backgroundUrlPath", VStr "");
        ("backgroundFolderPath", VStr "");
        ("backgroundSourceType", VStr "file");
        ("backgroundRandomEnabled", VBool false);
        ("backgroundRandomInterval", num 300);
        ("backgroundOpacity", num 0.85);
        ("backgroundBlur", num 0);
        ("backgroundBrightness", num 1);
        ("backgroundSaturation", num 1);
        ("backgroundSizeMode", VStr "cover");
        ("_backgroundRefreshKey", num 0);
        ("mcpServers", VArr []);
        ("promptPresets", VArr []);
        ("settingsDisplayMode", VStr "tab");
        ("settingsModalPosition", VNull);
        ("favoriteTerminalThemes", VArr []);
        ("quickTerminal", defaultQuickTerminalSettings);
        ("webInspectorEnabled", VBool false);
        ("hideGroups", VBool false);
        ("loggingEnabled", VBool false);
        ("logLevel", VStr "info");
        ("logRetentionDays", num 7) ].

End InitialState.

(** ** The store: agent and background setters (index.ts, lines 270-356, 484-519) *)

(** An agent record; a field that was never written reads as undefined
    ([None]), as after [{ ...current[agentId], enabled }] on a new id. *)
Record AgentConfig := {
  enabled : option bool;
  isDefault : option bool;
  customPath : option string;
  customArgs : option string }.

Definition no_config : AgentConfig :=
  {| enabled := None; isDefault := None; customPath := None; customArgs := None |}.

(** [agentSettings] is a record from agent id to config.  Object.keys and
    Object.entries enumerate it in insertion order, so it is an association
    list with one entry per key.  (Keys that are array indices, names made
    of digits, would be enumerated first; where the order decides, the
    properties are stated for records without such keys.) *)
Fixpoint settings_get (k : string) (l : list (string * AgentConfig)) : option AgentConfig :=
  match l with
  | [] => None
  | (k', c) :: rest => if String.eqb k' k then Some c else settings_get k rest
  end.

Fixpoint settings_set (k : string) (c : AgentConfig) (l : list (string * AgentConfig))
  : list (string * AgentConfig) :=
  match l with
  | [] => [(k, c)]
  | (k', c') :: rest =>
      if String.eqb k' k then (k, c) :: rest else (k', c') :: settings_set k c rest
  end.

Fixpoint settings_delete (k : string) (l : list (string * AgentConfig))
  : list (string * AgentConfig) :=
  match l with
  | [] => []
  | (k', c') :: rest =>
      if String.eqb k' k then settings_delete k rest else (k', c') :: settings_delete k rest
  end.

(** [{ ...c }] where [c] may be undefined. *)
Definition spread_config (c : option AgentConfig) : AgentConfig := default no_config c.

(** CustomAgent is declared in @shared/types, outside these sources; the
    store reads only its [id] and copies the rest. *)
Record CustomAgent := {
  agent_id : string;
  agent_rest : gmap string value }.

Record CustomAgentUpdates := {
  upd_id : option string;
  upd_rest : gmap string value }.

Record CustomConfig := {
  cfg_customPath : option string;
  cfg_customArgs : option string }.

Record Store := {
  agentSettings : list (string * AgentConfig);
  customAgents : list CustomAgent;
  backgroundRandomInterval : number;
  backgroundOpacity : number;
  backgroundBlur : number;
  backgroundBrightness : number;
  backgroundSaturation : number }.

Definition set_agentSettings (s : Store) (a : list (string * AgentConfig)) : Store :=
  {| agentSettings := a;
     customAgents := customAgents s;
     backgroundRandomInterval := backgroundRandomInterval s;
     backgroundOpacity := backgroundOpacity s;
     backgroundBlur := backgroundBlur s;
     backgroundBrightness := backgroundBrightness s;
     backgroundSaturation := backgroundSaturation s |}.

Definition set_customAgents (s : Store) (c : list CustomAgent) : Store :=
  {| agentSettings := agentSettings s;
     customAgents := c;
     backgroundRandomInterval := backgroundRandomInterval s;
     backgroundOpacity := backgroundOpacity s;
     backgroundBlur := backgroundBlur s;
     backgroundBrightness := backgroundBrightness s;
     backgroundSaturation := backgroundSaturation s |}.

Definition setAgentEnabled (agentId : string) (isEnabled : bool) (s : Store) : Store :=
  let current := agentSettings s in
  let old := spread_config (settings_get agentId current) in
  set_agentSettings s
    (settings_set agentId
       {| enabled := Some isEnabled; isDefault := isDefault old;
          customPath := customPath old; customArgs := customArgs old |}
       current).

Definition setAgentDefault (agentId : string) (s : Store) : Store :=
  let current := agentSettings s in
  let updated :=
    (fun '(id, c) =>
       (id, {| enabled := enabled c; isDefault := Some (String.eqb id agentId);
               customPath := customPath c; customArgs := customArgs c |}))
    <$> current in
  set_agentSettings s updated.

(** [x || undefined] on an optional string. *)
Definition or_undefined (x : option string) : option string :=
  match x with
  | Some t => if String.eqb t "" then None else Some t
  | None => None
  end.

Definition setAgentCustomConfig (agentId : string) (config : CustomConfig) (s : Store)
  : Store :=
  let current := agentSettings s in
  let old := spread_config (settings_get agentId current) in
  set_agentSettings s
    (settings_set agentId
       {| enabled := enabled old; isDefault := isDefault old;
          customPath := or_undefined (cfg_customPath config);
          customArgs := or_undefined (cfg_customArgs config) |}
       current).

Definition addCustomAgent (agent : CustomAgent) (s : Store) : Store :=
  set_agentSettings
    (set_customAgents s (customAgents s ++ [agent]))
    (settings_set (agent_id agent)
       {| enabled := Some true; isDefault := Some false;
          customPath := None; customArgs := None |}
       (agentSettings s)).

Definition apply_updates (a : CustomAgent) (updates : CustomAgentUpdates) : CustomAgent :=
  {| agent_id := default (agent_id a) (upd_id updates);
     agent_rest := upd_rest updates ∪ agent_rest a |}.

Definition updateCustomAgent (id : string) (updates : CustomAgentUpdates) (s : Store)
  : Store :=
  set_customAgents s
    ((fun a => if String.eqb (agent_id a) id then apply_updates a updates else a)
     <$> customAgents s).

Definition is_true (b : option bool) : bool := default false b.

Definition removeCustomAgent (id : string) (s : Store) : Store :=
  let wasDefault := is_true (c ← settings_get id (agentSettings s); isDefault c) in
  let newAgentSettings := settings_delete id (agentSettings s) in
  let newAgentSettings :=
    if wasDefault then
      match List.find (fun '(_, cfg) => is_true (enabled cfg)) newAgentSettings with
      | Some (firstId, cfg) =>
          settings_set firstId
            {| enabled := enabled cfg; isDefault := Some true;
               customPath := customPath cfg; customArgs := customArgs cfg |}
            newAgentSettings
      | None => newAgentSettings
      end
    else newAgentSettings in
  set_agentSettings
    (set_customAgents s
       (List.filter (fun a => negb (String.eqb (agent_id a) id)) (customAgents s)))
    newAgentSettings.

Definition set_background (s : Store) (interval opacity blur brightness saturation : number)
  : Store :=
  {| agentSettings := agentSettings s;
     customAgents := customAgents s;
     backgroundRandomInterval := interval;
     backgroundOpacity := opacity;
     backgroundBlur := blur;
     backgroundBrightness := brightness;
     backgroundSaturation := saturation |}.

Definition setBackgroundRandomInterval (v : number) (s : Store) : Store :=
  let safeValue :=
    if Number_isFinite v then Math_max (Finite 5) (Math_min (Finite 86400) v)
    else Finite 300 in
  set_background s safeValue (backgroundOpacity s) (backgroundBlur s)
    (backgroundBrightness s) (backgroundSaturation s).

Definition setBackgroundOpacity (v : number) (s : Store) : Store :=
  let safeValue := if Number_isFinite v then v else backgroundOpacity s in
  let clamped := Math_min (Finite 1) (Math_max (Finite 0) safeValue) in
  set_background s (backgroundRandomInterval s) clamped (backgroundBlur s)
    (backgroundBrightness s) (backgroundSaturation s).

Definition setBackgroundBlur (v : number) (s : Store) : Store :=
  let safeValue := if Number_isFinite v then v else backgroundBlur s in
  let clamped := Math_min (Finite 20) (Math_max (Finite 0) safeValue) in
  set_background s (backgroundRandomInterval s) (backgroundOpacity s) clamped
    (backgroundBrightness s) (backgroundSaturation s).

Definition setBackgroundBrightness (v : number) (s : Store) : Store :=
  let safeValue := if Number_isFinite v then v else backgroundBrightness s in
  let clamped := Math_min (Finite 2) (Math_max (Finite 0) safeValue) in
  set_background s (backgroundRandomInterval s) (backgroundOpacity s) (backgroundBlur s)
    clamped (backgroundSaturation s).

Definition setBackgroundSaturation (v : number) (s : Store) : Store :=
  let safeValue := if Number_isFinite v then v else backgroundSaturation s in
  let clamped := Math_min (Finite 2) (Math_max (Finite 0) safeValue) in
  set_background s (backgroundRandomInterval s) (backgroundOpacity s) (backgroundBlur s)
    (backgroundBrightness s) clamped.

(** defaults.ts, lines 293-301. *)
Definition agentConfig_record (isEnabled isDefaultAgent : bool) : AgentConfig :=
  {| enabled := Some isEnabled; isDefault := Some isDefaultAgent;
     customPath := None; customArgs := None |}.

Definition defaultAgentSettings : list (string * AgentConfig) :=
  [ ("claude", agentConfig_record true true);
    ("codex", agentConfig_record false false);
    ("droid", agentConfig_record false false);
    ("gemini", agentConfig_record false false);
    ("auggie", agentConfig_record false false);
    ("cursor", agentConfig_record false false);
    ("opencode", agentConfig_record false false) ].

Definition initialStore : Store :=
  {| agentSettings := defaultAgentSettings;
     customAgents := [];
     backgroundRandomInterval := Finite 300;
     backgroundOpacity := Finite 0.85;
     backgroundBlur := Finite 0;
     backgroundBrightness := Finite 1;
     backgroundSaturation := Finite 1 |}.

(** The agent mutations of the store, and sequences of them. *)
Inductive mutation :=
  | SetAgentDefault (agentId : string)
  | SetAgentEnabled (agentId : string) (isEnabled : bool)
  | SetAgentCustomConfig (agentId : string) (config : CustomConfig)
  | AddCustomAgent (agent : CustomAgent)
  | UpdateCustomAgent (id : string) (updates : CustomAgentUpdates)
  | RemoveCustomAgent (id : string).

Definition apply_mutation (s : Store) (m : mutation) : Store :=
  match m with
  | SetAgentDefault agentId => setAgentDefault agentId s
  | SetAgentEnabled agentId isEnabled => setAgentEnabled agentId isEnabled s
  | SetAgentCustomConfig agentId config => setAgentCustomConfig agentId config s
  | AddCustomAgent agent => addCustomAgent agent s
  | UpdateCustomAgent id updates => updateCustomAgent id updates s
  | RemoveCustomAgent id => removeCustomAgent id s
  end.

Definition run_mutations (ms : list mutation) (s : Store) : Store :=
  foldl apply_mutation s ms.

(** The agents with [isDefault = true], and those that are also enabled. *)
Definition default_agents (l : list (string * AgentConfig)) : list (string * AgentConfig) :=
  List.filter (fun '(_, c) => is_true (isDefault c)) l.

Definition enabled_default_agents (l : list (string * AgentConfig))
  : list (string * AgentConfig) :=
  List.filter (fun '(_, c) => is_true (isDefault c) && is_true (enabled c)) l.

(** ** The storage adapter (storage.ts) *)

Section Storage.

(** [JSON.parse]; [None] is a SyntaxError. *)
Variable JSON_parse : string -> option value.

(** The persistence channel holds one value: what [settings.read()] resolves
    to and what [settings.write(data)] replaces.  [setItem] returns the new
    content, or [None] when the promise rejects before the write. *)
Definition setItem (name text : string) (disk : value) : option value :=
  let existingData := js_or disk (obj []) in
  parsed ← JSON_parse text;
  let newData :=
    object_literal
      [ Spread (match typeof existingData with TObject => existingData | _ => obj [] end);
        Field name parsed ] in
  Some (VObj newData).

Definition removeItem (name : string) (disk : value) : value :=
  let existingData := js_or disk (obj []) in
  match typeof existingData with
  | TObject =>
      if nullish existingData then disk
      else
        let newData := object_literal [ Spread existingData ] in
        VObj (delete name newData)
  | _ => disk
  end.

End Storage.

(** ** The one-time todo migration (todo store, lines 35-46) *)

Inductive effect :=
  | GetItem (key : string)
  | TodoMigrate (payload : string)
  | RemoveItem (key : string)
  | ConsoleLog
  | ConsoleError.

Inductive completion := Resolved | Rejected.

Record World := {
  localStorage : gmap string string;
  trace : list effect }.

Definition emit (e : effect) (w : World) : World :=
  {| localStorage := localStorage w; trace := trace w ++ [e] |}.

Section TodoMigration.

(** STORAGE_KEYS.TODO_BOARDS, declared in @/App/storage. *)
Variable TODO_BOARDS : string.

(** Whether [window.electronAPI.todo.migrate(payload)] resolves. *)
Variable migrate_resolves : string -> bool.

(** The body of the try block: [inr tt] is a thrown exception. *)
Definition migrateLocalStorage_try (w : World) : World * (unit + unit) :=
  let w := emit (GetItem TODO_BOARDS) w in
  match localStorage w !! TODO_BOARDS with
  | None => (w, inl tt)
  | Some saved =>
      if String.eqb saved "" then (w, inl tt)
      else
        let w := emit (TodoMigrate saved) w in
        if migrate_resolves saved then
          let w :=
            emit (RemoveItem TODO_BOARDS)
              {| localStorage := delete TODO_BOARDS (localStorage w); trace := trace w |} in
          (emit ConsoleLog w, inl tt)
        else (w, inr tt)
  end.

Definition migrateLocalStorage (w : World) : World * completion :=
  match migrateLocalStorage_try w with
  | (w, inl _) => (w, Resolved)
  | (w, inr _) => (emit ConsoleError w, Resolved)
  end.

End TodoMigration.

(** ** The storage adapter, reading (storage.ts, lines 6-12) *)

(** The names that Object.prototype defines.  On a plain object that has no
    own property [k], a read [o[k]] or a test [k in o] finds the inherited
    member when [k] is one of them.  Apart from getItem below, the model
    reads own properties; the properties of code that reads a name given by
    the caller are stated for names outside this list, where own properties
    decide in the code too. *)
Definition Object_prototype : list string :=
  [ "constructor"; "__defineGetter__"; "__defineSetter__"; "hasOwnProperty";
    "__lookupGetter__"; "__lookupSetter__"; "isPrototypeOf"; "propertyIsEnumerable";
    "toString"; "valueOf"; "__proto__"; "toLocaleString" ].

(** The member of Object.prototype under one of these names: the prototype
    itself, which has no enumerable property, for [__proto__], and a
    function for the others. *)
Definition inherited_member (k : string) : value :=
  if String.eqb k "__proto__" then VObj ∅ else VFun k.

(** The own properties among those that [name in v] finds.  No property of
    a function is modelled. *)
Definition has_property (v : value) (k : string) : bool :=
  match v with
  | VObj m => bool_decide (is_Some (m !! k))
  | VArr l => String.eqb k "length" || bool_decide (is_Some (index_entries l !! k))
  | _ => false
  end.

Definition is_object_type (v : value) : bool :=
  match typeof v with TObject => true | _ => false end.

(** [name in v] for an object or an array: an own property or a member of
    Object.prototype.  The members that Array.prototype adds for arrays are
    not modelled. *)
Definition in_object (v : value) (k : string) : bool :=
  has_property v k
  || match v with
     | VObj _ | VArr _ => bool_decide (k ∈ Object_prototype)
     | _ => false
     end.

(** [v[name]] after [name in v] held.  The prototype of an array is itself
    an empty array; its other inherited members are functions too. *)
Definition read_member (v : value) (k : string) : value :=
  if has_property v k then prop v k
  else match v with
       | VArr _ => if String.eqb k "__proto__" then VArr [] else VFun k
       | _ => inherited_member k
       end.

Section StorageRead.

(** [JSON.stringify]: a string, or undefined for what JSON cannot hold. *)
Variable JSON_stringify : value -> value.

(** [getItem] resolves to a string or to null. *)
Definition getItem (name : string) (disk : value) : value :=
  let data := disk in
  if truthy data && is_object_type data && in_object data name
  then JSON_stringify (read_member data name)
  else VNull.

End StorageRead.

(** ** Cleaning up legacy fields (migration.ts, lines 300-320) *)

Definition legacyFields : list string :=
  ["terminalKeybindings"; "agentKeybindings"; "terminalPaneKeybindings"].

(** [k in v]: a TypeError ([None]) when [v] is not an object. *)
Definition in_operator (k : string) (v : value) : option bool :=
  match v with
  | VObj _ | VArr _ | VFun _ => Some (has_property v k)
  | _ => None
  end.

(** [fields.some((f) => f in v)], stopping at the first hit or throw. *)
Fixpoint some_in (fields : list string) (v : value) : option bool :=
  match fields with
  | [] => Some false
  | f :: rest =>
      match in_operator f v with
      | None => None
      | Some true => Some true
      | Some false => some_in rest v
      end
  end.

(** [delete v[k]]; only an object can hold one of the legacy names. *)
Definition delete_prop (k : string) (v : value) : value :=
  match v with VObj m => VObj (delete k m) | _ => v end.

(** The object [v] after the object it holds under [k] was changed in place
    to [x]. *)
Definition replace_prop (v : value) (k : string) (x : value) : value :=
  match v with VObj m => VObj (<[k := x]> m) | _ => v end.

Inductive cleanup :=
  | Written (disk : value)
  | NothingWritten
  | CleanupRejected.

Definition cleanupLegacyFields (disk : value) : cleanup :=
  let data := disk in
  if truthy data && is_object_type data then
    let settingsData := data in
    let ensoSettings := prop settingsData "enso-settings" in
    let state := opt_prop ensoSettings "state" in
    if truthy state then
      match some_in legacyFields state with
      | None => CleanupRejected
      | Some false => NothingWritten
      | Some true =>
          let cleaned := foldl (fun s field => delete_prop field s) state legacyFields in
          Written (replace_prop settingsData "enso-settings"
                     (replace_prop ensoSettings "state" cleaned))
      end
    else NothingWritten
  else NothingWritten.

(** The state without the three legacy fields. *)
Definition cleaned_state (s : gmap string value) : gmap string value :=
  delete "terminalPaneKeybindings"
    (delete "agentKeybindings" (delete "terminalKeybindings" s)).

(** ** Further setters of the store (index.ts) *)

(** Each of the setters below reads and writes one field of the state and is
    given here as the function on that field. *)

(** Terminal theme favorites, lines 582-599. *)
Definition includes_theme (favorites : list string) (theme : string) : bool :=
  existsb (String.eqb theme) favorites.

Definition addFavoriteTerminalTheme (theme : string) (favorites : list string)
  : list string :=
  if includes_theme favorites theme then favorites else favorites ++ [theme].

Definition removeFavoriteTerminalTheme (theme : string) (favorites : list string)
  : list string :=
  List.filter (fun t => negb (String.eqb t theme)) favorites.

Definition toggleFavoriteTerminalTheme (theme : string) (favorites : list string)
  : list string :=
  if includes_theme favorites theme
  then List.filter (fun t => negb (String.eqb t theme)) favorites
  else favorites ++ [theme].

(** [Math.floor] *)
Definition Math_floor (n : number) : number :=
  match n with
  | Finite q => Finite (inject_Z (Qfloor q))
  | _ => n
  end.

(** setLogRetentionDays, lines 659-662: the value stored. *)
Definition setLogRetentionDays (logRetentionDays : number) : number :=
  Math_min (Finite 30) (Math_max (Finite 1) (Math_floor logRetentionDays)).

(** PromptPreset is declared in @shared/types, outside these sources; the
    setter below reads its [id] and writes its [enabled]. *)
Record PromptPreset := {
  preset_id : string;
  preset_enabled : bool;
  preset_rest : gmap string value }.

(** setPromptPresetEnabled, lines 569-575. *)
Definition setPromptPresetEnabled (id : string) (promptPresets : list PromptPreset)
  : list PromptPreset :=
  (fun p => {| preset_id := preset_id p;
               preset_enabled := String.eqb (preset_id p) id;
               preset_rest := preset_rest p |}) <$> promptPresets.

(** reorderClaudeProviders, lines 396-408, on the array of providers.  The
    indices are positions of a drag and drop, whole numbers;
    [relative_index] is the start position Array.prototype.splice computes
    from one. *)
Definition relative_index (index : Z) (len : nat) : nat :=
  if (index <? 0)%Z then Z.to_nat (Z.max (Z.of_nat len + index) 0)
  else Z.to_nat (Z.min index (Z.of_nat len)).

Definition reorderClaudeProviders (fromIndex toIndex : Z) (providers : list value)
  : list value :=
  let start := relative_index fromIndex (length providers) in
  let removed := default VUndef (providers !! start) in
  let providers := delete start providers in
  let position := relative_index toIndex (length providers) in
  let providers := take position providers ++ [removed] ++ drop position providers in
  imap (fun index p =>
          VObj (object_literal [ Spread p; Field "displayOrder" (VNum (num_of_nat index)) ]))
       providers.

(** A provider apart from its displayOrder. *)
Definition without_displayOrder (p : value) : gmap string value :=
  delete "displayOrder" (own_enumerable p).

(** ** The todo store (todo store, lines 31-33 and 50-192) *)

(** [order] holds a position in a column and the two time stamps hold
    [Date.now()]: whole numbers far below 2^53, on which the arithmetic of
    doubles is exact.  They are embedded as integers. *)
Record TodoTask := {
  task_id : string;
  task_title : string;
  task_description : string;
  task_priority : string;
  task_status : string;
  task_createdAt : Z;
  task_updatedAt : Z;
  task_order : Z }.

(** [Omit<TodoTask, 'id' | 'createdAt' | 'updatedAt' | 'order'>] *)
Record TaskData := {
  data_title : string;
  data_description : string;
  data_priority : string;
  data_status : string }.

(** [Partial<Pick<TodoTask, 'title' | 'description' | 'priority' | 'status'>>];
    [None] is a key the object does not have. *)
Record TaskUpdates := {
  new_title : option string;
  new_description : option string;
  new_priority : option string;
  new_status : option string }.

(** The requests sent over [window.electronAPI.todo]. *)
Inductive todo_call :=
  | GetTasks (key : string)
  | AddTask (key : string) (task : TodoTask)
  | UpdateTask (key taskId : string) (updates : TaskUpdates)
  | DeleteTask (key taskId : string)
  | MoveTask (key taskId newStatus : string) (newOrder : Z)
  | ReorderTasks (key status : string) (orderedIds : list string).

(** The state of the store ([tasks], [_loaded]) and the requests sent so
    far, oldest first. *)
Record TodoStore := {
  tasks : gmap string (list TodoTask);
  loaded : gset string;
  sent : list todo_call }.

Definition set_tasks (s : TodoStore) (key : string) (l : list TodoTask) : TodoStore :=
  {| tasks := <[key := l]> (tasks s); loaded := loaded s; sent := sent s |}.

Definition send (c : todo_call) (s : TodoStore) : TodoStore :=
  {| tasks := tasks s; loaded := loaded s; sent := sent s ++ [c] |}.

Definition emptyTodoStore : TodoStore :=
  {| tasks := ∅; loaded := ∅; sent := [] |}.

(** [{ ...t, ...updates, updatedAt: now }] *)
Definition apply_task_updates (t : TodoTask) (updates : TaskUpdates) (now : Z) : TodoTask :=
  {| task_id := task_id t;
     task_title := default (task_title t) (new_title updates);
     task_description := default (task_description t) (new_description updates);
     task_priority := default (task_priority t) (new_priority updates);
     task_status := default (task_status t) (new_status updates);
     task_createdAt := task_createdAt t;
     task_updatedAt := now;
     task_order := task_order t |}.

(** [new Map(orderedIds.map((id, i) => [id, i]))]: the entries are set one
    after the other, so a later entry for the same id replaces an earlier
    one. *)
Definition order_map (orderedIds : list string) : gmap string Z :=
  foldl (fun m entry => <[entry.1 := entry.2]> m) ∅
        (imap (fun i id => (id, Z.of_nat i)) orderedIds).

Section TodoStore.

(** normalizePath, declared in @/App/storage. *)
Variable normalizePath : string -> string.

Definition getKey (repoPath : string) : string := normalizePath repoPath.

(** loadTasks, lines 56-73.  [fetched] is what getTasks resolves to, [None]
    when it rejects; the request and the update on its completion are taken
    as one step. *)
Definition loadTasks (repoPath : string) (fetched : option (list TodoTask))
    (s : TodoStore) : TodoStore :=
  let key := getKey repoPath in
  if bool_decide (key ∈ loaded s) then s
  else
    let s := send (GetTasks key) s in
    match fetched with
    | Some fetchedTasks =>
        {| tasks := <[key := fetchedTasks]> (tasks s);
           loaded := loaded s ∪ {[ key ]};
           sent := sent s |}
    | None => s
    end.

(** addTask, lines 75-103.  [uuid] is [crypto.randomUUID()]; [created] and
    [updated] are the two readings of [Date.now()].  [tasks[key]] is read on
    own properties, and [maxOrder + 1] is the sum of integers, which is the
    sum of doubles for safe integers. *)
Definition addTask (repoPath : string) (taskData : TaskData)
    (uuid : string) (created updated : Z) (s : TodoStore) : TodoStore * TodoTask :=
  let key := getKey repoPath in
  let existing := default [] (tasks s !! key) in
  let tasksInColumn :=
    List.filter (fun t => String.eqb (task_status t) (data_status taskData)) existing in
  let maxOrder := foldl (fun max t => Z.max max (task_order t)) (-1)%Z tasksInColumn in
  let newTask :=
    {| task_id := uuid;
       task_title := data_title taskData;
       task_description := data_description taskData;
       task_priority := data_priority taskData;
       task_status := data_status taskData;
       task_createdAt := created;
       task_updatedAt := updated;
       task_order := (maxOrder + 1)%Z |} in
  let s := set_tasks s key (default [] (tasks s !! key) ++ [newTask]) in
  let s := send (AddTask key newTask) s in
  (s, newTask).

(** updateTask, lines 105-123.  Here and in the three actions below
    [get().tasks[key]] is read on own properties. *)
Definition updateTask (repoPath taskId : string) (updates : TaskUpdates) (now : Z)
    (s : TodoStore) : TodoStore :=
  let key := getKey repoPath in
  match tasks s !! key with
  | None => s
  | Some _ =>
      let s :=
        set_tasks s key
          ((fun t => if String.eqb (task_id t) taskId
                     then apply_task_updates t updates now else t)
             <$> default [] (tasks s !! key)) in
      send (UpdateTask key taskId updates) s
  end.

(** deleteTask, lines 125-141. *)
Definition deleteTask (repoPath taskId : string) (s : TodoStore) : TodoStore :=
  let key := getKey repoPath in
  match tasks s !! key with
  | None => s
  | Some _ =>
      let s :=
        set_tasks s key
          (List.filter (fun t => negb (String.eqb (task_id t) taskId))
                       (default [] (tasks s !! key))) in
      send (DeleteTask key taskId) s
  end.

(** moveTask, lines 143-160. *)
Definition moveTask (repoPath taskId newStatus : string) (newOrder : Z) (now : Z)
    (s : TodoStore) : TodoStore :=
  let key := getKey repoPath in
  match tasks s !! key with
  | None => s
  | Some _ =>
      let s :=
        set_tasks s key
          ((fun t => if String.eqb (task_id t) taskId
                     then {| task_id := task_id t;
                             task_title := task_title t;
                             task_description := task_description t;
                             task_priority := task_priority t;
                             task_status := newStatus;
                             task_createdAt := task_createdAt t;
                             task_updatedAt := now;
                             task_order := newOrder |}
                     else t)
             <$> default [] (tasks s !! key)) in
      send (MoveTask key taskId newStatus newOrder) s
  end.

(** The function reorderTasks maps over the list. *)
Definition reorder_task (status : string) (orderMap : gmap string Z) (now : Z)
    (t : TodoTask) : TodoTask :=
  if String.eqb (task_status t) status && bool_decide (is_Some (orderMap !! task_id t))
  then {| task_id := task_id t;
          task_title := task_title t;
          task_description := task_description t;
          task_priority := task_priority t;
          task_status := task_status t;
          task_createdAt := task_createdAt t;
          task_updatedAt := now;
          task_order := default 0%Z (orderMap !! task_id t) |}
  else t.

(** reorderTasks, lines 162-186. *)
Definition reorderTasks (repoPath status : string) (orderedIds : list string) (now : Z)
    (s : TodoStore) : TodoStore :=
  let key := getKey repoPath in
  match tasks s !! key with
  | None => s
  | Some _ =>
      let orderMap := order_map orderedIds in
      let s :=
        set_tasks s key
          (reorder_task status orderMap now <$> default [] (tasks s !! key)) in
      send (ReorderTasks key status orderedIds) s
  end.

(** selectTasks, lines 189-192. *)
Definition selectTasks (s : TodoStore) (repoPath : string) : list TodoTask :=
  default [] (tasks s !! getKey repoPath).

End TodoStore.

(** The tasks of one column. *)
Definition column (status : string) (l : list TodoTask) : list TodoTask :=
  List.filter (fun t => String.eqb (task_status t) status) l.

(** ** Resolving an agent id (components/todo/useEnabledAgents.ts, lines 4-54) *)

(** [s.endsWith(suffix)] and [s.slice(0, -k)]; the suffixes used are ASCII,
    so counting from the end agrees with JavaScript's code units. *)
Definition endsWith (s suffix : string) : bool :=
  (String.length suffix <=? String.length s)%nat
  && String.eqb (String.substring (String.length s - String.length suffix)
                           (String.length suffix) s) suffix.

Definition slice_end (s : string) (k : nat) : string :=
  String.substring 0 (String.length s - k) s.

(** AGENT_INFO, read by own property. *)
Definition AGENT_INFO : list (string * (string * string)) :=
  [ ("claude", ("Claude", "claude"));
    ("codex", ("Codex", "codex"));
    ("droid", ("Droid", "droid"));
    ("gemini", ("Gemini", "gemini"));
    ("auggie", ("Auggie", "auggie"));
    ("cursor", ("Cursor", "cursor-agent"));
    ("opencode", ("OpenCode", "opencode")) ].

Definition agent_info (baseId : string) : option (string * string) :=
  snd <$> List.find (fun entry => String.eqb entry.1 baseId) AGENT_INFO.

(** The element type of the parameter [customAgents] of resolveAgent. *)
Record AgentEntry := {
  entry_id : string;
  entry_name : string;
  entry_command : string }.

Inductive AgentEnvironment := EnvNative | EnvHapi | EnvHappy.

Record ResolvedAgent := {
  resolved_agentId : string;
  resolved_name : string;
  resolved_command : string;
  resolved_isDefault : bool;
  resolved_environment : AgentEnvironment;
  resolved_customPath : option string;
  resolved_customArgs : option string }.

(** resolveAgent, lines 26-54. *)
Definition resolveAgent (agentId : string) (agentSettings : list (string * AgentConfig))
    (customAgents : list AgentEntry) : ResolvedAgent :=
  let isHapi := endsWith agentId "-hapi" in
  let isHappy := endsWith agentId "-happy" in
  let baseId :=
    if isHapi then slice_end agentId 5
    else if isHappy then slice_end agentId 6 else agentId in
  let customAgent := List.find (fun a => String.eqb (entry_id a) baseId) customAgents in
  let baseName :=
    match customAgent with
    | Some a => entry_name a
    | None => match agent_info baseId with Some info => info.1 | None => baseId end
    end in
  let command :=
    match customAgent with
    | Some a => entry_command a
    | None => match agent_info baseId with Some info => info.2 | None => "claude" end
    end in
  let name :=
    if isHapi then baseName +:+ " (Hapi)"
    else if isHappy then baseName +:+ " (Happy)" else baseName in
  let environment :=
    if isHapi then EnvHapi else if isHappy then EnvHappy else EnvNative in
  let isDefault := is_true (c ← settings_get agentId agentSettings; isDefault c) in
  let config := settings_get baseId agentSettings in
  {| resolved_agentId := agentId;
     resolved_name := name;
     resolved_command := command;
     resolved_isDefault := isDefault;
     resolved_environment := environment;
     resolved_customPath := c ← config; customPath c;
     resolved_customArgs := c ← config; customArgs c |}.

(** ** Inputs used to run the definitions *)

(** A StringToNumber for the empty string, unsigned decimal integers and
    "Infinity"; every other string is NaN. *)
Fixpoint digits_value (acc : Z) (s : string) : option Z :=
  match s with
  | EmptyString => Some acc
  | String c rest =>
      let n := Z.of_nat (Ascii.nat_of_ascii c) in
      if (48 <=? n)%Z && (n <=? 57)%Z then digits_value (10 * acc + (n - 48))%Z rest
      else None
  end.

Definition decimal_Number (s : string) : number :=
  if String.eqb s "Infinity" then PosInf
  else match digits_value 0 s with
       | Some z => Finite (inject_Z z)
       | None => NaN
       end.

(** A custom agent that is added and made the default. *)
Definition sample_agent : CustomAgent :=
  {| agent_id := "my-agent"; agent_rest := {[ "name" := VStr "My agent" ]} |}.

Definition sample_mutations : list mutation :=
  [ AddCustomAgent sample_agent; SetAgentDefault "my-agent" ].

(** The initial state on a non-Windows host with an English locale; the
    prompt texts are shortened. *)
Definition sample_defaults : value :=
  getInitialState "en" false "commit prompt" "review prompt" "branch prompt".

Definition detection_info (version : string) : value :=
  obj [ ("installed", VBool true); ("version", VStr version); ("detectedAt", num 1700000000) ].

Definition sample_presets : list PromptPreset :=
  [ {| preset_id := "default"; preset_enabled := true; preset_rest := ∅ |};
    {| preset_id := "terse"; preset_enabled := false; preset_rest := ∅ |} ].

Definition sample_task (id status : string) (order : Z) : TodoTask :=
  {| task_id := id; task_title := "title"; task_description := "";
     task_priority := "medium"; task_status := status;
     task_createdAt := 1700000000000; task_updatedAt := 1700000000000;
     task_order := order |}.

Definition sample_task_data : TaskData :=
  {| data_title := "write tests"; data_description := "";
     data_priority := "high"; data_status := "todo" |}.

(** A store with one loaded repository holding three tasks. *)
Definition sample_todo_store : TodoStore :=
  {| tasks := {[ "/repo" := [ sample_task "a" "todo" 0; sample_task "b" "done" 0;
                              sample_task "c" "todo" 1 ] ]};
     loaded := {[ "/repo" ]};
     sent := [] |}.

(** A state persisted by a version that kept the terminal and the agent
    key bindings apart. *)
Definition persisted_legacy_keys : value :=
  obj [ ("terminalKeybindings",
         obj [ ("newTab", keybinding "n" ["ctrl"]); ("clear", keybinding "k" ["ctrl"]) ]);
        ("agentKeybindings", obj [ ("newSession", keybinding "s" ["ctrl"]) ]);
        ("theme", VStr "dark") ].

(** A state persisted by a version that kept the image URL in
    backgroundImagePath. *)
Definition persisted_url_image : value :=
  obj [ ("backgroundSourceType", VStr "url");
        ("backgroundImagePath", VStr "https://example.org/a.png") ].

Definition sample_provider (id : string) (order : Q) : value :=
  obj [ ("id", VStr id); ("displayOrder", num order) ].

Definition sample_providers : list value :=
  [ sample_provider "a" 0; sample_provider "b" 1; sample_provider "c" 2 ].

(** A persisted state with detection entries for foo and bar, bar alone
    enabled. *)
Definition persisted_foo_bar : value :=
  obj [ ("agentDetectionStatus",
           obj [ ("foo", detection_info "1.0"); ("bar", detection_info "2.0") ]);
        ("agentSettings",
           obj [ ("foo", agentConfig_value false false);
                 ("bar", agentConfig_value true true) ]) ].


(** The initial state after the stop hook was switched off: every field has
    its declared type, and "hideWhileRunning" is left without its hook. *)
Definition defaults_without_stop_hook : value :=
  VObj (<["claudeCodeIntegration" :=
            VObj (<["stopHookEnabled" := VBool false]>
                    (own_enumerable defaultClaudeCodeIntegrationSettings))]>
          (own_enumerable sample_defaults)).

(** A settings blob as the persist middleware writes it, with two legacy
    fields left in the state and another store beside it. *)
Definition blob_with_legacy : value :=
  obj [ ("enso-settings",
           obj [ ("state",
                    obj [ ("theme", VStr "dark");
                          ("terminalKeybindings", obj [ ("newTab", keybinding "t" ["meta"]) ]);
                          ("agentKeybindings", obj []) ]);
                 ("version", num 0) ]);
        ("other-store", VBool true) ].

(** A StringToValue for the JSON texts used below. *)
Definition sample_JSON_parse (text : string) : option value :=
  if String.eqb text "{}" then Some (obj [])
  else if String.eqb text "true" then Some (VBool true)
  else if String.eqb text "null" then Some VNull
  else None.

(** ** The object returned by migrateSettings, member by member *)

Definition migrated_renderer (persisted : value) : value :=
  if is_string (prop persisted "terminalRenderer") "canvas"
  then VStr "webgl" else prop persisted "terminalRenderer".

Definition sanitized_enum (allowed : list string) (persisted currentState : value)
    (k : string) : value :=
  if truthy (prop persisted k) && includes allowed (prop persisted k)
  then prop persisted k else prop currentState k.

Definition sanitized_boolean (persisted currentState : value) (k : string) : value :=
  sanitizeBoolean (prop persisted k) (prop currentState k).

Definition sanitized_string (persisted currentState : value) (k : string) : value :=
  sanitizeString (prop persisted k) (prop currentState k).

Definition sanitized_number (Number_of_string : string -> number)
    (persisted currentState : value) (lo hi : Q) (k : string) : value :=
  clampNumber Number_of_string (prop persisted k) (Finite lo) (Finite hi)
    (prop currentState k).

Definition migrated_url (persisted currentState : value) : value :=
  js_or (sanitized_string persisted currentState "backgroundUrlPath")
    (if is_string (sanitized_enum sourceTypes persisted currentState "backgroundSourceType")
          "url"
     then sanitized_string persisted currentState "backgroundImagePath"
     else VStr "").

Definition coalesced (persisted currentState : value) (k : string) : value :=
  nullish_coalesce (prop persisted k) (prop currentState k).

(** The three spreads that open the returned literal. *)
Definition spread_members (persisted currentState : value) : list member :=
  [ Spread currentState;
    Spread persisted;
    Spread (js_and (migrated_renderer persisted)
              (VObj (object_literal
                       [ Field "terminalRenderer" (migrated_renderer persisted) ]))) ].

(** The properties written after them. *)
Definition explicit_members (Number_of_string : string -> number)
    (persisted currentState : value) (integration detection : gmap string value)
  : list member :=
  [ Field "xtermKeybindings" (migrateXtermKeybindings persisted currentState);
    merge_domain persisted currentState "mainTabKeybindings";
    merge_domain persisted currentState "sourceControlKeybindings";
    merge_domain persisted currentState "searchKeybindings";
    merge_domain persisted currentState "globalKeybindings";
    merge_domain persisted currentState "workspaceKeybindings";
    Field "backgroundImageEnabled"
      (sanitized_boolean persisted currentState "backgroundImageEnabled");
    Field "backgroundImagePath"
      (sanitized_string persisted currentState "backgroundImagePath");
    Field "backgroundUrlPath" (migrated_url persisted currentState);
    Field "backgroundFolderPath"
      (sanitized_string persisted currentState "backgroundFolderPath");
    Field "backgroundSourceType"
      (sanitized_enum sourceTypes persisted currentState "backgroundSourceType");
    Field "backgroundRandomEnabled"
      (sanitized_boolean persisted currentState "backgroundRandomEnabled");
    Field "backgroundRandomInterval"
      (sanitized_number Number_of_string persisted currentState 5 86400
         "backgroundRandomInterval");
    Field "backgroundOpacity"
      (sanitized_number Number_of_string persisted currentState 0 1 "backgroundOpacity");
    Field "backgroundBlur"
      (sanitized_number Number_of_string persisted currentState 0 20 "backgroundBlur");
    Field "backgroundBrightness"
      (sanitized_number Number_of_string persisted currentState 0 2 "backgroundBrightness");
    Field "backgroundSaturation"
      (sanitized_number Number_of_string persisted currentState 0 2 "backgroundSaturation");
    Field "backgroundSizeMode"
      (sanitized_enum sizeModes persisted currentState "backgroundSizeMode");
    merge_domain persisted currentState "editorSettings";
    Field "claudeCodeIntegration" (VObj integration);
    merge_domain persisted currentState "commitMessageGenerator";
    merge_domain persisted currentState "codeReview";
    merge_domain persisted currentState "branchNameGenerator";
    merge_domain persisted currentState "hapiSettings";
    Field "agentDetectionStatus" (VObj detection);
    Field "mcpServers" (coalesced persisted currentState "mcpServers");
    Field "promptPresets" (coalesced persisted currentState "promptPresets");
    merge_domain persisted currentState "quickTerminal" ].

(** The detection status entries before filtering. *)
Definition detection_union (persisted currentState : value) : gmap string value :=
  object_literal
    [ Spread (prop currentState "agentDetectionStatus");
      Spread (prop persisted "agentDetectionStatus") ].

(** Reading an object literal one member at a time. *)
Fixpoint lookup_members (k : string) (found : option value) (ms : list member)
  : option value :=
  match ms with
  | [] => found
  | Spread v :: rest =>
      lookup_members k
        (match own_enumerable v !! k with Some x => Some x | None => found end) rest
  | Field k' v :: rest =>
      lookup_members k (if String.eqb k' k then Some v else found) rest
  end.

Definition default_count (l : list (string * AgentConfig)) : nat :=
  length (default_agents l).

Definition agents_ok (s : Store) : Prop :=
  NoDup (agentSettings s).*1 /\ (default_count (agentSettings s) <= 1)%nat.

(** What setAgentDefault makes of one entry. *)
Definition mark_default (agentId : string) (entry : string * AgentConfig)
  : string * AgentConfig :=
  (entry.1, {| enabled := enabled entry.2; isDefault := Some (String.eqb entry.1 agentId);
               customPath := customPath entry.2; customArgs := customArgs entry.2 |}).

(** The properties that the literal returned by migrateSettings writes
    after its two spreads of the states. *)
Definition written_keys : list string :=
  [ "terminalRenderer"; "xtermKeybindings";
    "mainTabKeybindings"; "sourceControlKeybindings"; "searchKeybindings";
    "globalKeybindings"; "workspaceKeybindings";
    "backgroundImageEnabled"; "backgroundImagePath"; "backgroundUrlPath";
    "backgroundFolderPath"; "backgroundSourceType"; "backgroundRandomEnabled";
    "backgroundRandomInterval"; "backgroundOpacity"; "backgroundBlur";
    "backgroundBrightness"; "backgroundSaturation"; "backgroundSizeMode";
    "editorSettings"; "claudeCodeIntegration"; "commitMessageGenerator";
    "codeReview"; "branchNameGenerator"; "hapiSettings"; "agentDetectionStatus";
    "mcpServers"; "promptPresets"; "quickTerminal" ].

(** The names migrateXtermKeybindings can take from the legacy records. *)
Definition legacy_bindings : list string :=
  [ "newTab"; "closeTab"; "nextTab"; "prevTab"; "clear"; "split"; "merge" ].

(** The first candidate that is there. *)
Definition first_defined (candidates : list (option value)) : option value :=
  foldr (fun candidate rest =>
           match candidate with Some v => Some v | None => rest end)
        None candidates.

(** [v.k] when it is not undefined. *)
Definition defined_prop (v : value) (k : string) : option value :=
  if is_undefined (prop v k) then None else Some (prop v k).

(** ** Predicates of the specification *)

(** [Math.min(max, Math.max(min, n))] *)
Definition clamp_to (min max n : number) : number := Math_min max (Math_max min n).

(** [lo <= n <= hi] *)
Definition within (lo hi n : number) : bool := num_leb lo n && num_leb n hi.

(** The number an input of clampNumber stands for: a number itself, or
    [Number(s)] for a string; other types stand for none. *)
Definition numeric_reading (Number_of_string : string -> number) (v : value)
  : option number :=
  match v with
  | VNum n => Some n
  | VStr s => Some (Number_of_string s)
  | _ => None
  end.

Definition in_range (lo hi : Q) (v : value) : bool :=
  match v with VNum n => within (Finite lo) (Finite hi) n | _ => false end.

Definition is_boolean (v : value) : bool :=
  match v with VBool _ => true | _ => false end.

Definition is_a_string (v : value) : bool :=
  match v with VStr _ => true | _ => false end.

Definition is_object (v : value) : bool :=
  match v with VObj _ => true | _ => false end.

Definition is_array (v : value) : bool :=
  match v with VArr _ => true | _ => false end.

(** The current state can be migrated against: reading its
    claudeCodeIntegration and agentSettings records does not throw. *)
Definition usable_defaults (s : value) : bool :=
  negb (nullish s)
  && negb (nullish (prop s "claudeCodeIntegration"))
  && negb (nullish (prop s "agentSettings")).

(** The background fields have their declared types and bounds
    (types.ts, lines 329-341). *)
Definition background_conforms (s : value) : bool :=
  is_boolean (prop s "backgroundImageEnabled")
  && is_a_string (prop s "backgroundImagePath")
  && is_a_string (prop s "backgroundUrlPath")
  && is_a_string (prop s "backgroundFolderPath")
  && includes sourceTypes (prop s "backgroundSourceType")
  && is_boolean (prop s "backgroundRandomEnabled")
  && in_range 5 86400 (prop s "backgroundRandomInterval")
  && in_range 0 1 (prop s "backgroundOpacity")
  && in_range 0 20 (prop s "backgroundBlur")
  && in_range 0 2 (prop s "backgroundBrightness")
  && in_range 0 2 (prop s "backgroundSaturation")
  && includes sizeModes (prop s "backgroundSizeMode").

(** "enabled is determined by the persisted agentSettings entry for that id
    when present, otherwise the default agentSettings entry". *)
Definition enabled_entry (persisted currentState : value) (agentId : string) : bool :=
  let saved := opt_prop (opt_prop persisted "agentSettings") agentId in
  let entry :=
    if nullish saved then opt_prop (opt_prop currentState "agentSettings") agentId
    else saved in
  truthy (opt_prop entry "enabled").

(** The union of the default and the persisted detection status, persisted
    entries winning. *)
Definition detection_entries (persisted currentState : value) : gmap string value :=
  own_enumerable (opt_prop persisted "agentDetectionStatus")
  ∪ own_enumerable (opt_prop currentState "agentDetectionStatus").

(** The detection status of the current state is an object that holds
    enabled agents only (the default table has it empty). *)
Definition detection_settled (currentState : value) : bool :=
  match prop currentState "agentDetectionStatus" with
  | VObj m =>
      bool_decide (map_Forall (fun id _ => enabled_entry VUndef currentState id = true) m)
  | _ => false
  end.

Definition renderers : list string := ["dom"; "webgl"].

(** The records that migration merges field by field. *)
Definition merged_domains : list string :=
  [ "mainTabKeybindings"; "sourceControlKeybindings"; "searchKeybindings";
    "globalKeybindings"; "workspaceKeybindings"; "editorSettings";
    "commitMessageGenerator"; "codeReview"; "branchNameGenerator"; "hapiSettings";
    "quickTerminal" ].

Definition popupModes : list string := ["always"; "hideWhileRunning"; "manual"].

(** The integration record is an object with its status line fields, its
    popup mode is one of the three modes, and "hideWhileRunning" comes with
    the stop hook. *)
Definition integration_consistent (c : value) : bool :=
  is_object c
  && is_object (prop c "statusLineFields")
  && includes popupModes (prop c "enhancedInputAutoPopup")
  && (negb (is_string (prop c "enhancedInputAutoPopup") "hideWhileRunning")
      || truthy (prop c "stopHookEnabled")).

(** No legacy url is left to move: the url path is set, or the source is
    not a url, or there is no image path to take it from. *)
Definition url_migrated (s : value) : bool :=
  truthy (prop s "backgroundUrlPath")
  || negb (is_string (prop s "backgroundSourceType") "url")
  || negb (truthy (prop s "backgroundImagePath")).

(** A validated snapshot, as far as migration looks at it: the fields that
    migration sanitizes, merges or repairs have their declared shape. *)
Definition validated (s : value) : bool :=
  is_object s
  && usable_defaults s
  && background_conforms s
  && url_migrated s
  && includes renderers (prop s "terminalRenderer")
  && is_object (prop s "xtermKeybindings")
  && forallb (fun k => is_object (prop s k)) merged_domains
  && integration_consistent (prop s "claudeCodeIntegration")
  && detection_settled s
  && is_array (prop s "mcpServers")
  && is_array (prop s "promptPresets").

(** The fields that migration sanitizes have their declared types in the
    current state: what a second migration needs when something was
    persisted. *)
Definition typed_defaults (s : value) : bool :=
  usable_defaults s
  && background_conforms s
  && includes renderers (prop s "terminalRenderer")
  && includes popupModes (prop (prop s "claudeCodeIntegration") "enhancedInputAutoPopup").

Definition in_bounds (s : Store) : bool :=
  within (Finite 5) (Finite 86400) (backgroundRandomInterval s)
  && within (Finite 0) (Finite 1) (backgroundOpacity s)
  && within (Finite 0) (Finite 20) (backgroundBlur s)
  && within (Finite 0) (Finite 2) (backgroundBrightness s)
  && within (Finite 0) (Finite 2) (backgroundSaturation s).



(** No own property of [s] is undefined. *)
Definition defined_fields (s : value) : bool :=
  bool_decide (map_Forall (fun _ x => is_undefined x = false) (own_enumerable s)).

(** A property name made of decimal digits.  Object.entries lists the keys
    that are array indices first, in numeric order, and the other keys in
    insertion order; the association list of the agent settings is in
    insertion order, which is the order of Object.entries when no key is
    made of digits. *)
Definition digits_only (k : string) : bool :=
  negb (String.eqb k "")
  && match digits_value 0 k with Some _ => true | None => false end.

(** Number.isSafeInteger on a whole number: adding 1 is exact in doubles. *)
Definition safe_integer (z : Z) : Prop := (Z.abs z < 2 ^ 53)%Z.

(** Where the throws of migrateSettings depend on own properties alone: the
    current state has agentSettings (then no read of a persisted agent
    record can throw), or the persisted agentSettings is a plain object or
    absent, the detection statuses are not strings, and no detection entry
    is named like a member of Object.prototype. *)
Definition own_properties_decide (persisted currentState : value) : Prop :=
  nullish (prop currentState "agentSettings") = false \/
  (match prop persisted "agentSettings" with
   | VUndef | VNull | VObj _ => True
   | _ => False
   end /\
   is_a_string (prop persisted "agentDetectionStatus") = false /\
   is_a_string (prop currentState "agentDetectionStatus") = false /\
   forall id, is_Some (detection_entries persisted currentState !! id) ->
              id ∉ Object_prototype).

(** * Properties *)

(** ** Numbers *)

Ltac q_prop :=
  repeat match goal with
  | E : negb _ = true |- _ => apply negb_true_iff in E
  | E : negb _ = false |- _ => apply negb_false_iff in E
  | E : Qle_bool _ _ = true |- _ => apply Qle_bool_iff in E
  | E : Qle_bool _ _ = false |- _ =>
      apply not_true_iff_false in E; rewrite Qle_bool_iff in E; apply Qnot_le_lt in E
  end.

Ltac num_step :=
  cbn [num_leb num_ltb Math_max Math_min Number_isFinite negb] in *;
  try discriminate; try reflexivity.

Ltac q_split :=
  repeat (match goal with
  | |- context [Qle_bool ?x ?y] =>
      let E := fresh "E" in destruct (Qle_bool x y) eqn:E; q_prop
  end; num_step).

Ltac num_cases :=
  repeat match goal with n : number |- _ => destruct n end;
  num_step; q_prop; q_split; try (exfalso; lra).

Lemma clamp_to_below (min max n : number) :
  num_leb min max = true -> num_ltb n min = true -> clamp_to min max n = min.
Proof. unfold clamp_to. intros Hmm Hlt. num_cases. Qed.

Lemma clamp_to_above (min max n : number) :
  num_leb min max = true -> num_ltb max n = true -> clamp_to min max n = max.
Proof. unfold clamp_to. intros Hmm Hlt. num_cases. Qed.

Lemma clamp_to_inside (min max n : number) :
  num_leb min n = true -> num_leb n max = true -> clamp_to min max n = n.
Proof. unfold clamp_to. intros H1 H2. num_cases. Qed.

Lemma clamp_to_range (min max n : number) :
  num_leb min max = true -> Number_isFinite n = true ->
  num_leb min (clamp_to min max n) = true /\ num_leb (clamp_to min max n) max = true.
Proof. unfold clamp_to. intros Hmm Hn. split; num_cases. Qed.

Lemma clamp_to_finite (min max n : number) :
  num_leb min max = true -> Number_isFinite n = true ->
  within min max (clamp_to min max n) = true.
Proof.
  intros Hmm Hn. destruct (clamp_to_range min max n Hmm Hn) as [H1 H2].
  unfold within. by rewrite H1, H2.
Qed.

Lemma within_inside (lo hi n : number) :
  within lo hi n = true -> clamp_to lo hi n = n.
Proof.
  unfold within. intros [H1 H2]%andb_true_iff. by apply clamp_to_inside.
Qed.

(** ** clampNumber *)

Lemma clampNumber_finite toNum v min max fallback n :
  numeric_reading toNum v = Some n -> Number_isFinite n = true ->
  clampNumber toNum v min max fallback = VNum (clamp_to min max n).
Proof.
  destruct v; simpl; try discriminate; intros [= <-] Hn; by rewrite Hn.
Qed.

Lemma clampNumber_fallback toNum v min max fallback :
  (forall n, numeric_reading toNum v = Some n -> Number_isFinite n = false) ->
  clampNumber toNum v min max fallback = fallback.
Proof.
  destruct v; simpl; try done; intros H; by rewrite (H _ eq_refl).
Qed.

Lemma clampNumber_range toNum v min max fallback :
  num_leb min max = true ->
  clampNumber toNum v min max fallback = fallback \/
  exists n, clampNumber toNum v min max fallback = VNum n /\ within min max n = true.
Proof.
  intros Hmm. destruct (numeric_reading toNum v) as [n|] eqn:Hread.
  - destruct (Number_isFinite n) eqn:Hfin.
    + right. exists (clamp_to min max n). split.
      * by apply clampNumber_finite.
      * by apply clamp_to_finite.
    + left. apply clampNumber_fallback. intros n' Hn'. congruence.
  - left. apply clampNumber_fallback. intros n' Hn'. congruence.
Qed.

(** C3, as stated, fails: positive infinity is a number above [max], and
    clampNumber answers the fallback, not [max]. *)
Lemma clampNumber_infinity_counterexample :
  typeof (VNum PosInf) = TNumber /\
  num_leb (Finite 0) (Finite 1) = true /\
  num_ltb (Finite 1) PosInf = true /\
  clampNumber decimal_Number (VNum PosInf) (Finite 0) (Finite 1) (num 0.5) = num 0.5 /\
  clampNumber decimal_Number (VNum PosInf) (Finite 0) (Finite 1) (num 0.5)
    <> VNum (Finite 1) /\
  decimal_Number "Infinity" = PosInf /\
  clampNumber decimal_Number (VStr "Infinity") (Finite 0) (Finite 1) (num 0.5) = num 0.5.
Proof. repeat split; try reflexivity. discriminate. Qed.

(** C3 (amended): for every input [v], bounds [min <= max] and fallback,
    clampNumber is total and
    - answers the fallback when [v] is neither a number nor a string, when it
      is a string that does not coerce to a finite number, and when it is a
      number that is not finite (NaN or an infinity);
    - answers [min] (resp. [max]) when [v] stands for a finite number below
      [min] (resp. above [max]);
    - answers [v] itself when [v] is a finite number within [min, max], and
      the number read when [v] is a string for such a number;
    - in every case answers the fallback or a number within [min, max]. *)
Theorem clampNumber_spec (Number_of_string : string -> number)
    (v : value) (min max : number) (fallback : value) :
  num_leb min max = true ->
  let result := clampNumber Number_of_string v min max fallback in
  (numeric_reading Number_of_string v = None -> result = fallback) /\
  (forall n, numeric_reading Number_of_string v = Some n ->
     Number_isFinite n = false -> result = fallback) /\
  (forall n, numeric_reading Number_of_string v = Some n ->
     Number_isFinite n = true ->
     (num_ltb n min = true -> result = VNum min) /\
     (num_ltb max n = true -> result = VNum max) /\
     (within min max n = true -> result = VNum n)) /\
  (forall n, v = VNum n -> Number_isFinite n = true -> within min max n = true ->
     result = v) /\
  (result = fallback \/ exists n, result = VNum n /\ within min max n = true).
Proof.
  intros Hmm result. subst result. repeat split.
  - intros Hnone. apply clampNumber_fallback. intros n Hn. congruence.
  - intros n Hn Hinf. apply clampNumber_fallback. intros n' Hn'. congruence.
  - intros Hlt. rewrite (clampNumber_finite _ _ _ _ _ n) by done.
    by rewrite clamp_to_below.
  - intros Hgt. rewrite (clampNumber_finite _ _ _ _ _ n) by done.
    by rewrite clamp_to_above.
  - intros Hin. rewrite (clampNumber_finite _ _ _ _ _ n) by done.
    by rewrite within_inside.
  - intros n -> Hfin Hin. rewrite (clampNumber_finite _ _ _ _ _ n) by done.
    by rewrite within_inside.
  - by apply clampNumber_range.
Qed.

Lemma clampNumber_spec_witness :
  clampNumber decimal_Number (VStr "7") (Finite 0) (Finite 1) (num 0.85) = VNum (Finite 1)
  /\ clampNumber decimal_Number (VStr "seven") (Finite 0) (Finite 1) (num 0.85) = num 0.85.
Proof.
  split.
  - destruct (clampNumber_spec decimal_Number (VStr "7") (Finite 0) (Finite 1) (num 0.85)
                eq_refl) as (_ & _ & H & _).
    destruct (H (Finite 7) eq_refl eq_refl) as (_ & Habove & _).
    apply Habove. reflexivity.
  - destruct (clampNumber_spec decimal_Number (VStr "seven") (Finite 0) (Finite 1)
                (num 0.85) eq_refl) as (_ & H & _).
    apply (H NaN); reflexivity.
Defined.

(** ** Background setters *)

Lemma in_bounds_fields (s : Store) :
  in_bounds s = true ->
  within (Finite 5) (Finite 86400) (backgroundRandomInterval s) = true /\
  within (Finite 0) (Finite 1) (backgroundOpacity s) = true /\
  within (Finite 0) (Finite 20) (backgroundBlur s) = true /\
  within (Finite 0) (Finite 2) (backgroundBrightness s) = true /\
  within (Finite 0) (Finite 2) (backgroundSaturation s) = true.
Proof.
  unfold in_bounds. rewrite !andb_true_iff. tauto.
Qed.

Lemma within_not_nan lo hi n : within lo hi n = true -> n <> NaN.
Proof. intros H ->. unfold within in H. destruct lo, hi; simpl in H; discriminate. Qed.

(** The interval setter clamps with the operations the other way round:
    [Math.max(5, Math.min(86400, v))]. *)
Lemma interval_clamp (v : number) :
  Number_isFinite v = true ->
  within (Finite 5) (Finite 86400) (Math_max (Finite 5) (Math_min (Finite 86400) v)) = true.
Proof.
  intros Hv. destruct v as [| |q|]; try discriminate.
  apply andb_true_iff. cbn [Math_min Math_max num_leb].
  destruct (Qle_bool q 86400) eqn:E1; cbn [Math_min Math_max num_leb].
  - destruct (Qle_bool 5 q) eqn:E2; cbn [num_leb]; [by rewrite E1, E2 | done].
  - done.
Qed.

Lemma interval_clamp_to (v : number) :
  Number_isFinite v = true ->
  Math_max (Finite 5) (Math_min (Finite 86400) v) = clamp_to (Finite 5) (Finite 86400) v.
Proof.
  intros Hv. destruct v as [| |q|]; try discriminate. unfold clamp_to.
  cbn [Math_min Math_max num_leb].
  destruct (Qle_bool q 86400) eqn:E1; destruct (Qle_bool 5 q) eqn:E2;
    cbn [Math_min Math_max num_leb]; rewrite ?E1, ?E2; try reflexivity.
  exfalso. q_prop. lra.
Qed.

Lemma setBackgroundOpacity_field v s :
  backgroundOpacity (setBackgroundOpacity v s) =
  clamp_to (Finite 0) (Finite 1) (if Number_isFinite v then v else backgroundOpacity s).
Proof. reflexivity. Qed.

Lemma setBackgroundBlur_field v s :
  backgroundBlur (setBackgroundBlur v s) =
  clamp_to (Finite 0) (Finite 20) (if Number_isFinite v then v else backgroundBlur s).
Proof. reflexivity. Qed.

Lemma setBackgroundBrightness_field v s :
  backgroundBrightness (setBackgroundBrightness v s) =
  clamp_to (Finite 0) (Finite 2) (if Number_isFinite v then v else backgroundBrightness s).
Proof. reflexivity. Qed.

Lemma setBackgroundSaturation_field v s :
  backgroundSaturation (setBackgroundSaturation v s) =
  clamp_to (Finite 0) (Finite 2) (if Number_isFinite v then v else backgroundSaturation s).
Proof. reflexivity. Qed.

Lemma setBackgroundRandomInterval_field v s :
  backgroundRandomInterval (setBackgroundRandomInterval v s) =
  if Number_isFinite v then Math_max (Finite 5) (Math_min (Finite 86400) v)
  else Finite 300.
Proof. reflexivity. Qed.

Lemma setBackgroundOpacity_frame v s :
  backgroundRandomInterval (setBackgroundOpacity v s) = backgroundRandomInterval s /\
  backgroundBlur (setBackgroundOpacity v s) = backgroundBlur s /\
  backgroundBrightness (setBackgroundOpacity v s) = backgroundBrightness s /\
  backgroundSaturation (setBackgroundOpacity v s) = backgroundSaturation s.
Proof. done. Qed.

Lemma setBackgroundBlur_frame v s :
  backgroundRandomInterval (setBackgroundBlur v s) = backgroundRandomInterval s /\
  backgroundOpacity (setBackgroundBlur v s) = backgroundOpacity s /\
  backgroundBrightness (setBackgroundBlur v s) = backgroundBrightness s /\
  backgroundSaturation (setBackgroundBlur v s) = backgroundSaturation s.
Proof. done. Qed.

Lemma setBackgroundBrightness_frame v s :
  backgroundRandomInterval (setBackgroundBrightness v s) = backgroundRandomInterval s /\
  backgroundOpacity (setBackgroundBrightness v s) = backgroundOpacity s /\
  backgroundBlur (setBackgroundBrightness v s) = backgroundBlur s /\
  backgroundSaturation (setBackgroundBrightness v s) = backgroundSaturation s.
Proof. done. Qed.

Lemma setBackgroundSaturation_frame v s :
  backgroundRandomInterval (setBackgroundSaturation v s) = backgroundRandomInterval s /\
  backgroundOpacity (setBackgroundSaturation v s) = backgroundOpacity s /\
  backgroundBlur (setBackgroundSaturation v s) = backgroundBlur s /\
  backgroundBrightness (setBackgroundSaturation v s) = backgroundBrightness s.
Proof. done. Qed.

Lemma setBackgroundRandomInterval_frame v s :
  backgroundOpacity (setBackgroundRandomInterval v s) = backgroundOpacity s /\
  backgroundBlur (setBackgroundRandomInterval v s) = backgroundBlur s /\
  backgroundBrightness (setBackgroundRandomInterval v s) = backgroundBrightness s /\
  backgroundSaturation (setBackgroundRandomInterval v s) = backgroundSaturation s.
Proof. done. Qed.

(** C10: from a store whose background fields are within their bounds, each
    bounded setter keeps the store within bounds; on a finite input the field
    becomes the input clamped into [0,1], [0,20], [0,2], [0,2] (opacity, blur,
    brightness, saturation) or [5,86400] (random interval); on a non-finite
    input the first four leave their field at its previous value, and the
    interval setter stores 300. *)
Theorem background_setters_bounds (v : number) (s : Store) :
  in_bounds s = true ->
  (in_bounds (setBackgroundOpacity v s) = true /\
   in_bounds (setBackgroundBlur v s) = true /\
   in_bounds (setBackgroundBrightness v s) = true /\
   in_bounds (setBackgroundSaturation v s) = true /\
   in_bounds (setBackgroundRandomInterval v s) = true) /\
  (Number_isFinite v = true ->
   backgroundOpacity (setBackgroundOpacity v s) = clamp_to (Finite 0) (Finite 1) v /\
   backgroundBlur (setBackgroundBlur v s) = clamp_to (Finite 0) (Finite 20) v /\
   backgroundBrightness (setBackgroundBrightness v s) = clamp_to (Finite 0) (Finite 2) v /\
   backgroundSaturation (setBackgroundSaturation v s) = clamp_to (Finite 0) (Finite 2) v /\
   backgroundRandomInterval (setBackgroundRandomInterval v s)
     = clamp_to (Finite 5) (Finite 86400) v /\
   within (Finite 5) (Finite 86400)
     (backgroundRandomInterval (setBackgroundRandomInterval v s)) = true) /\
  (Number_isFinite v = false ->
   backgroundOpacity (setBackgroundOpacity v s) = backgroundOpacity s /\
   backgroundBlur (setBackgroundBlur v s) = backgroundBlur s /\
   backgroundBrightness (setBackgroundBrightness v s) = backgroundBrightness s /\
   backgroundSaturation (setBackgroundSaturation v s) = backgroundSaturation s /\
   backgroundRandomInterval (setBackgroundRandomInterval v s) = Finite 300).
Proof.
  intros Hs. destruct (in_bounds_fields s Hs) as (Hi & Ho & Hb & Hr & Ha).
  pose proof (within_inside _ _ _ Ho) as Ho'.
  pose proof (within_inside _ _ _ Hb) as Hb'.
  pose proof (within_inside _ _ _ Hr) as Hr'.
  pose proof (within_inside _ _ _ Ha) as Ha'.
  unfold in_bounds.
  rewrite !setBackgroundOpacity_field,
    !setBackgroundBlur_field, !setBackgroundBrightness_field,
    !setBackgroundSaturation_field, !setBackgroundRandomInterval_field.
  destruct (setBackgroundOpacity_frame v s) as (-> & -> & -> & ->).
  destruct (setBackgroundBlur_frame v s) as (-> & -> & -> & ->).
  destruct (setBackgroundBrightness_frame v s) as (-> & -> & -> & ->).
  destruct (setBackgroundSaturation_frame v s) as (-> & -> & -> & ->).
  destruct (setBackgroundRandomInterval_frame v s) as (-> & -> & -> & ->).
  rewrite Hi, Ho, Hb, Hr, Ha.
  destruct (Number_isFinite v) eqn:Hv.
  - rewrite !clamp_to_finite, interval_clamp by done.
    repeat split; try done. by apply interval_clamp_to.
  - rewrite Ho', Hb', Hr', Ha', Ho, Hb, Hr, Ha.
    repeat split; done.
Qed.

Lemma background_setters_bounds_witness :
  backgroundOpacity (setBackgroundOpacity (Finite 5) initialStore) = Finite 1 /\
  backgroundBlur (setBackgroundBlur NaN initialStore) = Finite 0 /\
  backgroundRandomInterval (setBackgroundRandomInterval (Finite 2) initialStore) = Finite 5 /\
  backgroundRandomInterval (setBackgroundRandomInterval (Finite 600) initialStore)
    = Finite 600 /\
  backgroundRandomInterval (setBackgroundRandomInterval PosInf initialStore) = Finite 300.
Proof.
  destruct (background_setters_bounds (Finite 5) initialStore eq_refl) as (_ & Hfin & _).
  destruct (background_setters_bounds (Finite 2) initialStore eq_refl) as (_ & Hlow & _).
  destruct (background_setters_bounds (Finite 600) initialStore eq_refl) as (_ & Hmid & _).
  destruct (background_setters_bounds NaN initialStore eq_refl) as (_ & _ & Hnan).
  destruct (background_setters_bounds PosInf initialStore eq_refl) as (_ & _ & Hinf).
  destruct (Hfin eq_refl) as (Ho & _).
  destruct (Hlow eq_refl) as (_ & _ & _ & _ & Hi2 & _).
  destruct (Hmid eq_refl) as (_ & _ & _ & _ & Hi600 & _).
  destruct (Hnan eq_refl) as (_ & Hb & _).
  destruct (Hinf eq_refl) as (_ & _ & _ & _ & Hi).
  split; [rewrite Ho; reflexivity|]. split; [exact Hb|].
  split; [rewrite Hi2; reflexivity|]. split; [rewrite Hi600; reflexivity|exact Hi].
Defined.

(** ** Agent settings: at most one default *)

Lemma default_count_cons k c l :
  default_count ((k, c) :: l) =
  ((if is_true (isDefault c) then 1 else 0) + default_count l)%nat.
Proof. unfold default_count. simpl. by destruct (is_true (isDefault c)). Qed.

Lemma default_count_set_same k c l :
  is_true (isDefault c) = is_true (isDefault (spread_config (settings_get k l))) ->
  default_count (settings_set k c l) = default_count l.
Proof.
  induction l as [|[k' c'] l IH]; simpl.
  - intros Hc. rewrite default_count_cons, Hc. done.
  - destruct (String.eqb k' k); intros Hc.
    + rewrite !default_count_cons, Hc. done.
    + rewrite !default_count_cons, IH; done.
Qed.

Lemma default_count_set_le k c l :
  (default_count (settings_set k c l) <= S (default_count l))%nat.
Proof.
  induction l as [|[k' c'] l IH]; simpl.
  - rewrite default_count_cons. destruct (is_true (isDefault c)); unfold default_count; simpl; lia.
  - destruct (String.eqb k' k); rewrite !default_count_cons.
    + destruct (is_true (isDefault c)), (is_true (isDefault c')); lia.
    + lia.
Qed.

Lemma default_count_set_false k c l :
  is_true (isDefault c) = false ->
  (default_count (settings_set k c l) <= default_count l)%nat.
Proof.
  intros Hc. induction l as [|[k' c'] l IH]; simpl.
  - rewrite default_count_cons, Hc. done.
  - destruct (String.eqb k' k); rewrite !default_count_cons.
    + rewrite Hc. lia.
    + lia.
Qed.

Lemma default_count_delete_le k l :
  (default_count (settings_delete k l) <= default_count l)%nat.
Proof.
  induction l as [|[k' c'] l IH]; simpl; [done|].
  destruct (String.eqb k' k); rewrite ?default_count_cons; lia.
Qed.

Lemma default_count_delete_default k c l :
  settings_get k l = Some c -> is_true (isDefault c) = true ->
  (S (default_count (settings_delete k l)) <= default_count l)%nat.
Proof.
  induction l as [|[k' c'] l IH]; simpl; [done|].
  destruct (String.eqb k' k).
  - intros [= ->] Hc. rewrite default_count_cons, Hc.
    pose proof (default_count_delete_le k l). lia.
  - intros Hget Hc. rewrite !default_count_cons. specialize (IH Hget Hc). lia.
Qed.

Lemma eqb_string_eq (a b : string) : String.eqb a b = true <-> a = b.
Proof. apply String.eqb_eq. Qed.

Lemma settings_set_keys k c l :
  NoDup l.*1 -> NoDup (settings_set k c l).*1.
Proof.
  induction l as [|[k' c'] l IH]; simpl.
  - intros _. apply NoDup_singleton.
  - intros [Hnotin Hnd]%NoDup_cons. destruct (String.eqb k' k) eqn:E; simpl.
    + apply eqb_string_eq in E as ->. by apply NoDup_cons.
    + apply NoDup_cons. split; [|by apply IH].
      intros Hin. apply Hnotin. clear IH Hnd Hnotin.
      induction l as [|[k2 c2] l IH]; simpl in *.
      * apply list_elem_of_singleton in Hin as ->.
        by rewrite String.eqb_refl in E.
      * destruct (String.eqb k2 k) eqn:E2; simpl in *.
        -- apply elem_of_cons in Hin as [->|Hin]; [by rewrite String.eqb_refl in E|].
           by right.
        -- apply elem_of_cons in Hin as [->|Hin]; [by left|]. right. by apply IH.
Qed.

Lemma settings_delete_subset k l x :
  x ∈ (settings_delete k l).*1 -> x ∈ l.*1.
Proof.
  induction l as [|[k' c'] l IH]; simpl; [done|].
  destruct (String.eqb k' k); simpl.
  - intros H. right. by apply IH.
  - intros [->|H]%elem_of_cons; [by left|]. right. by apply IH.
Qed.

Lemma settings_delete_keys k l :
  NoDup l.*1 -> NoDup (settings_delete k l).*1.
Proof.
  induction l as [|[k' c'] l IH]; simpl; [done|].
  intros [Hnotin Hnd]%NoDup_cons. destruct (String.eqb k' k); simpl; [by apply IH|].
  apply NoDup_cons. split; [|by apply IH].
  intros Hin. apply Hnotin. by eapply settings_delete_subset.
Qed.

(** What the loop of setAgentDefault leaves: the keys are untouched and an
    entry is the default exactly when its key is [agentId]. *)
Lemma setAgentDefault_settings agentId s :
  agentSettings (setAgentDefault agentId s) =
  (fun '(id, c) =>
     (id, {| enabled := enabled c; isDefault := Some (String.eqb id agentId);
             customPath := customPath c; customArgs := customArgs c |}))
  <$> agentSettings s.
Proof. reflexivity. Qed.

Lemma setAgentDefault_keys agentId s :
  (agentSettings (setAgentDefault agentId s)).*1 = (agentSettings s).*1.
Proof.
  rewrite setAgentDefault_settings.
  induction (agentSettings s) as [|[k c] l IH]; [done|].
  rewrite !fmap_cons. cbn [fst]. by rewrite IH.
Qed.

Lemma setAgentDefault_count agentId s :
  NoDup (agentSettings s).*1 ->
  (default_count (agentSettings (setAgentDefault agentId s)) <= 1)%nat.
Proof.
  rewrite setAgentDefault_settings.
  induction (agentSettings s) as [|[k c] l IH]; [unfold default_count; simpl; lia|].
  rewrite !fmap_cons. cbn [fst].
  intros [Hnotin Hnd]%NoDup_cons. rewrite default_count_cons. cbn [isDefault is_true default].
  destruct (String.eqb k agentId) eqn:E; [|by apply IH].
  apply eqb_string_eq in E as ->.
  clear IH Hnd. induction l as [|[k2 c2] l IH]; [unfold default_count; simpl; lia|].
  rewrite !fmap_cons, default_count_cons. cbn [isDefault is_true default].
  destruct (String.eqb k2 agentId) eqn:E2.
  - apply eqb_string_eq in E2 as ->. exfalso. apply Hnotin. rewrite fmap_cons. by left.
  - apply IH. intros Hin. apply Hnotin. rewrite fmap_cons. by right.
Qed.

Lemma removeCustomAgent_settings id s :
  agentSettings (removeCustomAgent id s) =
  let remaining := settings_delete id (agentSettings s) in
  if is_true (c ← settings_get id (agentSettings s); isDefault c) then
    match List.find (fun '(_, cfg) => is_true (enabled cfg)) remaining with
    | Some (firstId, cfg) =>
        settings_set firstId
          {| enabled := enabled cfg; isDefault := Some true;
             customPath := customPath cfg; customArgs := customArgs cfg |}
          remaining
    | None => remaining
    end
  else remaining.
Proof. reflexivity. Qed.

Lemma apply_mutation_ok s m : agents_ok s -> agents_ok (apply_mutation s m).
Proof.
  intros [Hnd Hcnt]. destruct m as [a|a e|a cfg|agent|id upd|id]; simpl.
  - split.
    + by rewrite setAgentDefault_keys.
    + by apply setAgentDefault_count.
  - unfold setAgentEnabled, agents_ok. simpl. split; [by apply settings_set_keys|].
    rewrite default_count_set_same; done.
  - unfold setAgentCustomConfig, agents_ok. simpl. split; [by apply settings_set_keys|].
    rewrite default_count_set_same; done.
  - unfold addCustomAgent, agents_ok. simpl. split; [by apply settings_set_keys|].
    etrans; [by apply default_count_set_false|done].
  - done.
  - unfold agents_ok. rewrite removeCustomAgent_settings. cbn zeta.
    pose proof (settings_delete_keys id _ Hnd) as Hnd'.
    pose proof (default_count_delete_le id (agentSettings s)) as Hle.
    destruct (settings_get id (agentSettings s)) as [c|] eqn:Hget; simpl;
      [|split; [done|lia]].
    destruct (is_true (isDefault c)) eqn:Hc; [|split; [done|lia]].
    pose proof (default_count_delete_default id c _ Hget Hc) as Hlt.
    destruct (List.find _ _) as [[firstId cfg]|]; [|split; [done|lia]].
    split; [by apply settings_set_keys|].
    etrans; [apply default_count_set_le|lia].
Qed.

Lemma run_mutations_ok ms s : agents_ok s -> agents_ok (run_mutations ms s).
Proof.
  unfold run_mutations. revert s. induction ms as [|m ms IH]; simpl; [done|].
  intros s Hs. apply IH. by apply apply_mutation_ok.
Qed.

Lemma initialStore_ok : agents_ok initialStore.
Proof.
  split; [|unfold default_count; simpl; lia].
  compute_done.
Qed.

Lemma enabled_default_le l :
  (length (enabled_default_agents l) <= length (default_agents l))%nat.
Proof.
  unfold enabled_default_agents, default_agents.
  induction l as [|[k c] l IH]; simpl; [done|].
  destruct (is_true (isDefault c)), (is_true (enabled c)); simpl; lia.
Qed.

Lemma settings_set_elem k c l x :
  x ∈ settings_set k c l -> x = (k, c) \/ x ∈ l.
Proof.
  induction l as [|[k' c'] l IH]; simpl.
  - intros ->%list_elem_of_singleton. by left.
  - destruct (String.eqb k' k).
    + intros [->|H]%elem_of_cons; [by left|]. right. by right.
    + intros [->|H]%elem_of_cons; [right; by left|].
      destruct (IH H) as [->|H']; [by left|]. right. by right.
Qed.

Lemma default_agents_elem l x :
  x ∈ default_agents l <-> x ∈ l /\ is_true (isDefault x.2) = true.
Proof.
  unfold default_agents. rewrite !list_elem_of_In, filter_In. by destruct x.
Qed.

Lemma default_count_zero l x :
  default_count l = 0%nat -> x ∈ l -> is_true (isDefault x.2) = false.
Proof.
  intros Hz Hin. destruct (is_true (isDefault x.2)) eqn:E; [|done].
  assert (x ∈ default_agents l) as Hd by by apply default_agents_elem.
  unfold default_count in Hz. apply length_zero_iff_nil in Hz. rewrite Hz in Hd.
  by apply not_elem_of_nil in Hd.
Qed.

(** C7: in every store reached from the default agent settings by a sequence
    of setAgentDefault, setAgentEnabled, setAgentCustomConfig, addCustomAgent,
    updateCustomAgent and removeCustomAgent, at most one agent record has
    isDefault = true, hence at most one among the enabled agents; in
    particular setAgentDefault leaves at most one default record, and
    removing the default agent leaves at most one default record, which is
    an enabled agent. *)
Theorem agent_default_invariant (ms : list mutation) :
  let s := run_mutations ms initialStore in
  (length (default_agents (agentSettings s)) <= 1)%nat /\
  (length (enabled_default_agents (agentSettings s)) <= 1)%nat /\
  (forall agentId,
     (length (default_agents (agentSettings (setAgentDefault agentId s))) <= 1)%nat) /\
  (forall id c,
     settings_get id (agentSettings s) = Some c -> isDefault c = Some true ->
     let s' := removeCustomAgent id s in
     (length (default_agents (agentSettings s')) <= 1)%nat /\
     forall x, x ∈ default_agents (agentSettings s') -> enabled x.2 = Some true).
Proof.
  intros s. pose proof (run_mutations_ok ms initialStore initialStore_ok) as Hok.
  fold s in Hok. destruct Hok as [Hnd Hcnt]. split; [|split; [|split]].
  - exact Hcnt.
  - etrans; [apply enabled_default_le|exact Hcnt].
  - intros agentId. by apply setAgentDefault_count.
  - intros id c Hget Hdef s'. split.
    { apply (apply_mutation_ok s (RemoveCustomAgent id)). by split. }
    intros x Hx. subst s'. rewrite removeCustomAgent_settings in Hx. cbn zeta in Hx.
    rewrite Hget in Hx. simpl in Hx. rewrite Hdef in Hx. simpl in Hx.
    assert (default_count (settings_delete id (agentSettings s)) = 0%nat) as Hzero.
    { pose proof (default_count_delete_default id c _ Hget) as Hlt.
      rewrite Hdef in Hlt. specialize (Hlt eq_refl). unfold default_count in *. lia. }
    apply default_agents_elem in Hx as [Hin Hx].
    destruct (List.find _ _) as [[firstId cfg]|] eqn:Hfind.
    + apply settings_set_elem in Hin as [->|Hin].
      * apply find_some in Hfind as [_ Hen]. simpl.
        destruct (enabled cfg) as [[]|]; done.
      * by rewrite (default_count_zero _ _ Hzero Hin) in Hx.
    + by rewrite (default_count_zero _ _ Hzero Hin) in Hx.
Qed.

Lemma agent_default_invariant_witness :
  (length (default_agents
             (agentSettings
                (removeCustomAgent "my-agent"
                   (run_mutations sample_mutations initialStore)))) <= 1)%nat.
Proof.
  destruct (agent_default_invariant sample_mutations) as (_ & _ & _ & H).
  destruct (H "my-agent"
              {| enabled := Some true; isDefault := Some true;
                 customPath := None; customArgs := None |} eq_refl eq_refl) as [Hle _].
  exact Hle.
Defined.

(** ** The storage adapter *)

Lemma object_literal_spread_field (B : gmap string value) (name : string) (v : value) :
  object_literal [ Spread (VObj B); Field name v ] = <[name := v]> B.
Proof.
  unfold object_literal. simpl. by rewrite (right_id_L ∅ (∪)).
Qed.

(** C8: when the channel holds an object [B], setItem(name, text) with a
    text that parses to [v] writes [B] with [name] set to [v] and every other
    key as it was, and removeItem(name) writes [B] without [name] and every
    other key as it was. *)
Theorem storage_write_frame (JSON_parse : string -> option value)
    (name text : string) (B : gmap string value) (v : value) :
  JSON_parse text = Some v ->
  (setItem JSON_parse name text (VObj B) = Some (VObj (<[name := v]> B)) /\
   (<[name := v]> B) !! name = Some v /\
   forall k, k <> name -> (<[name := v]> B) !! k = B !! k) /\
  (removeItem name (VObj B) = VObj (delete name B) /\
   delete name B !! name = None /\
   forall k, k <> name -> delete name B !! k = B !! k).
Proof.
  intros Hparse. split; split.
  - unfold setItem. cbn -[object_literal]. rewrite Hparse. cbn -[object_literal].
    by rewrite object_literal_spread_field.
  - split; [apply lookup_insert_eq|]. intros k Hk. by apply lookup_insert_ne.
  - unfold removeItem. simpl. unfold object_literal. simpl.
    by rewrite (right_id_L ∅ (∪)).
  - split; [apply lookup_delete_eq|]. intros k Hk. by apply lookup_delete_ne.
Qed.

Lemma storage_write_frame_witness :
  setItem sample_JSON_parse "enso-settings" "{}"
    (obj [ ("other-store", VBool true) ])
  = Some (VObj (<["enso-settings" := obj []]> {[ "other-store" := VBool true ]})).
Proof.
  destruct (storage_write_frame sample_JSON_parse "enso-settings" "{}"
              {[ "other-store" := VBool true ]} (obj []) eq_refl) as [[H _] _].
  exact H.
Defined.

(** ** The one-time todo migration *)

(** C9: migrateLocalStorage reads the one key TODO_BOARDS and always
    resolves.  When the key is absent (or empty) nothing is forwarded and
    localStorage is unchanged; when forwarding resolves, the content was
    forwarded once and only that key is removed; when forwarding rejects,
    localStorage is unchanged and the failure is reported, not thrown. *)
Theorem migrateLocalStorage_spec (TODO_BOARDS : string)
    (migrate_resolves : string -> bool) (w : World) :
  let result := migrateLocalStorage TODO_BOARDS migrate_resolves w in
  let w' := result.1 in
  result.2 = Resolved /\
  match localStorage w !! TODO_BOARDS with
  | None =>
      trace w' = trace w ++ [GetItem TODO_BOARDS] /\ localStorage w' = localStorage w
  | Some saved =>
      if String.eqb saved "" then
        trace w' = trace w ++ [GetItem TODO_BOARDS] /\ localStorage w' = localStorage w
      else if migrate_resolves saved then
        trace w' = trace w ++ [GetItem TODO_BOARDS; TodoMigrate saved;
                               RemoveItem TODO_BOARDS; ConsoleLog] /\
        localStorage w' = delete TODO_BOARDS (localStorage w) /\
        (forall k, k <> TODO_BOARDS -> localStorage w' !! k = localStorage w !! k)
      else
        trace w' = trace w ++ [GetItem TODO_BOARDS; TodoMigrate saved; ConsoleError] /\
        localStorage w' = localStorage w
  end.
Proof.
  unfold migrateLocalStorage, migrateLocalStorage_try. simpl.
  destruct (localStorage w !! TODO_BOARDS) as [saved|]; simpl; [|done].
  destruct (String.eqb saved ""); simpl; [done|].
  destruct (migrate_resolves saved); simpl.
  - rewrite <- !app_assoc. simpl. repeat split; try done.
    intros k Hk. by apply lookup_delete_ne.
  - rewrite <- !app_assoc. done.
Qed.


(** ** Object literals *)

Lemma add_member_union (acc : gmap string value) (m : member) :
  add_member acc m = add_member ∅ m ∪ acc.
Proof.
  destruct m as [v|k v]; simpl.
  - by rewrite (right_id_L ∅ (∪)).
  - by rewrite <- insert_union_l, (left_id_L ∅ (∪)).
Qed.

Lemma foldl_add_member (acc : gmap string value) (ms : list member) :
  foldl add_member acc ms = object_literal ms ∪ acc.
Proof.
  unfold object_literal. revert acc.
  induction ms as [|m ms IH]; intros acc; simpl.
  - by rewrite (left_id_L ∅ (∪)).
  - rewrite (IH (add_member acc m)), (IH (add_member ∅ m)).
    rewrite (add_member_union acc m). by rewrite (assoc_L (∪)).
Qed.

Lemma object_literal_app (a b : list member) :
  object_literal (a ++ b) = object_literal b ∪ object_literal a.
Proof. unfold object_literal at 1. rewrite foldl_app. apply foldl_add_member. Qed.

Lemma lookup_foldl_members (k : string) (acc : gmap string value) (ms : list member) :
  foldl add_member acc ms !! k = lookup_members k (acc !! k) ms.
Proof.
  revert acc. induction ms as [|[v|k' v] ms IH]; intros acc; simpl; [done| |].
  - rewrite IH, lookup_union. by destruct (own_enumerable v !! k), (acc !! k).
  - rewrite IH. destruct (String.eqb k' k) eqn:E.
    + apply String.eqb_eq in E as ->. by rewrite lookup_insert_eq.
    + apply String.eqb_neq in E. by rewrite lookup_insert_ne.
Qed.

Lemma lookup_object_literal (k : string) (ms : list member) :
  object_literal ms !! k = lookup_members k None ms.
Proof. unfold object_literal. by rewrite lookup_foldl_members, lookup_empty. Qed.

Lemma prop_object (m : gmap string value) (k : string) :
  prop (VObj m) k = default VUndef (m !! k).
Proof. reflexivity. Qed.

(** Away from [length], a property read sees the own enumerable properties. *)
Lemma prop_own (v : value) (k : string) :
  String.eqb k "length" = false ->
  prop v k = default VUndef (own_enumerable v !! k).
Proof. intros Hk. destruct v; simpl; rewrite ?Hk; by rewrite ?lookup_empty. Qed.

Lemma union_absorb (m b : gmap string value) :
  (forall k, is_Some (b !! k) -> is_Some (m !! k)) -> m ∪ b = m.
Proof.
  intros H. apply map_eq. intros k. rewrite lookup_union.
  destruct (m !! k) eqn:Em, (b !! k) eqn:Eb; try done.
  destruct (H k) as [x Hx]; [by eexists|]. congruence.
Qed.

Lemma union_absorb_l (a b : gmap string value) : (a ∪ b) ∪ b = a ∪ b.
Proof. by rewrite <- (assoc_L (∪)), (idemp_L (∪)). Qed.

Lemma object_literal_two_spreads (a b : value) :
  object_literal [ Spread a; Spread b ] = own_enumerable b ∪ own_enumerable a.
Proof.
  unfold object_literal. simpl. by rewrite (right_id_L ∅ (∪)).
Qed.

(** Merging a record that was already merged against the same defaults. *)
Lemma merge_again (a b : value) :
  object_literal [ Spread a; Spread (VObj (object_literal [ Spread a; Spread b ])) ]
  = object_literal [ Spread a; Spread b ].
Proof.
  rewrite (object_literal_two_spreads a (VObj _)). cbn [own_enumerable].
  rewrite object_literal_two_spreads. apply union_absorb_l.
Qed.

(** ** Totality of the migration on usable defaults *)

Lemma usable_defaults_fields (D : value) :
  usable_defaults D = true ->
  nullish D = false /\ nullish (prop D "claudeCodeIntegration") = false /\
  nullish (prop D "agentSettings") = false.
Proof.
  unfold usable_defaults. rewrite !andb_true_iff, !negb_true_iff. tauto.
Qed.

Lemma opt_prop_prop (v : value) (k : string) : opt_prop v k = prop v k.
Proof. by destruct v. Qed.

Lemma agent_enabled_total (P D : value) (id : string) :
  nullish (prop D "agentSettings") = false ->
  agent_enabled P D id = Some (enabled_entry P D id).
Proof.
  intros HD. unfold agent_enabled, agentConfig_of, enabled_entry, get_prop.
  rewrite HD, !opt_prop_prop.
  destruct (nullish (prop (prop P "agentSettings") id)); simpl;
    by rewrite opt_prop_prop.
Qed.

Lemma filter_keys_total (f : string -> option bool) (g : string -> bool)
    (m : gmap string value) :
  (forall k, f k = Some (g k)) ->
  filter_keys f m = Some (filter (fun kv => g kv.1 = true) m).
Proof.
  intros Hf. unfold filter_keys. rewrite decide_True.
  - f_equal. apply map_filter_ext. intros k x _. cbn [fst]. rewrite Hf.
    split; congruence.
  - intros k x _. rewrite Hf. by eexists.
Qed.

Lemma detection_union_entries (P D : value) :
  detection_union P D = detection_entries P D.
Proof.
  unfold detection_union, detection_entries.
  by rewrite object_literal_two_spreads, !opt_prop_prop.
Qed.

(** The merged integration record before the two repairs. *)
Lemma migrateClaudeCodeIntegration_total (P D : value) :
  nullish (prop D "claudeCodeIntegration") = false ->
  exists merged, migrateClaudeCodeIntegration P D = Some merged.
Proof.
  intros HD. unfold migrateClaudeCodeIntegration, get_prop. rewrite HD.
  by eexists.
Qed.

Lemma migrateSettings_eq toNum P D :
  migrateSettings toNum P D =
  if negb (truthy P) then Some D
  else if nullish D then None
  else
    integration ← migrateClaudeCodeIntegration P D;
    detection ← filter_keys (agent_enabled P D) (detection_union P D);
    Some (VObj (object_literal
                  (spread_members P D ++ explicit_members toNum P D integration detection))).
Proof. reflexivity. Qed.

Lemma migrateSettings_truthy toNum P D :
  truthy P = true -> usable_defaults D = true ->
  exists integration,
    migrateClaudeCodeIntegration P D = Some integration /\
    migrateSettings toNum P D =
    Some (VObj (object_literal
      (spread_members P D ++
       explicit_members toNum P D integration
         (filter (fun kv => enabled_entry P D kv.1 = true) (detection_entries P D))))).
Proof.
  intros HP (HD & Hcci & Has)%usable_defaults_fields.
  destruct (migrateClaudeCodeIntegration_total P D Hcci) as [merged Hm].
  exists merged. split; [done|].
  rewrite migrateSettings_eq, HP, HD, Hm. cbn [negb mbind option_bind].
  rewrite (filter_keys_total _ (enabled_entry P D)) by (intros; by apply agent_enabled_total).
  by rewrite detection_union_entries.
Qed.

Lemma migrateSettings_falsy toNum P D :
  truthy P = false -> migrateSettings toNum P D = Some D.
Proof. intros HP. by rewrite migrateSettings_eq, HP. Qed.

(** ** Reading the migrated object *)

Ltac read_members :=
  rewrite ?prop_object, ?lookup_object_literal;
  unfold spread_members, explicit_members, merge_domain;
  cbn [app lookup_members String.eqb Ascii.eqb Bool.eqb].

Lemma own_falsy (v : value) : truthy v = false -> own_enumerable v = ∅.
Proof.
  destruct v as [| | | | s | | |]; try done. simpl. destruct s; [done|discriminate].
Qed.

Lemma renderer_spread (P : value) :
  own_enumerable
    (js_and (migrated_renderer P)
       (VObj (object_literal [ Field "terminalRenderer" (migrated_renderer P) ])))
  = if truthy (migrated_renderer P)
    then {[ "terminalRenderer" := migrated_renderer P ]} else ∅.
Proof.
  unfold js_and. destruct (truthy (migrated_renderer P)) eqn:E.
  - unfold object_literal. simpl. by rewrite insert_empty.
  - by apply own_falsy.
Qed.

Lemma prop_own_Some (v : value) (k : string) (x : value) :
  String.eqb k "length" = false ->
  own_enumerable v !! k = Some x -> prop v k = x.
Proof. intros Hk Hx. by rewrite prop_own, Hx. Qed.

Lemma prop_own_None (v : value) (k : string) :
  String.eqb k "length" = false ->
  own_enumerable v !! k = None -> prop v k = VUndef.
Proof. intros Hk Hx. by rewrite prop_own, Hx. Qed.

Lemma prop_defined_own (v : value) (k : string) :
  String.eqb k "length" = false ->
  prop v k <> VUndef -> own_enumerable v !! k = Some (prop v k).
Proof.
  intros Hk. rewrite (prop_own v k Hk). by destruct (own_enumerable v !! k).
Qed.

Lemma prop_defined_truthy (v : value) (k : string) :
  String.eqb k "length" = false -> prop v k <> VUndef -> truthy v = true.
Proof.
  intros Hk. destruct v as [| | | | s | | |]; simpl; try done.
  rewrite Hk. by destruct s.
Qed.

Lemma prop_falsy (v : value) (k : string) :
  truthy v = false -> String.eqb k "length" = false -> prop v k = VUndef.
Proof.
  intros Hv Hk. rewrite prop_own by done. by rewrite own_falsy.
Qed.

(** The renderer of the migrated object. *)
Lemma migrated_terminalRenderer toNum P D c a :
  prop (VObj (object_literal (spread_members P D ++ explicit_members toNum P D c a)))
    "terminalRenderer"
  = if truthy (migrated_renderer P) then migrated_renderer P
    else default (prop D "terminalRenderer") (own_enumerable P !! "terminalRenderer").
Proof.
  read_members. rewrite renderer_spread.
  destruct (truthy (migrated_renderer P)).
  - by rewrite lookup_singleton_eq.
  - rewrite lookup_empty. rewrite (prop_own D) by done.
    by destruct (own_enumerable P !! "terminalRenderer"),
      (own_enumerable D !! "terminalRenderer").
Qed.

(** C6, as stated, fails for the first of the two names: no property
    backgroundRenderer is migrated, a persisted "canvas" under that name is
    copied as it is. *)
Lemma backgroundRenderer_counterexample :
  exists R,
    migrateSettings decimal_Number
      (obj [ ("backgroundRenderer", VStr "canvas"); ("terminalRenderer", VStr "canvas") ])
      sample_defaults = Some R /\
    prop R "backgroundRenderer" = VStr "canvas" /\
    prop R "backgroundRenderer" <> VStr "webgl".
Proof.
  assert ((R ← migrateSettings decimal_Number
             (obj [ ("backgroundRenderer", VStr "canvas");
                    ("terminalRenderer", VStr "canvas") ]) sample_defaults;
           Some (prop R "backgroundRenderer")) = Some (VStr "canvas")) as H
    by (vm_compute; reflexivity).
  destruct (migrateSettings _ _ _) as [R|]; [|discriminate].
  exists R. split; [reflexivity|]. injection H as ->. split; [reflexivity|discriminate].
Qed.

(** C6 (amended): for every persisted input whose terminalRenderer is
    "canvas", migration returns a snapshot whose terminalRenderer is "webgl";
    any other persisted terminalRenderer is kept, and without a persisted one
    the current state's is used.  (There is no field backgroundRenderer.) *)
Theorem terminalRenderer_migration (Number_of_string : string -> number) (P D : value) :
  usable_defaults D = true ->
  exists R,
    migrateSettings Number_of_string P D = Some R /\
    (is_string (prop P "terminalRenderer") "canvas" = true ->
     prop R "terminalRenderer" = VStr "webgl") /\
    (forall v, own_enumerable P !! "terminalRenderer" = Some v ->
       is_string v "canvas" = false -> prop R "terminalRenderer" = v) /\
    (own_enumerable P !! "terminalRenderer" = None ->
     prop R "terminalRenderer" = prop D "terminalRenderer").
Proof.
  intros HD. destruct (truthy P) eqn:HP; cycle 1.
  { exists D. split; [by apply migrateSettings_falsy|].
    rewrite (prop_falsy P), (own_falsy P) by done. split; [done|].
    split; [intros v Hv; by rewrite lookup_empty in Hv|done]. }
  destruct (migrateSettings_truthy Number_of_string P D HP HD) as (c & _ & ->).
  eexists. split; [done|]. rewrite migrated_terminalRenderer.
  unfold migrated_renderer. split; [|split].
  - by intros ->.
  - intros v Hv Hcanvas. rewrite (prop_own_Some P _ v) by done. rewrite Hcanvas, Hv.
    by destruct (truthy v).
  - intros Hnone. rewrite (prop_own_None P) by done. by rewrite Hnone.
Qed.

Lemma terminalRenderer_migration_witness :
  exists R,
    migrateSettings decimal_Number (obj [ ("terminalRenderer", VStr "canvas") ])
      sample_defaults = Some R /\
    prop R "terminalRenderer" = VStr "webgl".
Proof.
  destruct (terminalRenderer_migration decimal_Number
              (obj [ ("terminalRenderer", VStr "canvas") ]) sample_defaults
              eq_refl) as (R & HR & Hcanvas & _).
  exists R. split; [exact HR|]. apply Hcanvas. reflexivity.
Defined.

(** ** The Claude Code integration record *)

Lemma migrateClaudeCodeIntegration_repaired (P D : value) (merged : gmap string value) :
  migrateClaudeCodeIntegration P D = Some merged ->
  truthy (prop (VObj merged) "stopHookEnabled") = false ->
  is_string (prop (VObj merged) "enhancedInputAutoPopup") "hideWhileRunning" = false.
Proof.
  unfold migrateClaudeCodeIntegration.
  destruct (get_prop _ _) as [fields|]; [|done]. cbn [mbind option_bind].
  set (m0 := object_literal _).
  set (m1 := match opt_prop _ _ with VBool b => _ | _ => m0 end).
  destruct (is_string (prop (VObj m1) "enhancedInputAutoPopup") "hideWhileRunning"
            && negb (truthy (prop (VObj m1) "stopHookEnabled"))) eqn:Hcond.
  - intros [= <-] _. by rewrite prop_object, lookup_insert_eq.
  - intros [= <-] Hstop. rewrite Hstop in Hcond.
    by rewrite andb_true_r in Hcond.
Qed.

Lemma migrateClaudeCodeIntegration_demotes (P D : value) :
  nullish (prop D "claudeCodeIntegration") = false ->
  prop (prop P "claudeCodeIntegration") "enhancedInputAutoPopup" = VStr "hideWhileRunning" ->
  prop (prop P "claudeCodeIntegration") "stopHookEnabled" = VBool false ->
  exists merged,
    migrateClaudeCodeIntegration P D = Some merged /\
    prop (VObj merged) "enhancedInputAutoPopup" = VStr "always" /\
    prop (VObj merged) "stopHookEnabled" = VBool false.
Proof.
  intros HD Hpopup Hstop.
  assert (own_enumerable (prop P "claudeCodeIntegration") !! "enhancedInputAutoPopup"
          = Some (VStr "hideWhileRunning")) as Hp.
  { rewrite <- Hpopup. apply prop_defined_own; [done|]. by rewrite Hpopup. }
  assert (own_enumerable (prop P "claudeCodeIntegration") !! "stopHookEnabled"
          = Some (VBool false)) as Hs.
  { rewrite <- Hstop. apply prop_defined_own; [done|]. by rewrite Hstop. }
  unfold migrateClaudeCodeIntegration, get_prop. rewrite HD. cbn [mbind option_bind].
  rewrite opt_prop_prop, Hpopup.
  set (m0 := object_literal _).
  assert (m0 !! "enhancedInputAutoPopup" = Some (VStr "hideWhileRunning")) as H0.
  { subst m0. read_members. by rewrite Hp. }
  assert (m0 !! "stopHookEnabled" = Some (VBool false)) as H1.
  { subst m0. read_members. by rewrite Hs. }
  rewrite !prop_object, H0, H1. cbn [default from_option id is_string String.eqb
    Ascii.eqb Bool.eqb truthy negb andb].
  eexists. split; [done|]. split.
  - by rewrite prop_object, lookup_insert_eq.
  - by rewrite prop_object, lookup_insert_ne, H1.
Qed.

Lemma migrated_integration toNum P D c a :
  prop (VObj (object_literal (spread_members P D ++ explicit_members toNum P D c a)))
    "claudeCodeIntegration" = VObj c.
Proof. by read_members. Qed.

(** C4: a persisted claudeCodeIntegration with enhancedInputAutoPopup =
    "hideWhileRunning" and stopHookEnabled = false is migrated to
    enhancedInputAutoPopup = "always" with stopHookEnabled still false; and
    whenever the merged record has a false stopHookEnabled, its
    enhancedInputAutoPopup is not "hideWhileRunning". *)
Theorem cross_field_repair (Number_of_string : string -> number) (P D : value) :
  usable_defaults D = true ->
  (prop (prop P "claudeCodeIntegration") "enhancedInputAutoPopup"
     = VStr "hideWhileRunning" ->
   prop (prop P "claudeCodeIntegration") "stopHookEnabled" = VBool false ->
   exists R,
     migrateSettings Number_of_string P D = Some R /\
     prop (prop R "claudeCodeIntegration") "enhancedInputAutoPopup" = VStr "always" /\
     prop (prop R "claudeCodeIntegration") "stopHookEnabled" = VBool false) /\
  (truthy P = true ->
   exists R merged,
     migrateSettings Number_of_string P D = Some R /\
     migrateClaudeCodeIntegration P D = Some merged /\
     prop R "claudeCodeIntegration" = VObj merged /\
     (truthy (prop (VObj merged) "stopHookEnabled") = false ->
      prop (VObj merged) "enhancedInputAutoPopup" <> VStr "hideWhileRunning")).
Proof.
  intros HD. split.
  - intros Hpopup Hstop.
    assert (truthy P = true) as HP.
    { apply (prop_defined_truthy P "claudeCodeIntegration"); [done|].
      intros Hundef. by rewrite Hundef in Hpopup. }
    destruct (migrateSettings_truthy Number_of_string P D HP HD) as (c & Hc & ->).
    destruct (usable_defaults_fields D HD) as (_ & Hcci & _).
    destruct (migrateClaudeCodeIntegration_demotes P D Hcci Hpopup Hstop)
      as (merged & Hm & Hpopup' & Hstop').
    eexists. split; [done|]. rewrite migrated_integration.
    assert (c = merged) as -> by congruence. done.
  - intros HP.
    destruct (migrateSettings_truthy Number_of_string P D HP HD) as (c & Hc & ->).
    eexists. exists c. split; [done|]. split; [done|].
    split; [apply migrated_integration|].
    intros Hstop Hpopup.
    pose proof (migrateClaudeCodeIntegration_repaired P D c Hc Hstop) as Hno.
    by rewrite Hpopup in Hno.
Qed.

Lemma cross_field_repair_witness :
  exists R,
    migrateSettings decimal_Number
      (obj [ ("claudeCodeIntegration",
              obj [ ("enhancedInputAutoPopup", VStr "hideWhileRunning");
                    ("stopHookEnabled", VBool false) ]) ])
      sample_defaults = Some R /\
    prop (prop R "claudeCodeIntegration") "enhancedInputAutoPopup" = VStr "always" /\
    prop (prop R "claudeCodeIntegration") "stopHookEnabled" = VBool false.
Proof.
  destruct (cross_field_repair decimal_Number
              (obj [ ("claudeCodeIntegration",
                      obj [ ("enhancedInputAutoPopup", VStr "hideWhileRunning");
                            ("stopHookEnabled", VBool false) ]) ])
              sample_defaults eq_refl) as [H _].
  exact (H eq_refl eq_refl).
Defined.

(** ** Agent detection status *)

Lemma migrated_detection toNum P D c a :
  prop (VObj (object_literal (spread_members P D ++ explicit_members toNum P D c a)))
    "agentDetectionStatus" = VObj a.
Proof. by read_members. Qed.

Lemma enabled_entry_falsy (P D : value) (id : string) :
  truthy P = false -> enabled_entry P D id = enabled_entry VUndef D id.
Proof.
  intros HP. unfold enabled_entry. rewrite !opt_prop_prop.
  by rewrite (prop_falsy P) by done.
Qed.

Lemma detection_entries_falsy (P D : value) :
  truthy P = false ->
  detection_entries P D = own_enumerable (prop D "agentDetectionStatus").
Proof.
  intros HP. unfold detection_entries. rewrite !opt_prop_prop.
  rewrite (prop_falsy P) by done. simpl. by rewrite (left_id_L ∅ (∪)).
Qed.

(** C5: the agentDetectionStatus of the migrated snapshot holds exactly the
    entries of the union of the default and the persisted detection status
    whose agent is enabled, where the persisted agentSettings entry of the
    agent decides when there is one and the default entry otherwise. *)
Theorem detection_status_filtered (Number_of_string : string -> number) (P D : value) :
  usable_defaults D = true -> detection_settled D = true ->
  exists R detection,
    migrateSettings Number_of_string P D = Some R /\
    prop R "agentDetectionStatus" = VObj detection /\
    forall id info,
      detection !! id = Some info <->
      detection_entries P D !! id = Some info /\ enabled_entry P D id = true.
Proof.
  intros HD Hsettled. destruct (truthy P) eqn:HP.
  - destruct (migrateSettings_truthy Number_of_string P D HP HD) as (c & _ & ->).
    eexists. eexists. split; [done|]. split; [apply migrated_detection|].
    intros id info. by rewrite map_lookup_filter_Some.
  - unfold detection_settled in Hsettled.
    destruct (prop D "agentDetectionStatus") as [| | | | | |m|] eqn:Hads; try done.
    apply bool_decide_eq_true in Hsettled.
    exists D, m. split; [by apply migrateSettings_falsy|]. split; [done|].
    intros id info. rewrite detection_entries_falsy, Hads by done. cbn [own_enumerable].
    rewrite enabled_entry_falsy by done. split; [|tauto].
    intros Hm. split; [done|]. by apply (Hsettled id info).
Qed.

Lemma detection_status_filtered_witness :
  exists R detection,
    migrateSettings decimal_Number persisted_foo_bar sample_defaults = Some R /\
    prop R "agentDetectionStatus" = VObj detection /\
    detection !! "bar" = Some (detection_info "2.0") /\
    detection !! "foo" = None.
Proof.
  destruct (detection_status_filtered decimal_Number persisted_foo_bar sample_defaults
              eq_refl eq_refl) as (R & detection & HR & Hads & Hiff).
  exists R, detection. split; [exact HR|]. split; [exact Hads|]. split.
  - apply Hiff. split; reflexivity.
  - destruct (detection !! "foo") as [info|] eqn:Hfoo; [|reflexivity].
    apply Hiff in Hfoo as [_ Hen]. discriminate Hen.
Defined.

(** ** Types and bounds of the migrated background fields *)


Lemma sanitizeString_string (p d : value) :
  is_a_string d = true -> is_a_string (sanitizeString p d) = true.
Proof. by destruct p. Qed.




Lemma background_conforms_fields (s : value) :
  background_conforms s = true <->
  (is_boolean (prop s "backgroundImageEnabled") = true /\
   is_a_string (prop s "backgroundImagePath") = true /\
   is_a_string (prop s "backgroundUrlPath") = true /\
   is_a_string (prop s "backgroundFolderPath") = true /\
   includes sourceTypes (prop s "backgroundSourceType") = true /\
   is_boolean (prop s "backgroundRandomEnabled") = true) /\
  (in_range 5 86400 (prop s "backgroundRandomInterval") = true /\
   in_range 0 1 (prop s "backgroundOpacity") = true /\
   in_range 0 20 (prop s "backgroundBlur") = true /\
   in_range 0 2 (prop s "backgroundBrightness") = true /\
   in_range 0 2 (prop s "backgroundSaturation") = true /\
   includes sizeModes (prop s "backgroundSizeMode") = true).
Proof. unfold background_conforms. rewrite !andb_true_iff. tauto. Qed.



Lemma migrated_keeps_keys toNum P D c a (k : string) :
  is_Some (own_enumerable D !! k) ->
  is_Some (object_literal (spread_members P D ++ explicit_members toNum P D c a) !! k).
Proof.
  intros HD. rewrite object_literal_app, lookup_union_is_Some. right.
  unfold spread_members, object_literal. simpl.
  rewrite !lookup_union_is_Some. by do 2 right; left.
Qed.

(** ** Which values the migrated snapshot holds *)

Lemma lookup_members_fields (k : string) (found : option value) (ms : list member) :
  Forall (fun m => match m with Field k' _ => k' <> k | Spread _ => False end) ms ->
  lookup_members k found ms = found.
Proof.
  intros H. revert found. induction H as [|m ms Hm _ IH]; intros found; [done|].
  destruct m as [|k' v]; [done|]. cbn [lookup_members].
  apply String.eqb_neq in Hm. rewrite Hm. apply IH.
Qed.

Lemma lookup_members_app (k : string) (found : option value) (a b : list member) :
  lookup_members k found (a ++ b) = lookup_members k (lookup_members k found a) b.
Proof.
  revert found. induction a as [|m a IH]; intros found; [done|].
  destruct m; cbn [app lookup_members]; apply IH.
Qed.

Lemma renderer_spread_other (P : value) (k : string) :
  k <> "terminalRenderer" ->
  own_enumerable
    (js_and (migrated_renderer P)
       (VObj (object_literal [ Field "terminalRenderer" (migrated_renderer P) ]))) !! k
  = None.
Proof.
  intros Hk. rewrite renderer_spread. destruct (truthy (migrated_renderer P)).
  - by rewrite lookup_singleton_ne.
  - apply lookup_empty.
Qed.











(** The initial state of the store has every field defined, whatever the
    host's locale, platform and prompt texts. *)
Lemma initial_state_defined (language : string) (win32 : bool)
    (commitPrompt codeReviewPrompt branchNamePrompt : string) :
  defined_fields (getInitialState language win32 commitPrompt codeReviewPrompt branchNamePrompt)
  = true.
Proof. vm_compute. reflexivity. Qed.




(** ** Migrating a migrated snapshot again *)

Lemma object_literal_spread_cons (a : value) (rest : list member) :
  object_literal (Spread a :: rest) = object_literal rest ∪ own_enumerable a.
Proof.
  unfold object_literal at 1. simpl. rewrite foldl_add_member.
  by rewrite (right_id_L ∅ (∪)).
Qed.

Lemma merge_again_cons (a : value) (rest : list member) :
  object_literal [ Spread a; Spread (VObj (object_literal (Spread a :: rest))) ]
  = object_literal (Spread a :: rest).
Proof.
  rewrite object_literal_two_spreads. cbn [own_enumerable].
  rewrite object_literal_spread_cons. apply union_absorb_l.
Qed.

Lemma within_finite (lo hi : Q) (n : number) :
  within (Finite lo) (Finite hi) n = true -> Number_isFinite n = true.
Proof.
  unfold within. destruct n; simpl; done.
Qed.

(** A value within the bounds is its own clamp. *)
Lemma clampNumber_settled toNum (v fallback : value) (lo hi : Q) :
  in_range lo hi v = true ->
  clampNumber toNum v (Finite lo) (Finite hi) fallback = v.
Proof.
  destruct v as [| | |n| | | |]; try done. cbn [in_range]. intros Hn.
  rewrite (clampNumber_finite toNum _ _ _ _ n); [|done|by eapply within_finite].
  by rewrite within_inside.
Qed.

Section Again.

Variable toNum : string -> number.
Variables P D : value.
Variables c a : gmap string value.

Variable R : value.
Hypothesis migrated :
  R = VObj (object_literal (spread_members P D ++ explicit_members toNum P D c a)).

Lemma prop_migrated (k : string) (v : value) :
  lookup_members k None (spread_members P D ++ explicit_members toNum P D c a) = Some v ->
  prop R k = v.
Proof. intros H. rewrite migrated. by rewrite prop_object, lookup_object_literal, H. Qed.

Lemma again_merge_domain (k : string) :
  lookup_members k None (spread_members P D ++ explicit_members toNum P D c a)
  = Some (VObj (object_literal [ Spread (prop D k); Spread (prop P k) ])) ->
  merge_domain R D k = merge_domain P D k.
Proof.
  intros H. unfold merge_domain. rewrite (prop_migrated k _ H).
  by rewrite merge_again.
Qed.

Lemma again_boolean (k : string) :
  lookup_members k None (spread_members P D ++ explicit_members toNum P D c a)
  = Some (sanitized_boolean P D k) ->
  sanitized_boolean R D k = sanitized_boolean P D k.
Proof.
  intros H. unfold sanitized_boolean at 1. rewrite (prop_migrated k _ H).
  unfold sanitized_boolean. destruct (prop P k); simpl; try done; by destruct (prop D k).
Qed.

Lemma again_string (k : string) :
  lookup_members k None (spread_members P D ++ explicit_members toNum P D c a)
  = Some (sanitized_string P D k) ->
  sanitized_string R D k = sanitized_string P D k.
Proof.
  intros H. unfold sanitized_string at 1. rewrite (prop_migrated k _ H).
  unfold sanitized_string. destruct (prop P k); simpl; try done; by destruct (prop D k).
Qed.

Lemma again_enum (allowed : list string) (k : string) :
  lookup_members k None (spread_members P D ++ explicit_members toNum P D c a)
  = Some (sanitized_enum allowed P D k) ->
  sanitized_enum allowed R D k = sanitized_enum allowed P D k.
Proof.
  intros H. unfold sanitized_enum at 1. rewrite (prop_migrated k _ H).
  unfold sanitized_enum.
  destruct (truthy (prop P k) && includes allowed (prop P k)) eqn:E.
  - by rewrite E.
  - by destruct (truthy (prop D k) && includes allowed (prop D k)).
Qed.

Lemma again_coalesced (k : string) :
  lookup_members k None (spread_members P D ++ explicit_members toNum P D c a)
  = Some (coalesced P D k) ->
  coalesced R D k = coalesced P D k.
Proof.
  intros H. unfold coalesced at 1. rewrite (prop_migrated k _ H).
  unfold coalesced, nullish_coalesce.
  destruct (nullish (prop P k)) eqn:E; [|by rewrite E].
  by destruct (nullish (prop D k)).
Qed.

Lemma again_number (lo hi : Q) (k : string) :
  Qle_bool lo hi = true -> in_range lo hi (prop D k) = true ->
  lookup_members k None (spread_members P D ++ explicit_members toNum P D c a)
  = Some (sanitized_number toNum P D lo hi k) ->
  sanitized_number toNum R D lo hi k = sanitized_number toNum P D lo hi k.
Proof.
  intros Hle HD H. unfold sanitized_number at 1. rewrite (prop_migrated k _ H).
  unfold sanitized_number.
  destruct (clampNumber_range toNum (prop P k) (Finite lo) (Finite hi) (prop D k) Hle)
    as [-> | (n & -> & Hn)].
  - by apply clampNumber_settled.
  - by apply clampNumber_settled.
Qed.

Lemma again_url :
  is_a_string (prop D "backgroundUrlPath") = true ->
  is_a_string (prop D "backgroundImagePath") = true ->
  migrated_url R D = migrated_url P D.
Proof.
  intros Hurl Himg. unfold migrated_url at 1.
  rewrite (again_enum sourceTypes "backgroundSourceType") by reflexivity.
  rewrite (again_string "backgroundImagePath") by reflexivity.
  unfold sanitized_string at 1.
  rewrite (prop_migrated "backgroundUrlPath" (migrated_url P D)) by reflexivity.
  unfold migrated_url, js_or.
  pose proof (sanitizeString_string (prop P "backgroundUrlPath") _ Hurl) as H1.
  pose proof (sanitizeString_string (prop P "backgroundImagePath") _ Himg) as H2.
  fold (sanitized_string P D "backgroundUrlPath") in *.
  fold (sanitized_string P D "backgroundImagePath") in *.
  destruct (truthy (sanitized_string P D "backgroundUrlPath")) eqn:Eu.
  - destruct (sanitized_string P D "backgroundUrlPath"); try done.
    cbn [sanitizeString]. by rewrite Eu.
  - destruct (is_string _ "url").
    + destruct (sanitized_string P D "backgroundImagePath") eqn:Ei; try done.
      cbn [sanitizeString]. by destruct (truthy (VStr s)).
    + cbn [sanitizeString]. by destruct (truthy (VStr "")).
Qed.

Lemma again_xterm :
  migrateXtermKeybindings R D = migrateXtermKeybindings P D.
Proof.
  unfold migrateXtermKeybindings at 1.
  rewrite (prop_migrated "xtermKeybindings" (migrateXtermKeybindings P D)) by reflexivity.
  unfold migrateXtermKeybindings.
  destruct (truthy (prop P "xtermKeybindings")); cbn [truthy]; by rewrite merge_again_cons.
Qed.

(** Every property written explicitly is written again with the same
    value. *)
Lemma again_explicit :
  background_conforms D = true ->
  explicit_members toNum R D c a = explicit_members toNum P D c a.
Proof.
  intros ((H1 & H2 & H3 & H4 & H5 & H6) & (H7 & H8 & H9 & H10 & H11 & H12))
    %background_conforms_fields.
  unfold explicit_members.
  rewrite again_xterm.
  rewrite !again_merge_domain by reflexivity.
  rewrite !again_boolean by reflexivity.
  rewrite !again_string by reflexivity.
  rewrite again_url by done.
  rewrite !again_enum by reflexivity.
  rewrite !again_coalesced by reflexivity.
  rewrite (again_number 5 86400) by done.
  rewrite (again_number 0 1) by done.
  rewrite (again_number 0 20) by done.
  rewrite !(again_number 0 2) by done.
  reflexivity.
Qed.

End Again.

(** The integration record, migrated again. *)

Lemma insert_keeps_keys (m : gmap string value) (k k' : string) (v : value) :
  is_Some (m !! k) -> is_Some (<[k' := v]> m !! k).
Proof. intros H. rewrite lookup_insert_is_Some. destruct (decide (k' = k)); tauto. Qed.

Lemma migrateClaudeCodeIntegration_shape (P D : value) (c : gmap string value) :
  nullish (prop D "claudeCodeIntegration") = false ->
  is_boolean (prop (prop D "claudeCodeIntegration") "enhancedInputAutoPopup") = false ->
  migrateClaudeCodeIntegration P D = Some c ->
  c !! "statusLineFields"
  = Some (VObj (object_literal
                  [ Spread (prop (prop D "claudeCodeIntegration") "statusLineFields");
                    Spread (opt_prop (prop P "claudeCodeIntegration") "statusLineFields") ]))
  /\ (forall k, is_Some (own_enumerable (prop D "claudeCodeIntegration") !! k) ->
                is_Some (c !! k))
  /\ is_boolean (prop (VObj c) "enhancedInputAutoPopup") = false.
Proof.
  intros HD Hnb. unfold migrateClaudeCodeIntegration, get_prop. rewrite HD.
  cbn [mbind option_bind].
  set (m0 := object_literal _).
  assert (m0 !! "statusLineFields"
          = Some (VObj (object_literal
                  [ Spread (prop (prop D "claudeCodeIntegration") "statusLineFields");
                    Spread (opt_prop (prop P "claudeCodeIntegration") "statusLineFields") ])))
    as H0slf by (unfold m0; by read_members).
  assert (forall k, is_Some (own_enumerable (prop D "claudeCodeIntegration") !! k) ->
                    is_Some (m0 !! k)) as H0dom.
  { intros k Hk. unfold m0, object_literal. simpl.
    apply insert_keeps_keys. rewrite !lookup_union_is_Some. right. by left. }
  assert (m0 !! "enhancedInputAutoPopup"
          = match own_enumerable (prop P "claudeCodeIntegration") !! "enhancedInputAutoPopup"
            with
            | Some x => Some x
            | None => own_enumerable (prop D "claudeCodeIntegration")
                        !! "enhancedInputAutoPopup"
            end) as H0popup.
  { unfold m0. read_members.
    by destruct
      (own_enumerable (prop P "claudeCodeIntegration") !! "enhancedInputAutoPopup"),
      (own_enumerable (prop D "claudeCodeIntegration") !! "enhancedInputAutoPopup"). }
  set (m1 := match opt_prop (prop P "claudeCodeIntegration") "enhancedInputAutoPopup" with
             | VBool b =>
                 <["enhancedInputAutoPopup" :=
                     VStr (if b then "hideWhileRunning" else "manual")]> m0
             | _ => m0
             end).
  assert (m1 !! "statusLineFields" = m0 !! "statusLineFields"
          /\ (forall k, is_Some (m0 !! k) -> is_Some (m1 !! k))
          /\ is_boolean (prop (VObj m1) "enhancedInputAutoPopup") = false)
    as (H1slf & H1dom & H1popup).
  { unfold m1. rewrite opt_prop_prop.
    rewrite (prop_own (prop P "claudeCodeIntegration") "enhancedInputAutoPopup") by done.
    rewrite (prop_own (prop D "claudeCodeIntegration") "enhancedInputAutoPopup") in Hnb
      by done.
    rewrite prop_object.
    destruct (own_enumerable (prop P "claudeCodeIntegration") !! "enhancedInputAutoPopup")
      as [x|] eqn:Ex; cbn [default from_option id].
    - destruct x; rewrite ?prop_object, ?H0popup; cbn [default from_option id];
        try (split; [done|split; [done|done]]).
      split; [by rewrite lookup_insert_ne|]. split.
      + intros k Hk. by apply insert_keeps_keys.
      + by rewrite lookup_insert_eq.
    - rewrite H0popup. done. }
  destruct (is_string (prop (VObj m1) "enhancedInputAutoPopup") "hideWhileRunning"
            && negb (truthy (prop (VObj m1) "stopHookEnabled"))); intros [= <-].
  - split; [by rewrite lookup_insert_ne, H1slf|]. split.
    + intros k Hk. apply insert_keeps_keys. auto.
    + by rewrite prop_object, lookup_insert_eq.
  - split; [by rewrite H1slf|]. split; [auto|done].
Qed.

Lemma migrateClaudeCodeIntegration_again (P D X : value) (c : gmap string value) :
  nullish (prop D "claudeCodeIntegration") = false ->
  is_boolean (prop (prop D "claudeCodeIntegration") "enhancedInputAutoPopup") = false ->
  migrateClaudeCodeIntegration P D = Some c ->
  prop X "claudeCodeIntegration" = VObj c ->
  migrateClaudeCodeIntegration X D = Some c.
Proof.
  intros HD Hnb Hc HX.
  destruct (migrateClaudeCodeIntegration_shape P D c HD Hnb Hc) as (Hslf & Hdom & Hpopup).
  pose proof (migrateClaudeCodeIntegration_repaired P D c Hc) as Hrep.
  unfold migrateClaudeCodeIntegration, get_prop. rewrite HD, HX.
  cbn [mbind option_bind].
  rewrite !opt_prop_prop, (prop_object c "statusLineFields"), Hslf.
  cbn [default from_option id]. rewrite merge_again.
  assert (object_literal
            [ Spread (prop D "claudeCodeIntegration"); Spread (VObj c);
              Field "statusLineFields"
                (VObj (object_literal
                  [ Spread (prop (prop D "claudeCodeIntegration") "statusLineFields");
                    Spread (opt_prop (prop P "claudeCodeIntegration")
                              "statusLineFields") ])) ]
          = c) as ->.
  { unfold object_literal at 1. simpl. rewrite (right_id_L ∅ (∪)).
    rewrite (union_absorb c) by exact Hdom.
    by apply insert_id. }
  remember (prop (VObj c) "enhancedInputAutoPopup") as popup eqn:Epopup.
  destruct popup; try done;
    (match goal with
     | |- Some (if ?cond then _ else _) = _ => destruct cond eqn:Hcond; [|done]
     end;
     apply andb_true_iff in Hcond as [Hhide Hstop];
     apply negb_true_iff in Hstop; specialize (Hrep Hstop); congruence).
Qed.

(** The detection status, filtered again. *)

Lemma filter_again (f : string -> bool) (p d : gmap string value) :
  filter (fun kv => f kv.1 = true) (filter (fun kv => f kv.1 = true) (p ∪ d) ∪ d)
  = filter (fun kv => f kv.1 = true) (p ∪ d).
Proof.
  apply map_eq. intros i. apply option_eq. intros x.
  rewrite !map_lookup_filter_Some, lookup_union_Some_raw, map_lookup_filter_Some,
    map_lookup_filter_None.
  cbn [fst]. split.
  - intros [[[Hx _] | [[Hnone | Hno] Hd]] Hf]; [done| |].
    + rewrite lookup_union_None in Hnone. destruct Hnone as [_ Hnone]. congruence.
    + destruct ((p ∪ d) !! i) as [y|] eqn:Hy.
      * by destruct (Hno y eq_refl).
      * rewrite lookup_union_None in Hy. destruct Hy as [_ Hy]. congruence.
  - intros [Hx Hf]. split; [|done]. by left.
Qed.

Lemma enabled_entry_again (P D X : value) (agent : string) :
  prop X "agentSettings"
  = default (prop D "agentSettings") (own_enumerable P !! "agentSettings") ->
  enabled_entry X D agent = enabled_entry P D agent.
Proof.
  intros HX. unfold enabled_entry. rewrite !opt_prop_prop, HX.
  rewrite (prop_own P "agentSettings") by done.
  destruct (own_enumerable P !! "agentSettings") as [x|]; cbn [default from_option id];
    [done|].
  cbn [prop nullish].
  by destruct (nullish (prop (prop D "agentSettings") agent)).
Qed.

Lemma migrated_agentSettings toNum P D c a :
  prop (VObj (object_literal (spread_members P D ++ explicit_members toNum P D c a)))
    "agentSettings"
  = default (prop D "agentSettings") (own_enumerable P !! "agentSettings").
Proof.
  read_members. rewrite renderer_spread, (prop_own D "agentSettings") by done.
  destruct (truthy (migrated_renderer P)).
  - rewrite lookup_singleton_ne by done.
    by destruct (own_enumerable P !! "agentSettings"),
      (own_enumerable D !! "agentSettings").
  - rewrite lookup_empty.
    by destruct (own_enumerable P !! "agentSettings"),
      (own_enumerable D !! "agentSettings").
Qed.

Lemma detection_again toNum P D c :
  let a := filter (fun kv => enabled_entry P D kv.1 = true) (detection_entries P D) in
  let R := VObj (object_literal (spread_members P D ++ explicit_members toNum P D c a)) in
  filter (fun kv => enabled_entry R D kv.1 = true) (detection_entries R D) = a.
Proof.
  intros a R.
  assert (detection_entries R D = a ∪ own_enumerable (opt_prop D "agentDetectionStatus"))
    as ->.
  { unfold detection_entries. rewrite (opt_prop_prop R).
    unfold R. by rewrite migrated_detection. }
  etrans; [|apply (filter_again (enabled_entry P D))].
  apply map_filter_ext. intros i x _. cbn [fst]. unfold R.
  by rewrite (enabled_entry_again P D _ i (migrated_agentSettings toNum P D c a)).
Qed.

(** The renderer, migrated again. *)

Lemma migrated_renderer_not_canvas (P : value) :
  is_string (migrated_renderer P) "canvas" = false.
Proof.
  unfold migrated_renderer.
  by destruct (is_string (prop P "terminalRenderer") "canvas") eqn:E.
Qed.

Lemma renderer_again toNum P D c a :
  is_string (prop D "terminalRenderer") "canvas" = false ->
  let lit := object_literal (spread_members P D ++ explicit_members toNum P D c a) in
  own_enumerable
    (js_and (migrated_renderer (VObj lit))
       (VObj (object_literal [ Field "terminalRenderer" (migrated_renderer (VObj lit)) ])))
  ∪ lit = lit.
Proof.
  intros HD lit. rewrite renderer_spread.
  assert (is_string (prop (VObj lit) "terminalRenderer") "canvas" = false) as Hno.
  { unfold lit. rewrite migrated_terminalRenderer.
    destruct (truthy (migrated_renderer P)) eqn:Et;
      [apply migrated_renderer_not_canvas|].
    destruct (own_enumerable P !! "terminalRenderer") as [v|] eqn:Ev;
      cbn [default from_option id]; [|done].
    unfold migrated_renderer in Et. rewrite (prop_own_Some P _ v) in Et by done.
    by destruct (is_string v "canvas"). }
  unfold migrated_renderer. rewrite Hno.
  destruct (truthy (prop (VObj lit) "terminalRenderer")) eqn:Et;
    [|by rewrite (left_id_L ∅ (∪))].
  rewrite <- insert_union_singleton_l. apply insert_id.
  rewrite prop_object in *. by destruct (lit !! "terminalRenderer").
Qed.

Lemma object_literal_three_spreads (x y z : value) :
  object_literal [ Spread x; Spread y; Spread z ]
  = own_enumerable z ∪ (own_enumerable y ∪ own_enumerable x).
Proof.
  unfold object_literal. cbn [foldl add_member]. by rewrite (right_id_L ∅ (∪)).
Qed.

(** Migrating the result of a migration against the same current state
    changes nothing. *)
Lemma migrate_again (toNum : string -> number) (P D : value) (c : gmap string value) :
  usable_defaults D = true ->
  background_conforms D = true ->
  is_string (prop D "terminalRenderer") "canvas" = false ->
  is_boolean (prop (prop D "claudeCodeIntegration") "enhancedInputAutoPopup") = false ->
  migrateClaudeCodeIntegration P D = Some c ->
  let a := filter (fun kv => enabled_entry P D kv.1 = true) (detection_entries P D) in
  let R := VObj (object_literal (spread_members P D ++ explicit_members toNum P D c a)) in
  migrateSettings toNum R D = Some R.
Proof.
  intros HD Hbg Htr Hpopup Hc a R.
  destruct (migrateSettings_truthy toNum R D eq_refl HD) as (c' & Hc' & ->).
  destruct (usable_defaults_fields D HD) as (_ & Hcci & _).
  assert (c' = c) as ->.
  { pose proof (migrateClaudeCodeIntegration_again P D R c Hcci Hpopup Hc
                  (migrated_integration toNum P D c a)) as Hagain.
    congruence. }
  pose proof (detection_again toNum P D c) as Hdet. cbv zeta in Hdet.
  fold a in Hdet. fold R in Hdet. rewrite Hdet.
  rewrite (again_explicit toNum P D c a R eq_refl Hbg).
  f_equal. unfold R at 2. f_equal.
  rewrite !object_literal_app.
  assert (object_literal (spread_members R D)
          = object_literal (explicit_members toNum P D c a)
            ∪ object_literal (spread_members P D)) as ->.
  { unfold spread_members at 1. rewrite object_literal_three_spreads.
    unfold R. cbn [own_enumerable].
    rewrite (union_absorb _ (own_enumerable D))
      by (intros k Hk; by apply migrated_keeps_keys).
    rewrite (renderer_again toNum P D c a Htr). apply object_literal_app. }
  by rewrite (assoc_L (∪)), (idemp_L (∪)).
Qed.



(** ** A validated snapshot is a fixed point of migration *)

Lemma fields_agree (d : gmap string value) (ms : list member) :
  Forall (fun m => match m with Field k v => d !! k = Some v | Spread _ => False end) ms ->
  object_literal ms ∪ d = d.
Proof.
  induction 1 as [|m ms Hm _ IH].
  - unfold object_literal. simpl. by rewrite (left_id_L ∅ (∪)).
  - destruct m as [|k v]; [done|].
    unfold object_literal. simpl. rewrite foldl_add_member.
    rewrite <- (assoc_L (∪)), insert_empty, <- insert_union_singleton_l.
    by rewrite (insert_id d k v).
Qed.

Lemma own_field (d : gmap string value) (k : string) (v : value) :
  prop (VObj d) k = v -> v <> VUndef -> d !! k = Some v.
Proof. rewrite prop_object. intros <-. by destruct (d !! k). Qed.

Ltac nothing_persisted :=
  repeat match goal with
  | |- context [prop (VBool true) ?k] => change (prop (VBool true) k) with VUndef
  | |- context [prop VUndef ?k] => change (prop VUndef k) with VUndef
  end.

Section Unchanged.

Variable d : gmap string value.

(** Below, [VBool true] is a persisted value that is truthy and holds no
    property: migration then only applies the defaults. *)

Lemma unchanged_domain (k : string) :
  is_object (prop (VObj d) k) = true ->
  d !! k
  = Some (VObj (object_literal [ Spread (prop (VObj d) k); Spread (prop (VBool true) k) ])).
Proof.
  intros Hk. apply own_field; [|done].
  destruct (prop (VObj d) k) as [| | | | | |x|]; try done.
  rewrite object_literal_two_spreads. nothing_persisted; cbn [sanitizeBoolean own_enumerable].
  by rewrite (left_id_L ∅ (∪)).
Qed.

Lemma unchanged_boolean (k : string) :
  is_boolean (prop (VObj d) k) = true ->
  d !! k = Some (sanitized_boolean (VBool true) (VObj d) k).
Proof.
  intros Hk. apply own_field; [done|]. unfold sanitized_boolean. nothing_persisted; cbn [sanitizeBoolean sanitizeString].
  by destruct (prop (VObj d) k).
Qed.

Lemma unchanged_string (k : string) :
  is_a_string (prop (VObj d) k) = true ->
  d !! k = Some (sanitized_string (VBool true) (VObj d) k).
Proof.
  intros Hk. apply own_field; [done|]. unfold sanitized_string. nothing_persisted; cbn [sanitizeBoolean sanitizeString].
  by destruct (prop (VObj d) k).
Qed.

Lemma includes_defined (allowed : list string) (v : value) :
  includes allowed v = true -> v <> VUndef.
Proof. intros H ->. unfold includes in H. by induction allowed. Qed.

Lemma unchanged_enum (allowed : list string) (k : string) :
  includes allowed (prop (VObj d) k) = true ->
  d !! k = Some (sanitized_enum allowed (VBool true) (VObj d) k).
Proof.
  intros Hk. apply own_field; [done|]. unfold sanitized_enum. nothing_persisted; cbn [sanitizeBoolean truthy andb].
  by eapply includes_defined.
Qed.

Lemma unchanged_number toNum (lo hi : Q) (k : string) :
  in_range lo hi (prop (VObj d) k) = true ->
  d !! k = Some (sanitized_number toNum (VBool true) (VObj d) lo hi k).
Proof.
  intros Hk. apply own_field; [done|]. unfold sanitized_number. nothing_persisted; cbn [sanitizeBoolean clampNumber].
  by destruct (prop (VObj d) k).
Qed.

Lemma unchanged_coalesced (k : string) :
  is_array (prop (VObj d) k) = true ->
  d !! k = Some (coalesced (VBool true) (VObj d) k).
Proof.
  intros Hk. apply own_field; [done|]. unfold coalesced. nothing_persisted; cbn [sanitizeBoolean nullish_coalesce nullish].
  by destruct (prop (VObj d) k).
Qed.

Lemma falsy_string (v : value) :
  is_a_string v = true -> truthy v = false -> v = VStr "".
Proof.
  destruct v as [| | | |s| | |]; try done. intros _. simpl.
  by destruct s.
Qed.

Lemma unchanged_url :
  background_conforms (VObj d) = true -> url_migrated (VObj d) = true ->
  d !! "backgroundUrlPath" = Some (migrated_url (VBool true) (VObj d)).
Proof.
  intros ((_ & Himg & Hurl & _) & _)%background_conforms_fields Hm.
  assert (migrated_url (VBool true) (VObj d) = prop (VObj d) "backgroundUrlPath") as ->;
    [|apply own_field; [done|intros E; by rewrite E in Hurl]].
  unfold migrated_url, sanitized_string, sanitized_enum, js_or.
  nothing_persisted; cbn [sanitizeBoolean truthy andb sanitizeString].
  unfold url_migrated in Hm.
  destruct (truthy (prop (VObj d) "backgroundUrlPath")) eqn:Eu; [done|].
  rewrite (falsy_string _ Hurl Eu).
  destruct (is_string (prop (VObj d) "backgroundSourceType") "url"); [|done].
  simpl in Hm. apply negb_true_iff in Hm. by rewrite (falsy_string _ Himg Hm).
Qed.

Lemma unchanged_xterm :
  is_object (prop (VObj d) "xtermKeybindings") = true ->
  d !! "xtermKeybindings" = Some (migrateXtermKeybindings (VBool true) (VObj d)).
Proof.
  intros Hk. apply own_field; [|done].
  unfold migrateXtermKeybindings. nothing_persisted; cbn [sanitizeBoolean truthy js_and].
  destruct (prop (VObj d) "xtermKeybindings") as [| | | | | |x|]; try done.
  f_equal. unfold object_literal. cbn [foldl add_member own_enumerable].
  by rewrite !(left_id_L ∅ (∪)), (right_id_L ∅ (∪)).
Qed.

Lemma unchanged_integration (c : gmap string value) :
  integration_consistent (prop (VObj d) "claudeCodeIntegration") = true ->
  migrateClaudeCodeIntegration (VBool true) (VObj d) = Some c ->
  d !! "claudeCodeIntegration" = Some (VObj c).
Proof.
  unfold integration_consistent. rewrite !andb_true_iff.
  intros (((Hobj & Hslf) & Hmode) & Hcons) Hc.
  apply own_field; [|done].
  destruct (prop (VObj d) "claudeCodeIntegration") as [| | | | | |x|] eqn:Hx; try done.
  f_equal. revert Hc. unfold migrateClaudeCodeIntegration, get_prop.
  rewrite Hx, !opt_prop_prop. nothing_persisted. cbn [nullish mbind option_bind].
  destruct (prop (VObj x) "statusLineFields") as [| | | | | |s|] eqn:Hs; try done.
  assert (object_literal
            [ Spread (VObj x); Spread VUndef;
              Field "statusLineFields"
                (VObj (object_literal [ Spread (VObj s); Spread VUndef ])) ] = x) as ->.
  { unfold object_literal. cbn [foldl add_member own_enumerable].
    rewrite !(left_id_L ∅ (∪)), !(right_id_L ∅ (∪)).
    apply insert_id. rewrite <- Hs. apply own_field; [done|]. by rewrite Hs. }
  destruct (is_string (prop (VObj x) "enhancedInputAutoPopup") "hideWhileRunning"
            && negb (truthy (prop (VObj x) "stopHookEnabled"))) eqn:Hcond.
  - apply andb_true_iff in Hcond as [Hhide Hstop]. apply negb_true_iff in Hstop.
    rewrite Hhide, Hstop in Hcons. done.
  - by intros [= <-].
Qed.

Lemma unchanged_detection :
  detection_settled (VObj d) = true ->
  d !! "agentDetectionStatus"
  = Some (VObj (filter (fun kv => enabled_entry (VBool true) (VObj d) kv.1 = true)
                  (detection_entries (VBool true) (VObj d)))).
Proof.
  unfold detection_settled. intros Hk. apply own_field; [|done].
  destruct (prop (VObj d) "agentDetectionStatus") as [| | | | | |x|] eqn:Hx; try done.
  apply bool_decide_eq_true in Hk. f_equal.
  unfold detection_entries. rewrite !opt_prop_prop, Hx. nothing_persisted; cbn [sanitizeBoolean own_enumerable].
  rewrite (left_id_L ∅ (∪)). symmetry. apply map_filter_id.
  intros i y Hy. cbn [fst]. by apply (Hk i y).
Qed.

End Unchanged.

Lemma includes_renderers_not_canvas (v : value) :
  includes renderers v = true -> is_string v "canvas" = false.
Proof.
  destruct v as [| | | |s| | |]; try done.
  unfold includes, renderers. cbn [existsb is_string].
  rewrite !orb_true_iff. intros [H | [H | H]]; [| |done];
    apply String.eqb_eq in H; by subst s.
Qed.

Lemma includes_popupModes_not_boolean (v : value) :
  includes popupModes v = true -> is_boolean v = false.
Proof. by destruct v. Qed.

Lemma validated_fields (D : value) :
  validated D = true ->
  exists d, D = VObj d /\
    usable_defaults D = true /\
    background_conforms D = true /\
    url_migrated D = true /\
    includes renderers (prop D "terminalRenderer") = true /\
    is_object (prop D "xtermKeybindings") = true /\
    Forall (fun k => is_object (prop D k) = true) merged_domains /\
    integration_consistent (prop D "claudeCodeIntegration") = true /\
    detection_settled D = true /\
    is_array (prop D "mcpServers") = true /\
    is_array (prop D "promptPresets") = true.
Proof.
  unfold validated. rewrite !andb_true_iff, forallb_forall.
  intros ((((((((((Hobj & ?) & ?) & ?) & ?) & ?) & Hdom) & ?) & ?) & ?) & ?).
  destruct D as [| | | | | |d|]; try done. exists d.
  repeat split; try done.
  apply Forall_forall. intros k Hk. apply Hdom. by apply list_elem_of_In.
Qed.

Lemma validated_unchanged (toNum : string -> number) (D : value) :
  validated D = true -> migrateSettings toNum (VBool true) D = Some D.
Proof.
  intros (d & -> & Hus & Hbg & Hurl & Htr & Hxk & Hdom & Hint & Hdet & Hmcp & Hpp)
    %validated_fields.
  destruct (migrateSettings_truthy toNum (VBool true) (VObj d) eq_refl Hus)
    as (c & Hc & ->).
  pose proof Hbg as ((H1 & H2 & H3 & H4 & H5 & H6) & (H7 & H8 & H9 & H10 & H11 & H12))
    %background_conforms_fields.
  f_equal. f_equal. rewrite object_literal_app.
  unfold spread_members. rewrite object_literal_three_spreads, renderer_spread.
  change (truthy (migrated_renderer (VBool true))) with false. cbn [own_enumerable].
  rewrite !(left_id_L ∅ (∪)).
  apply fields_agree. unfold explicit_members, merge_domain.
  unfold merged_domains in Hdom.
  repeat match goal with
  | H : Forall _ (_ :: _) |- _ => apply Forall_cons in H as [? H]
  end.
  repeat apply List.Forall_cons; try apply List.Forall_nil.
  - by apply unchanged_xterm.
  - by apply unchanged_domain.
  - by apply unchanged_domain.
  - by apply unchanged_domain.
  - by apply unchanged_domain.
  - by apply unchanged_domain.
  - by apply unchanged_boolean.
  - by apply unchanged_string.
  - by apply unchanged_url.
  - by apply unchanged_string.
  - by apply unchanged_enum.
  - by apply unchanged_boolean.
  - by apply unchanged_number.
  - by apply unchanged_number.
  - by apply unchanged_number.
  - by apply unchanged_number.
  - by apply unchanged_number.
  - by apply unchanged_enum.
  - by apply unchanged_domain.
  - by apply unchanged_integration.
  - by apply unchanged_domain.
  - by apply unchanged_domain.
  - by apply unchanged_domain.
  - by apply unchanged_domain.
  - by apply unchanged_detection.
  - by apply unchanged_coalesced.
  - by apply unchanged_coalesced.
  - by apply unchanged_domain.
Qed.

Lemma typed_defaults_fields (D : value) :
  typed_defaults D = true ->
  usable_defaults D = true /\ background_conforms D = true /\
  is_string (prop D "terminalRenderer") "canvas" = false /\
  is_boolean (prop (prop D "claudeCodeIntegration") "enhancedInputAutoPopup") = false.
Proof.
  unfold typed_defaults. rewrite !andb_true_iff. intros (((Hus & Hbg) & Htr) & Hmode).
  split; [done|]. split; [done|]. split; [by apply includes_renderers_not_canvas|].
  by apply includes_popupModes_not_boolean.
Qed.

Lemma validated_typed (D : value) : validated D = true -> typed_defaults D = true.
Proof.
  intros (d & -> & Hus & Hbg & Hurl & Htr & Hxk & Hdom & Hint & Hdet & Hmcp & Hpp)
    %validated_fields.
  unfold integration_consistent in Hint. rewrite !andb_true_iff in Hint.
  destruct Hint as (((_ & _) & Hmode) & _).
  unfold typed_defaults. by rewrite Hus, Hbg, Htr, Hmode.
Qed.

(** The initial state of the store is validated, whatever the host's locale,
    platform and prompt texts. *)
Lemma initial_state_validated (language : string) (win32 : bool)
    (commitPrompt codeReviewPrompt branchNamePrompt : string) :
  validated (getInitialState language win32 commitPrompt codeReviewPrompt branchNamePrompt)
  = true.
Proof. vm_compute. reflexivity. Qed.

(** Outside the initial and the validated states the early return shows: for
    a current state that a setter left with hideWhileRunning and no stop
    hook, migrateSettings(undefined, D) is D, and migrating D against itself
    repairs it. *)
Lemma unsettled_state_repaired :
  typed_defaults defaults_without_stop_hook = true /\
  migrateSettings decimal_Number VUndef defaults_without_stop_hook
  = Some defaults_without_stop_hook /\
  migrateSettings decimal_Number defaults_without_stop_hook defaults_without_stop_hook
  <> Some defaults_without_stop_hook.
Proof.
  split; [vm_compute; reflexivity|]. split; [reflexivity|].
  intros H.
  assert ((R ← migrateSettings decimal_Number defaults_without_stop_hook
                 defaults_without_stop_hook;
           Some (prop (prop R "claudeCodeIntegration") "enhancedInputAutoPopup"))
          = Some (VStr "always")) as Hpopup by (vm_compute; reflexivity).
  rewrite H in Hpopup. vm_compute in Hpopup. discriminate Hpopup.
Qed.

Lemma migrate_settled (Number_of_string : string -> number) (P D : value) :
  (typed_defaults D = true -> truthy P = true ->
   exists R,
     migrateSettings Number_of_string P D = Some R /\
     migrateSettings Number_of_string R D = Some R) /\
  (validated D = true ->
   exists R,
     migrateSettings Number_of_string P D = Some R /\
     migrateSettings Number_of_string R D = Some R).
Proof.
  assert (forall Q, typed_defaults D = true -> truthy Q = true ->
            exists R, migrateSettings Number_of_string Q D = Some R /\
                      migrateSettings Number_of_string R D = Some R) as Htruthy.
  { intros Q (Hus & Hbg & Htr & Hpopup)%typed_defaults_fields HQ.
    destruct (migrateSettings_truthy Number_of_string Q D HQ Hus) as (c & Hc & HR).
    eexists. split; [exact HR|].
    by apply migrate_again. }
  split; [by apply Htruthy|].
  intros Hv. pose proof (validated_typed D Hv) as Ht.
  destruct (truthy P) eqn:HP; [by apply Htruthy|].
  exists D. split; [by apply migrateSettings_falsy|].
  destruct (Htruthy (VBool true) Ht eq_refl) as (R & HR & Hagain).
  rewrite (validated_unchanged Number_of_string D Hv) in HR. by injection HR as <-.
Qed.

(** C2: migration is idempotent on the defaults.  For every persisted input
    P, absent or of any type, and the initial state of the store as the
    defaults (on every host: any locale, platform and prompt texts),
    migrateSettings(migrateSettings(P, defaults), defaults) equals
    migrateSettings(P, defaults).  The same holds for every validated
    current state D in place of the defaults, and, when P is present
    (truthy), for every current state whose sanitized fields have their
    declared types. *)
Theorem migrate_idempotent (Number_of_string : string -> number) (P D : value) :
  (forall (language : string) (win32 : bool)
          (commitPrompt codeReviewPrompt branchNamePrompt : string),
     let defaults :=
       getInitialState language win32 commitPrompt codeReviewPrompt branchNamePrompt in
     exists R,
       migrateSettings Number_of_string P defaults = Some R /\
       migrateSettings Number_of_string R defaults = Some R) /\
  (validated D = true ->
   exists R,
     migrateSettings Number_of_string P D = Some R /\
     migrateSettings Number_of_string R D = Some R) /\
  (typed_defaults D = true -> truthy P = true ->
   exists R,
     migrateSettings Number_of_string P D = Some R /\
     migrateSettings Number_of_string R D = Some R).
Proof.
  split; [|split].
  - intros language win32 commitPrompt codeReviewPrompt branchNamePrompt defaults.
    apply (migrate_settled Number_of_string P defaults).
    apply initial_state_validated.
  - apply (migrate_settled Number_of_string P D).
  - apply (migrate_settled Number_of_string P D).
Qed.

Lemma migrate_idempotent_witness :
  (exists R,
     migrateSettings decimal_Number VUndef sample_defaults = Some R /\
     migrateSettings decimal_Number R sample_defaults = Some R) /\
  (exists R,
     migrateSettings decimal_Number persisted_foo_bar sample_defaults = Some R /\
     migrateSettings decimal_Number R sample_defaults = Some R) /\
  (exists R,
     migrateSettings decimal_Number persisted_foo_bar defaults_without_stop_hook = Some R /\
     migrateSettings decimal_Number R defaults_without_stop_hook = Some R).
Proof.
  split; [|split].
  - destruct (migrate_idempotent decimal_Number VUndef sample_defaults) as (_ & Hvalid & _).
    apply Hvalid. vm_compute. reflexivity.
  - destruct (migrate_idempotent decimal_Number persisted_foo_bar sample_defaults)
      as (Hinitial & _).
    apply (Hinitial "en" false "commit prompt" "review prompt" "branch prompt").
  - destruct (migrate_idempotent decimal_Number persisted_foo_bar
                defaults_without_stop_hook) as (_ & _ & Hpresent).
    apply Hpresent; vm_compute; reflexivity.
Defined.

(** * Further properties of the code *)

(** ** The storage adapter: writing and reading back *)

Lemma has_property_object (m : gmap string value) (k : string) :
  has_property (VObj m) k = true <-> is_Some (m !! k).
Proof. simpl. by rewrite bool_decide_eq_true. Qed.

(** X1: whatever the channel held, setItem(name, text) with a text that
    parses to [v] succeeds, and getItem(name) on what it wrote is
    JSON.stringify(v).  When the channel held no object, that is nothing yet
    (undefined, null or another falsy value, as on the first write) or a
    string, a number or true, the blob written holds [name] alone. *)
Theorem setItem_getItem (JSON_parse : string -> option value)
    (JSON_stringify : value -> value) (name text : string) (disk v : value) :
  JSON_parse text = Some v ->
  exists blob,
    setItem JSON_parse name text disk = Some (VObj blob) /\
    getItem JSON_stringify name (VObj blob) = JSON_stringify v /\
    (truthy disk = false \/ is_object_type disk = false -> blob = {[ name := v ]}).
Proof.
  intros Hparse. unfold setItem. rewrite Hparse. cbn [mbind option_bind].
  eexists. split; [reflexivity|]. split.
  - unfold getItem, in_object, read_member. cbn [truthy is_object_type typeof andb].
    assert (object_literal
              [ Spread match typeof (js_or disk (obj [])) with
                       | TObject => js_or disk (obj [])
                       | _ => obj []
                       end; Field name v ] !! name = Some v) as Hname.
    { rewrite lookup_object_literal. cbn [lookup_members]. by rewrite String.eqb_refl. }
    rewrite (proj2 (has_property_object _ _)) by (rewrite Hname; by eexists).
    cbn [orb]. by rewrite prop_object, Hname.
  - assert (object_literal [ Spread (obj []); Field name v ] = {[ name := v ]}) as Hempty.
    { unfold obj. rewrite object_literal_spread_field, list_to_map_nil.
      apply insert_empty. }
    unfold js_or, is_object_type. intros [Hfalsy|Htype].
    + rewrite Hfalsy. exact Hempty.
    + destruct (truthy disk); [|exact Hempty].
      destruct (typeof disk); try done; exact Hempty.
Qed.

Lemma setItem_getItem_witness :
  (exists blob,
     setItem sample_JSON_parse "enso-settings" "true" VUndef = Some (VObj blob) /\
     getItem (fun v => VStr "true") "enso-settings" (VObj blob) = VStr "true" /\
     blob = {[ "enso-settings" := VBool true ]}) /\
  (exists blob,
     setItem sample_JSON_parse "enso-settings" "true" (VStr "corrupt") = Some (VObj blob) /\
     blob = {[ "enso-settings" := VBool true ]}).
Proof.
  split.
  - destruct (setItem_getItem sample_JSON_parse (fun v => VStr "true") "enso-settings" "true"
                VUndef (VBool true) eq_refl) as (blob & Hset & Hget & Halone).
    exists blob. split; [exact Hset|]. split; [exact Hget|]. apply Halone. left. reflexivity.
  - destruct (setItem_getItem sample_JSON_parse (fun v => VStr "true") "enso-settings" "true"
                (VStr "corrupt") (VBool true) eq_refl) as (blob & Hset & _ & Halone).
    exists blob. split; [exact Hset|]. apply Halone. right. reflexivity.
Defined.

(** X2: after removeItem(name), a getItem(name) resolves to null for every
    name that Object.prototype does not define, whatever the channel held.
    For a name that Object.prototype defines, the test [name in data] of
    getItem holds of every object, and getItem resolves to JSON.stringify of
    the inherited member whenever the channel holds an object afterwards. *)
Theorem removeItem_getItem (JSON_stringify : value -> value) (name : string)
    (disk : value) :
  (name ∉ Object_prototype ->
   getItem JSON_stringify name (removeItem name disk) = VNull) /\
  (name ∈ Object_prototype -> truthy disk = false \/ is_object_type disk = true ->
   getItem JSON_stringify name (removeItem name disk)
   = JSON_stringify (inherited_member name)).
Proof.
  assert (forall m : gmap string value,
            getItem JSON_stringify name (VObj (delete name m))
            = if bool_decide (name ∈ Object_prototype)
              then JSON_stringify (inherited_member name) else VNull) as Hdel.
  { intros m. unfold getItem, in_object, read_member.
    cbn [truthy is_object_type typeof andb has_property].
    rewrite (bool_decide_eq_false_2 (is_Some _)); [done|].
    rewrite lookup_delete_eq. by intros [? ?]. }
  assert (exists m : gmap string value,
            truthy disk = false \/ is_object_type disk = true ->
            removeItem name disk = VObj (delete name m)) as [m Hm].
  { unfold removeItem, js_or, is_object_type.
    destruct (truthy disk) eqn:Ht.
    - destruct disk as [| |b|n|s|l|fields|f]; try discriminate Ht;
        cbn [typeof nullish];
        first [ eexists; intros _; reflexivity
              | exists ∅; by intros [?|?] ].
    - cbn [typeof obj nullish]. eexists. intros _. reflexivity. }
  split.
  - intros Hname.
    destruct (truthy disk) eqn:Ht; [destruct (is_object_type disk) eqn:Hty|].
    + rewrite Hm by by right. rewrite Hdel. by rewrite bool_decide_eq_false_2.
    + unfold removeItem, js_or. rewrite Ht. unfold is_object_type in Hty.
      destruct (typeof disk) eqn:E; try discriminate Hty;
        unfold getItem, is_object_type; rewrite Ht, E; reflexivity.
    + rewrite Hm by by left. rewrite Hdel. by rewrite bool_decide_eq_false_2.
  - intros Hname Hdisk. rewrite (Hm Hdisk), Hdel. by rewrite bool_decide_eq_true_2.
Qed.

Lemma removeItem_getItem_witness :
  getItem (fun v => VStr "true") "enso-settings"
    (removeItem "enso-settings" (obj [ ("enso-settings", VBool true) ])) = VNull /\
  getItem (fun v => match v with VFun _ => VUndef | _ => VStr "true" end) "toString"
    (removeItem "toString" (obj [ ("enso-settings", VBool true) ])) = VUndef.
Proof.
  split.
  - apply (removeItem_getItem (fun v => VStr "true") "enso-settings"). compute_done.
  - apply (removeItem_getItem
             (fun v => match v with VFun _ => VUndef | _ => VStr "true" end) "toString");
      [compute_done|right; reflexivity].
Defined.

(** X3: on a blob that does not hold [name], setItem(name) followed by
    removeItem(name) writes the blob back as it was; and removeItem is
    idempotent on every blob. *)
Theorem setItem_removeItem (JSON_parse : string -> option value)
    (name text : string) (B : gmap string value) (v : value) :
  JSON_parse text = Some v ->
  (B !! name = None ->
   exists blob, setItem JSON_parse name text (VObj B) = Some blob /\
                removeItem name blob = VObj B) /\
  removeItem name (removeItem name (VObj B)) = removeItem name (VObj B).
Proof.
  intros Hparse. split.
  - intros Hfresh. unfold setItem. rewrite Hparse. cbn -[object_literal].
    eexists. split; [reflexivity|].
    rewrite object_literal_spread_field.
    unfold removeItem. cbn -[object_literal]. f_equal.
    unfold object_literal. cbn [foldl add_member own_enumerable].
    rewrite (right_id_L ∅ (∪)). by rewrite delete_insert_id.
  - unfold removeItem. cbn -[object_literal]. f_equal.
    unfold object_literal. cbn [foldl add_member own_enumerable].
    rewrite !(right_id_L ∅ (∪)). by rewrite delete_delete_eq.
Qed.

Lemma setItem_removeItem_witness :
  exists blob,
    setItem sample_JSON_parse "enso-settings" "{}" (obj [ ("other-store", VBool true) ])
    = Some blob /\
    removeItem "enso-settings" blob = obj [ ("other-store", VBool true) ].
Proof.
  destruct (setItem_removeItem sample_JSON_parse "enso-settings" "{}"
              (list_to_map [ ("other-store", VBool true) ]) (obj []) eq_refl) as [H _].
  apply H. reflexivity.
Defined.

(** ** Cleaning up legacy fields *)

Lemma cleaned_state_absent (s : gmap string value) (f : string) :
  f ∈ legacyFields -> cleaned_state s !! f = None.
Proof.
  unfold legacyFields, cleaned_state. rewrite !elem_of_cons, elem_of_nil.
  intros [-> | [-> | [-> | []]]].
  - rewrite lookup_delete_ne by done. rewrite lookup_delete_ne by done.
    apply lookup_delete_eq.
  - rewrite lookup_delete_ne by done. apply lookup_delete_eq.
  - apply lookup_delete_eq.
Qed.

Lemma cleaned_state_other (s : gmap string value) (k : string) :
  k ∉ legacyFields -> cleaned_state s !! k = s !! k.
Proof.
  unfold legacyFields, cleaned_state. rewrite !not_elem_of_cons.
  intros (H1 & H2 & H3 & _). by rewrite !lookup_delete_ne by done.
Qed.

Lemma some_in_object (s : gmap string value) :
  some_in legacyFields (VObj s) = Some (existsb (has_property (VObj s)) legacyFields).
Proof.
  unfold legacyFields. cbn [some_in in_operator existsb].
  by repeat destruct (has_property (VObj s) _).
Qed.

Lemma legacy_present (s : gmap string value) :
  existsb (has_property (VObj s)) legacyFields = true
  <-> exists f, f ∈ legacyFields /\ is_Some (s !! f).
Proof.
  rewrite existsb_exists. split; intros (f & Hf & Hs); exists f.
  - by rewrite list_elem_of_In, <- has_property_object.
  - by rewrite <- list_elem_of_In, has_property_object.
Qed.

Lemma cleanup_layout (m e s : gmap string value) :
  m !! "enso-settings" = Some (VObj e) -> e !! "state" = Some (VObj s) ->
  cleanupLegacyFields (VObj m)
  = if existsb (has_property (VObj s)) legacyFields
    then Written (VObj (<["enso-settings" :=
                           VObj (<["state" := VObj (cleaned_state s)]> e)]> m))
    else NothingWritten.
Proof.
  intros Hm He. unfold cleanupLegacyFields.
  cbn [truthy is_object_type typeof andb]. rewrite prop_object, Hm. cbn [default from_option id].
  rewrite opt_prop_prop, prop_object, He. cbn [default from_option id truthy].
  rewrite some_in_object. by destruct (existsb _ _).
Qed.

(** X4: on a blob laid out as the persist middleware writes it, when the
    state holds one of the three legacy keybinding fields, cleanupLegacyFields
    writes the blob back with all three removed from the state and every
    other key of the state, of the store entry and of the blob as it was. *)
Theorem cleanup_removes_legacy (m e s : gmap string value) :
  m !! "enso-settings" = Some (VObj e) -> e !! "state" = Some (VObj s) ->
  (exists f, f ∈ legacyFields /\ is_Some (s !! f)) ->
  exists m' e' s',
    cleanupLegacyFields (VObj m) = Written (VObj m') /\
    m' !! "enso-settings" = Some (VObj e') /\ e' !! "state" = Some (VObj s') /\
    (forall f, f ∈ legacyFields -> s' !! f = None) /\
    (forall k, k ∉ legacyFields -> s' !! k = s !! k) /\
    (forall k, k <> "state" -> e' !! k = e !! k) /\
    (forall k, k <> "enso-settings" -> m' !! k = m !! k).
Proof.
  intros Hm He Hlegacy. rewrite (cleanup_layout m e s Hm He).
  rewrite (proj2 (legacy_present s) Hlegacy).
  eexists. eexists. exists (cleaned_state s). split; [reflexivity|].
  split; [by rewrite lookup_insert_eq|]. split; [by rewrite lookup_insert_eq|].
  split; [apply cleaned_state_absent|]. split; [apply cleaned_state_other|].
  split; intros k Hk; by rewrite lookup_insert_ne.
Qed.

Lemma cleanup_removes_legacy_witness :
  exists m',
    cleanupLegacyFields blob_with_legacy = Written (VObj m') /\
    prop (prop (prop (VObj m') "enso-settings") "state") "terminalKeybindings" = VUndef /\
    prop (prop (prop (VObj m') "enso-settings") "state") "theme" = VStr "dark" /\
    prop (VObj m') "other-store" = VBool true.
Proof.
  destruct (cleanup_removes_legacy
              (own_enumerable blob_with_legacy)
              (own_enumerable (prop blob_with_legacy "enso-settings"))
              (own_enumerable (prop (prop blob_with_legacy "enso-settings") "state"))
              eq_refl eq_refl)
    as (m' & e' & s' & Hw & Hm' & He' & Habsent & Hother & _ & Hblob).
  { exists "terminalKeybindings". split; [compute_done|]. by eexists. }
  exists m'. split; [exact Hw|].
  rewrite !prop_object, Hm'. cbn [default from_option id].
  rewrite !prop_object, He'. cbn [default from_option id]. rewrite !prop_object.
  rewrite (Habsent "terminalKeybindings") by compute_done.
  rewrite (Hother "theme") by compute_done.
  rewrite (Hblob "other-store") by done.
  split; [reflexivity|]. split; reflexivity.
Defined.

(** X5: cleanupLegacyFields writes nothing when there is nothing to clean: a
    blob without an enso-settings entry, an entry without a state, or a state
    without legacy fields; in particular a second cleanup after a first one
    writes nothing.  When the state is a string, a number or true, the [in]
    test throws and the promise rejects. *)
Theorem cleanup_writes_once (m e s : gmap string value) :
  (m !! "enso-settings" = None -> cleanupLegacyFields (VObj m) = NothingWritten) /\
  (m !! "enso-settings" = Some (VObj e) -> e !! "state" = None ->
   cleanupLegacyFields (VObj m) = NothingWritten) /\
  (m !! "enso-settings" = Some (VObj e) -> e !! "state" = Some (VObj s) ->
   (forall f, f ∈ legacyFields -> s !! f = None) ->
   cleanupLegacyFields (VObj m) = NothingWritten) /\
  (forall disk', cleanupLegacyFields (VObj m) = Written disk' ->
   m !! "enso-settings" = Some (VObj e) -> e !! "state" = Some (VObj s) ->
   cleanupLegacyFields disk' = NothingWritten) /\
  (forall x, m !! "enso-settings" = Some (VObj e) -> e !! "state" = Some x ->
   truthy x = true -> in_operator "terminalKeybindings" x = None ->
   cleanupLegacyFields (VObj m) = CleanupRejected).
Proof.
  assert (forall m0 e0 s0, m0 !! "enso-settings" = Some (VObj e0) ->
            e0 !! "state" = Some (VObj s0) ->
            (forall f, f ∈ legacyFields -> s0 !! f = None) ->
            cleanupLegacyFields (VObj m0) = NothingWritten) as Hclean.
  { intros m0 e0 s0 Hm He Hnone. rewrite (cleanup_layout m0 e0 s0 Hm He).
    destruct (existsb _ _) eqn:Hex; [|done].
    apply legacy_present in Hex as (f & Hf & Hs).
    rewrite (Hnone f Hf) in Hs. by destruct Hs. }
  split; [|split; [|split; [|split]]].
  - intros Hm. unfold cleanupLegacyFields. cbn [truthy is_object_type typeof andb].
    by rewrite prop_object, Hm.
  - intros Hm He. unfold cleanupLegacyFields. cbn [truthy is_object_type typeof andb].
    rewrite prop_object, Hm. cbn [default from_option id].
    by rewrite opt_prop_prop, prop_object, He.
  - apply Hclean.
  - intros disk' Hw Hm He. rewrite (cleanup_layout m e s Hm He) in Hw.
    destruct (existsb _ _); [|done]. injection Hw as <-.
    eapply Hclean; [by rewrite lookup_insert_eq|by rewrite lookup_insert_eq|].
    apply cleaned_state_absent.
  - intros x Hm He Hx Hin. unfold cleanupLegacyFields.
    cbn [truthy is_object_type typeof andb].
    rewrite prop_object, Hm. cbn [default from_option id].
    rewrite opt_prop_prop, prop_object, He. cbn [default from_option id]. rewrite Hx.
    unfold legacyFields. cbn [some_in]. by rewrite Hin.
Qed.

Lemma cleanup_writes_once_witness :
  exists disk',
    cleanupLegacyFields blob_with_legacy = Written disk' /\
    cleanupLegacyFields disk' = NothingWritten.
Proof.
  destruct (cleanup_removes_legacy
              (own_enumerable blob_with_legacy)
              (own_enumerable (prop blob_with_legacy "enso-settings"))
              (own_enumerable (prop (prop blob_with_legacy "enso-settings") "state"))
              eq_refl eq_refl) as (m' & _ & _ & Hw & _).
  { exists "terminalKeybindings". split; [compute_done|]. by eexists. }
  exists (VObj m'). split; [exact Hw|].
  destruct (cleanup_writes_once
              (own_enumerable blob_with_legacy)
              (own_enumerable (prop blob_with_legacy "enso-settings"))
              (own_enumerable (prop (prop blob_with_legacy "enso-settings") "state")))
    as (_ & _ & _ & Hagain & _).
  exact (Hagain (VObj m') Hw eq_refl eq_refl).
Defined.

(** ** Agent settings: which record is the default *)

Lemma settings_get_In (k : string) (c : AgentConfig) (l : list (string * AgentConfig)) :
  settings_get k l = Some c -> (k, c) ∈ l.
Proof.
  induction l as [|[k' c'] l IH]; simpl; [done|].
  destruct (String.eqb k' k) eqn:E.
  - intros [= ->]. apply String.eqb_eq in E as ->. by left.
  - intros H. right. by apply IH.
Qed.

Lemma settings_get_None (k : string) (l : list (string * AgentConfig)) :
  settings_get k l = None <-> k ∉ l.*1.
Proof.
  induction l as [|[k' c'] l IH]; simpl.
  - split; [intros _; apply not_elem_of_nil|done].
  - rewrite not_elem_of_cons. destruct (String.eqb k' k) eqn:E.
    + apply String.eqb_eq in E as ->. split; [done|]. by intros [? _].
    + apply String.eqb_neq in E. rewrite IH. split; [by intros ?|by intros [_ ?]].
Qed.

Lemma setAgentDefault_marks (agentId : string) (s : Store) :
  agentSettings (setAgentDefault agentId s) = mark_default agentId <$> agentSettings s.
Proof.
  rewrite setAgentDefault_settings. apply list_fmap_ext. by intros i [k c] _.
Qed.

Lemma default_agents_marked (agentId : string) (l : list (string * AgentConfig)) :
  NoDup l.*1 ->
  default_agents (mark_default agentId <$> l)
  = match settings_get agentId l with
    | Some c => [ mark_default agentId (agentId, c) ]
    | None => []
    end.
Proof.
  induction l as [|[k c] l IH]; [done|].
  rewrite !fmap_cons. cbn [fst]. intros [Hnotin Hnd]%NoDup_cons.
  specialize (IH Hnd). cbn [settings_get]. unfold default_agents in *.
  cbn [List.filter mark_default fst snd isDefault is_true default from_option id].
  destruct (String.eqb k agentId) eqn:E.
  - apply String.eqb_eq in E as ->.
    rewrite (proj2 (settings_get_None agentId l) Hnotin) in IH.
    f_equal. exact IH.
  - exact IH.
Qed.

(** X6: setAgentDefault(agentId) leaves the keys and the enabled flags of
    all records as they were; when [agentId] has a record, that record alone
    is the default afterwards; when it has none, no record is the default
    any more. *)
Theorem setAgentDefault_exact (ms : list mutation) (agentId : string) :
  let s := run_mutations ms initialStore in
  let s' := setAgentDefault agentId s in
  (agentSettings s').*1 = (agentSettings s).*1 /\
  (forall k, enabled <$> settings_get k (agentSettings s')
             = enabled <$> settings_get k (agentSettings s)) /\
  (forall c, settings_get agentId (agentSettings s) = Some c ->
     (default_agents (agentSettings s')).*1 = [agentId]) /\
  (settings_get agentId (agentSettings s) = None ->
     default_agents (agentSettings s') = []).
Proof.
  intros s s'. destruct (run_mutations_ok ms initialStore initialStore_ok) as [Hnd _].
  fold s in Hnd. split; [apply setAgentDefault_keys|]. split.
  - intros k. unfold s'. rewrite setAgentDefault_marks.
    induction (agentSettings s) as [|[k' c'] l IH]; [done|].
    rewrite fmap_cons. cbn [settings_get mark_default fst snd].
    destruct (String.eqb k' k); [done|]. apply IH. by apply NoDup_cons in Hnd as [_ ?].
  - unfold s'. rewrite setAgentDefault_marks, (default_agents_marked _ _ Hnd).
    split; [by intros c ->|by intros ->].
Qed.

Lemma setAgentDefault_exact_witness :
  (default_agents
     (agentSettings (setAgentDefault "codex" (run_mutations sample_mutations initialStore)))).*1
  = ["codex"] /\
  default_agents
    (agentSettings (setAgentDefault "unknown" (run_mutations sample_mutations initialStore)))
  = [].
Proof.
  split.
  - destruct (setAgentDefault_exact sample_mutations "codex") as (_ & _ & H & _).
    apply (H (agentConfig_record false false)). reflexivity.
  - destruct (setAgentDefault_exact sample_mutations "unknown") as (_ & _ & _ & H).
    apply H. reflexivity.
Defined.

Lemma default_agents_cons k c l :
  default_agents ((k, c) :: l) =
  if is_true (isDefault c) then (k, c) :: default_agents l else default_agents l.
Proof. reflexivity. Qed.

Lemma settings_delete_absent (k : string) (l : list (string * AgentConfig)) :
  settings_get k l = None -> settings_delete k l = l.
Proof.
  induction l as [|[k' c'] l IH]; simpl; [done|].
  destruct (String.eqb k' k); [done|]. intros H. by rewrite IH.
Qed.

Lemma settings_set_delete (k : string) (c : AgentConfig) (l : list (string * AgentConfig)) :
  settings_get k l = None -> settings_delete k (settings_set k c l) = l.
Proof.
  induction l as [|[k' c'] l IH]; simpl.
  - by rewrite String.eqb_refl.
  - destruct (String.eqb k' k) eqn:E; [done|]. intros H. simpl. by rewrite E, IH.
Qed.

Lemma settings_set_get (k : string) (c : AgentConfig) (l : list (string * AgentConfig)) :
  settings_get k (settings_set k c l) = Some c.
Proof.
  induction l as [|[k' c'] l IH]; simpl.
  - by rewrite String.eqb_refl.
  - destruct (String.eqb k' k) eqn:E; simpl; [by rewrite String.eqb_refl|by rewrite E].
Qed.

Lemma filter_other_agents (id : string) (l : list CustomAgent) :
  (forall a, a ∈ l -> agent_id a <> id) ->
  List.filter (fun a => negb (String.eqb (agent_id a) id)) l = l.
Proof.
  induction l as [|a l IH]; [done|]. intros H. simpl.
  destruct (String.eqb (agent_id a) id) eqn:E.
  - apply String.eqb_eq in E. destruct (H a); [by left|done].
  - simpl. rewrite IH; [done|]. intros b Hb. apply H. by right.
Qed.

(** X7: adding a custom agent whose id is new (no settings record and no
    custom agent with that id) and removing it again gives back the store
    exactly: records, their order, the custom agents and the default are as
    before. *)
Theorem addCustomAgent_removeCustomAgent (s : Store) (agent : CustomAgent) :
  settings_get (agent_id agent) (agentSettings s) = None ->
  (forall a, a ∈ customAgents s -> agent_id a <> agent_id agent) ->
  removeCustomAgent (agent_id agent) (addCustomAgent agent s) = s.
Proof.
  intros Hnew Hfresh. destruct s as [settings agents i o b br sa].
  cbn [agentSettings customAgents] in Hnew, Hfresh.
  unfold removeCustomAgent, addCustomAgent, set_agentSettings, set_customAgents.
  cbn [agentSettings customAgents backgroundRandomInterval backgroundOpacity
       backgroundBlur backgroundBrightness backgroundSaturation].
  rewrite settings_set_get. cbn [mbind option_bind isDefault is_true default from_option id].
  rewrite (settings_set_delete _ _ _ Hnew).
  f_equal. rewrite List.filter_app. cbn [List.filter].
  rewrite String.eqb_refl. cbn [negb]. rewrite app_nil_r.
  by apply filter_other_agents.
Qed.

Lemma addCustomAgent_removeCustomAgent_witness :
  removeCustomAgent (agent_id sample_agent) (addCustomAgent sample_agent initialStore)
  = initialStore.
Proof.
  apply addCustomAgent_removeCustomAgent.
  - reflexivity.
  - intros a Ha. cbn in Ha. by apply not_elem_of_nil in Ha.
Defined.

Lemma default_agents_set_only k c l :
  default_agents l = [] -> is_true (isDefault c) = true ->
  (default_agents (settings_set k c l)).*1 = [k].
Proof.
  intros Hnone Hc. induction l as [|[k' c'] l IH]; cbn [settings_set].
  - by rewrite default_agents_cons, Hc.
  - rewrite default_agents_cons in Hnone.
    destruct (is_true (isDefault c')) eqn:E'; [done|].
    destruct (String.eqb k' k).
    + by rewrite default_agents_cons, Hc, Hnone.
    + rewrite default_agents_cons, E'. by apply IH.
Qed.

Lemma settings_delete_fst (k : string) (l : list (string * AgentConfig)) :
  (settings_delete k l).*1 = List.filter (fun k' => negb (String.eqb k' k)) l.*1.
Proof.
  induction l as [|[k' c'] l IH]; [done|].
  cbn [settings_delete]. rewrite (fmap_cons fst (k', c') l). cbn [fst List.filter].
  destruct (String.eqb k' k); cbn [negb]; [exact IH|].
  rewrite fmap_cons. cbn [fst]. by rewrite IH.
Qed.

Lemma settings_set_fst_present (k : string) (c : AgentConfig) (l : list (string * AgentConfig)) :
  k ∈ l.*1 -> (settings_set k c l).*1 = l.*1.
Proof.
  induction l as [|[k' c'] l IH].
  - by intros ?%not_elem_of_nil.
  - cbn [settings_set]. rewrite (fmap_cons fst (k', c') l). cbn [fst].
    destruct (String.eqb k' k) eqn:E.
    + apply String.eqb_eq in E as ->. done.
    + apply String.eqb_neq in E. intros [?|H]%elem_of_cons; [congruence|].
      rewrite fmap_cons. cbn [fst]. by rewrite IH.
Qed.

Lemma find_enabled_key (l : list (string * AgentConfig)) k c :
  List.find (fun '(_, cfg) => is_true (enabled cfg)) l = Some (k, c) -> k ∈ l.*1.
Proof.
  intros H. apply find_some in H as [H _]. apply list_elem_of_In in H.
  apply (list_elem_of_fmap_2 fst) in H. exact H.
Qed.

(** X8: removing the custom agent that is the default hands the default to
    the first remaining agent that is enabled, and to no one when none is
    enabled; the remaining records keep their keys and their order.  First
    is meant in insertion order, which is the order of Object.entries when no
    agent id is made of digits (such ids are listed before the others). *)
Theorem removeCustomAgent_promotes (ms : list mutation) (id : string) (c : AgentConfig) :
  let s := run_mutations ms initialStore in
  Forall (fun k => digits_only k = false) (agentSettings s).*1 ->
  settings_get id (agentSettings s) = Some c ->
  is_true (isDefault c) = true ->
  let after := agentSettings (removeCustomAgent id s) in
  after.*1 = List.filter (fun k => negb (String.eqb k id)) (agentSettings s).*1 /\
  (default_agents after).*1 =
    match List.find (fun '(_, cfg) => is_true (enabled cfg))
                    (settings_delete id (agentSettings s)) with
    | Some (firstId, _) => [firstId]
    | None => []
    end.
Proof.
  intros s _ Hget Hdef after.
  destruct (run_mutations_ok ms initialStore initialStore_ok) as [Hnd Hcnt]. fold s in Hnd, Hcnt.
  unfold after. rewrite removeCustomAgent_settings. cbn zeta.
  rewrite Hget. cbn [mbind option_bind]. rewrite Hdef.
  assert (default_agents (settings_delete id (agentSettings s)) = []) as Hnone.
  { apply length_zero_iff_nil.
    pose proof (default_count_delete_default id c (agentSettings s) Hget Hdef) as H.
    unfold default_count in *. lia. }
  destruct (List.find _ (settings_delete id (agentSettings s))) as [[k cfg]|] eqn:Hfind.
  - split.
    + rewrite settings_set_fst_present by (by eapply find_enabled_key).
      apply settings_delete_fst.
    + by apply default_agents_set_only.
  - split; [apply settings_delete_fst|by rewrite Hnone].
Qed.

Lemma removeCustomAgent_promotes_witness :
  (default_agents
     (agentSettings (removeCustomAgent "my-agent" (run_mutations sample_mutations initialStore)))).*1
  = ["claude"].
Proof.
  assert (Forall (fun k => digits_only k = false)
            (agentSettings (run_mutations sample_mutations initialStore)).*1) as Hkeys
    by (vm_compute; repeat constructor).
  destruct (removeCustomAgent_promotes sample_mutations "my-agent" (agentConfig_record true true)
              Hkeys eq_refl eq_refl) as [_ H].
  exact H.
Defined.

Lemma default_agents_set_same k c l :
  is_true (isDefault c) = is_true (isDefault (spread_config (settings_get k l))) ->
  (default_agents (settings_set k c l)).*1 = (default_agents l).*1.
Proof.
  induction l as [|[k' c'] l IH]; cbn [settings_set settings_get].
  - intros Hc. rewrite default_agents_cons, Hc. done.
  - destruct (String.eqb k' k) eqn:E; intros Hc.
    + apply String.eqb_eq in E as ->.
      rewrite !default_agents_cons, Hc. cbn [spread_config default from_option id].
      by destruct (is_true (isDefault c')).
    + rewrite !default_agents_cons. destruct (is_true (isDefault c')); cbn [fmap list_fmap fst];
        by rewrite IH.
Qed.

(** X9: setAgentEnabled and setAgentCustomConfig never move the default: the
    ids of the default records are the same before and after.  So disabling
    the default agent leaves it the default, now disabled. *)
Theorem default_not_moved (s : Store) (agentId : string) (isEnabled : bool)
    (config : CustomConfig) :
  (default_agents (agentSettings (setAgentEnabled agentId isEnabled s))).*1
    = (default_agents (agentSettings s)).*1 /\
  (default_agents (agentSettings (setAgentCustomConfig agentId config s))).*1
    = (default_agents (agentSettings s)).*1 /\
  (forall c, settings_get agentId (agentSettings s) = Some c ->
     is_true (isDefault c) = true ->
     exists c', settings_get agentId (agentSettings (setAgentEnabled agentId false s)) = Some c'
                /\ is_true (isDefault c') = true /\ enabled c' = Some false).
Proof.
  split; [by apply default_agents_set_same|]. split; [by apply default_agents_set_same|].
  intros c Hget Hdef. unfold setAgentEnabled, set_agentSettings. cbn [agentSettings].
  rewrite settings_set_get, Hget. eexists. split; [reflexivity|]. split; [exact Hdef|reflexivity].
Qed.

Lemma default_not_moved_witness :
  exists c', settings_get "claude" (agentSettings (setAgentEnabled "claude" false initialStore))
             = Some c'
             /\ is_true (isDefault c') = true /\ enabled c' = Some false.
Proof.
  destruct (default_not_moved initialStore "claude" false
              {| cfg_customPath := None; cfg_customArgs := None |}) as (_ & _ & H).
  exact (H (agentConfig_record true true) eq_refl eq_refl).
Defined.

(** ** Favorites, log retention, prompt presets *)

Lemma includes_theme_spec (favorites : list string) (theme : string) :
  includes_theme favorites theme = true <-> theme ∈ favorites.
Proof.
  unfold includes_theme. rewrite existsb_exists. split.
  - intros (x & Hin & ->%String.eqb_eq). by apply list_elem_of_In.
  - intros Hin. exists theme. split; [by apply list_elem_of_In|apply String.eqb_refl].
Qed.

Lemma filter_other_themes (theme t : string) (favorites : list string) :
  t ∈ List.filter (fun t => negb (String.eqb t theme)) favorites
  <-> t <> theme /\ t ∈ favorites.
Proof.
  rewrite !list_elem_of_In, filter_In, negb_true_iff, String.eqb_neq. tauto.
Qed.

Lemma filter_themes_NoDup (theme : string) (favorites : list string) :
  NoDup favorites -> NoDup (List.filter (fun t => negb (String.eqb t theme)) favorites).
Proof.
  intros H. apply NoDup_ListNoDup. apply List.NoDup_filter. by apply NoDup_ListNoDup.
Qed.

Lemma filter_absent_theme (theme : string) (favorites : list string) :
  theme ∉ favorites ->
  List.filter (fun t => negb (String.eqb t theme)) favorites = favorites.
Proof.
  induction favorites as [|t l IH]; [done|].
  intros [Hne Hl]%not_elem_of_cons. cbn [List.filter].
  apply not_eq_sym, String.eqb_neq in Hne. rewrite Hne. cbn [negb]. by rewrite IH.
Qed.

(** X10: which themes are favorites after each of the three setters: add
    puts the theme in, remove takes it out, toggle flips it, and no other
    theme is touched. *)
Theorem favorites_membership (theme t : string) (favorites : list string) :
  (t ∈ addFavoriteTerminalTheme theme favorites <-> t = theme \/ t ∈ favorites) /\
  (t ∈ removeFavoriteTerminalTheme theme favorites <-> t <> theme /\ t ∈ favorites) /\
  (t ∈ toggleFavoriteTerminalTheme theme favorites <->
     (t = theme /\ theme ∉ favorites) \/ (t <> theme /\ t ∈ favorites)).
Proof.
  unfold addFavoriteTerminalTheme, removeFavoriteTerminalTheme, toggleFavoriteTerminalTheme.
  destruct (includes_theme favorites theme) eqn:E.
  - apply includes_theme_spec in E. rewrite filter_other_themes.
    split; [|split; [done|]].
    + split; [by right|]. by intros [->|?].
    + split; [by right|]. by intros [[_ ?]|?].
  - assert (theme ∉ favorites) as Hnot.
    { intros Hin%includes_theme_spec. congruence. }
    rewrite filter_other_themes, elem_of_app, list_elem_of_singleton.
    split; [tauto|]. split; [done|]. split.
    + intros [Hin| ->]; [|by left]. right. split; [|done]. by intros ->.
    + intros [[-> _]|[_ ?]]; [by right|by left].
Qed.

Lemma favorites_membership_witness :
  "Nord" ∈ toggleFavoriteTerminalTheme "Nord" ["Dracula"] /\
  "Dracula" ∉ toggleFavoriteTerminalTheme "Dracula" ["Dracula"].
Proof.
  split.
  - apply (favorites_membership "Nord" "Nord" ["Dracula"]). left.
    split; [reflexivity|]. intros H%list_elem_of_singleton. discriminate.
  - intros H. apply (favorites_membership "Dracula" "Dracula" ["Dracula"]) in H.
    destruct H as [[_ H]|[H _]]; [|done]. apply H. by apply list_elem_of_singleton.
Defined.

(** X11: the list of favorites stays free of duplicates under the three
    setters; adding a favorite a second time changes nothing; adding a theme
    that was not a favorite and removing it (or toggling it twice) gives
    back the list as it was. *)
Theorem favorites_no_duplicates (theme : string) (favorites : list string) :
  NoDup favorites ->
  NoDup (addFavoriteTerminalTheme theme favorites) /\
  NoDup (removeFavoriteTerminalTheme theme favorites) /\
  NoDup (toggleFavoriteTerminalTheme theme favorites) /\
  addFavoriteTerminalTheme theme (addFavoriteTerminalTheme theme favorites)
    = addFavoriteTerminalTheme theme favorites /\
  (theme ∉ favorites ->
     removeFavoriteTerminalTheme theme (addFavoriteTerminalTheme theme favorites) = favorites /\
     toggleFavoriteTerminalTheme theme (toggleFavoriteTerminalTheme theme favorites) = favorites).
Proof.
  intros Hnd.
  assert (NoDup (favorites ++ [theme]) \/ includes_theme favorites theme = true) as Happ.
  { destruct (includes_theme favorites theme) eqn:E; [by right|]. left.
    apply NoDup_app. split; [done|]. split; [|apply NoDup_singleton].
    intros x Hx ->%list_elem_of_singleton. apply includes_theme_spec in Hx. congruence. }
  assert (includes_theme (favorites ++ [theme]) theme = true) as Hadded.
  { apply includes_theme_spec, elem_of_app. right. by apply list_elem_of_singleton. }
  unfold addFavoriteTerminalTheme, removeFavoriteTerminalTheme, toggleFavoriteTerminalTheme.
  split; [|split; [|split; [|split]]].
  - destruct Happ as [?|E]; [by destruct (includes_theme favorites theme)|by rewrite E].
  - by apply filter_themes_NoDup.
  - destruct Happ as [?|E];
      [destruct (includes_theme favorites theme); [by apply filter_themes_NoDup|done]
      |rewrite E; by apply filter_themes_NoDup].
  - destruct (includes_theme favorites theme) eqn:E; [by rewrite E|by rewrite Hadded].
  - intros Hnot.
    assert (includes_theme favorites theme = false) as E.
    { apply not_true_iff_false. by rewrite includes_theme_spec. }
    rewrite E, Hadded, List.filter_app. cbn [List.filter].
    rewrite String.eqb_refl. cbn [negb]. rewrite app_nil_r.
    by rewrite (filter_absent_theme _ _ Hnot).
Qed.

Lemma favorites_no_duplicates_witness :
  removeFavoriteTerminalTheme "Nord" (addFavoriteTerminalTheme "Nord" ["Dracula"])
    = ["Dracula"] /\
  toggleFavoriteTerminalTheme "Nord" (toggleFavoriteTerminalTheme "Nord" ["Dracula"])
    = ["Dracula"].
Proof.
  assert (NoDup ["Dracula"]) as Hnd by apply NoDup_singleton.
  destruct (favorites_no_duplicates "Nord" ["Dracula"] Hnd) as (_ & _ & _ & _ & H).
  apply H. intros Hin%list_elem_of_singleton. discriminate.
Defined.

Lemma num_leb_Z (a b : Z) :
  num_leb (Finite (inject_Z a)) (Finite (inject_Z b)) = true <-> (a <= b)%Z.
Proof. cbn [num_leb]. by rewrite Qle_bool_iff, <- Zle_Qle. Qed.

Lemma num_ltb_Z (a b : Z) :
  num_ltb (Finite (inject_Z a)) (Finite (inject_Z b)) = true <-> (a < b)%Z.
Proof.
  cbn [num_ltb]. rewrite negb_true_iff, <- not_true_iff_false, num_leb_Z. lia.
Qed.

Lemma setLogRetentionDays_floor (q : Q) :
  setLogRetentionDays (Finite q)
  = Finite (inject_Z (Z.min 30 (Z.max 1 (Qfloor q)))).
Proof.
  change (setLogRetentionDays (Finite q))
    with (clamp_to (Finite (inject_Z 1)) (Finite (inject_Z 30)) (Finite (inject_Z (Qfloor q)))).
  assert (num_leb (Finite (inject_Z 1)) (Finite (inject_Z 30)) = true) as Hmm by by apply num_leb_Z.
  destruct (Z_lt_le_dec (Qfloor q) 1) as [Hlo|Hlo].
  - rewrite clamp_to_below; [|done|by apply num_ltb_Z]. do 2 f_equal. lia.
  - destruct (Z_lt_le_dec 30 (Qfloor q)) as [Hhi|Hhi].
    + rewrite clamp_to_above; [|done|by apply num_ltb_Z]. do 2 f_equal. lia.
    + rewrite clamp_to_inside; [|by apply num_leb_Z|by apply num_leb_Z]. do 2 f_equal. lia.
Qed.

(** X12: setLogRetentionDays stores, for a finite argument, the whole number
    of days in 1..30 nearest to the argument rounded down: floor(q) when
    1 <= q < 31, 1 below that and 30 above; +Infinity gives 30 and -Infinity
    gives 1.  For NaN it stores NaN: that argument is not clamped. *)
Theorem setLogRetentionDays_spec (n : number) :
  match n with
  | NaN => setLogRetentionDays n = NaN
  | PosInf => setLogRetentionDays n = Finite 30
  | NegInf => setLogRetentionDays n = Finite 1
  | Finite q =>
      exists days : Z,
        setLogRetentionDays n = Finite (inject_Z days) /\ (1 <= days <= 30)%Z /\
        ((1 <= q)%Q -> (q < 31)%Q -> days = Qfloor q) /\
        ((q < 1)%Q -> days = 1%Z) /\
        ((31 <= q)%Q -> days = 30%Z)
  end.
Proof.
  destruct n as [| |q|]; try reflexivity.
  exists (Z.min 30 (Z.max 1 (Qfloor q))). split; [apply setLogRetentionDays_floor|].
  split; [lia|].
  pose proof (Qfloor_le q) as Hle. pose proof (Qlt_floor q) as Hlt.
  split; [|split].
  - intros H1 H31.
    assert (1 <= Qfloor q)%Z.
    { change 1%Z with (Qfloor (inject_Z 1)). by apply Qfloor_resp_le. }
    assert (Qfloor q < 31)%Z.
    { rewrite Zlt_Qlt. eapply Qle_lt_trans; [exact Hle|exact H31]. }
    lia.
  - intros H1.
    assert (Qfloor q < 1)%Z.
    { rewrite Zlt_Qlt. eapply Qle_lt_trans; [exact Hle|exact H1]. }
    lia.
  - intros H31.
    assert (31 <= Qfloor q)%Z.
    { change 31%Z with (Qfloor (inject_Z 31)). by apply Qfloor_resp_le. }
    lia.
Qed.

Lemma setLogRetentionDays_spec_witness :
  exists days : Z,
    setLogRetentionDays (Finite (15 # 2)) = Finite (inject_Z days) /\ days = 7%Z.
Proof.
  destruct (setLogRetentionDays_spec (Finite (15 # 2))) as (days & Hset & _ & Hin & _).
  exists days. split; [exact Hset|].
  apply Hin; [discriminate|reflexivity].
Defined.

(** X13: setPromptPresetEnabled(id) keeps the presets, their order and their
    other fields, and leaves enabled exactly the presets whose id is [id]:
    at most one when ids are distinct, none when no preset has that id. *)
Theorem setPromptPresetEnabled_spec (id : string) (promptPresets : list PromptPreset) :
  let after := setPromptPresetEnabled id promptPresets in
  preset_id <$> after = preset_id <$> promptPresets /\
  preset_rest <$> after = preset_rest <$> promptPresets /\
  (forall p, p ∈ after -> preset_enabled p = true <-> preset_id p = id) /\
  (NoDup (preset_id <$> promptPresets) ->
     (length (List.filter preset_enabled after) <= 1)%nat) /\
  (id ∉ preset_id <$> promptPresets ->
     List.filter preset_enabled after = []).
Proof.
  intros after. unfold after, setPromptPresetEnabled.
  split; [|split; [|split; [|split]]].
  - rewrite <- list_fmap_compose. by apply list_fmap_ext.
  - rewrite <- list_fmap_compose. by apply list_fmap_ext.
  - intros p (q & -> & _)%list_elem_of_fmap. cbn [preset_enabled preset_id].
    apply String.eqb_eq.
  - induction promptPresets as [|p l IH]; [cbn; lia|].
    rewrite !fmap_cons. intros [Hnotin Hnd]%NoDup_cons.
    cbn [List.filter preset_enabled]. destruct (String.eqb (preset_id p) id) eqn:E.
    + apply String.eqb_eq in E. rewrite <- E in *.
      cbn [length]. clear IH.
      assert (List.filter preset_enabled
                ((fun p0 => {| preset_id := preset_id p0;
                               preset_enabled := String.eqb (preset_id p0) (preset_id p);
                               preset_rest := preset_rest p0 |}) <$> l) = []) as ->; [|done].
      clear Hnd. induction l as [|q l IH]; [done|].
      rewrite fmap_cons in Hnotin. apply not_elem_of_cons in Hnotin as [Hne Hnotin].
      rewrite fmap_cons. cbn [List.filter preset_enabled].
      apply not_eq_sym, String.eqb_neq in Hne. rewrite Hne. by apply IH.
    + by apply IH.
  - induction promptPresets as [|q l IH]; [done|].
    rewrite !fmap_cons. intros [Hne Hnotin]%not_elem_of_cons.
    cbn [List.filter preset_enabled].
    apply not_eq_sym, String.eqb_neq in Hne. rewrite Hne. by apply IH.
Qed.

Lemma setPromptPresetEnabled_spec_witness :
  List.filter preset_enabled (setPromptPresetEnabled "missing" sample_presets) = [] /\
  (length (List.filter preset_enabled (setPromptPresetEnabled "terse" sample_presets)) <= 1)%nat.
Proof.
  split.
  - destruct (setPromptPresetEnabled_spec "missing" sample_presets) as (_ & _ & _ & _ & H).
    apply H. compute_done.
  - destruct (setPromptPresetEnabled_spec "terse" sample_presets) as (_ & _ & _ & H & _).
    apply H. compute_done.
Defined.

(** ** The todo store *)

Lemma max_order_bounds (f : TodoTask -> Z) (l : list TodoTask) (a : Z) :
  let m := foldl (fun max t => Z.max max (f t)) a l in
  (a <= m)%Z /\ (forall t, t ∈ l -> (f t <= m)%Z) /\
  (m = a \/ exists t, t ∈ l /\ m = f t).
Proof.
  revert a. induction l as [|x l IH]; intros a; cbn [foldl].
  - split; [lia|]. split; [|by left]. by intros t ?%not_elem_of_nil.
  - destruct (IH (Z.max a (f x))) as (Hge & Hall & Hpick). cbn zeta in *.
    split; [etrans; [|exact Hge]; lia|]. split.
    + intros t [->|Hin]%elem_of_cons; [etrans; [|exact Hge]; lia|by apply Hall].
    + destruct Hpick as [Heq|(t & Hin & Heq)].
      * rewrite Heq. destruct (Z.max_spec a (f x)) as [[_ Hm]|[_ Hm]]; rewrite Hm.
        -- right. exists x. split; [by left|done].
        -- by left.
      * right. exists t. split; [by right|done].
Qed.

(** X14: addTask puts the new task at the end of the repository's list (a
    list that did not exist counts as empty) and sends one addTask request
    carrying it; the lists of other repositories are untouched.  When the
    orders in the task's column are safe integers, its order is 0 in an empty
    column, otherwise one more than the largest order in its column, or 0
    when that is negative.  This is stated for a repository that has a list
    or whose key is not the name of a member of Object.prototype (the read
    tasks[key] would find that member). *)
Theorem addTask_order (normalizePath : string -> string) (repoPath : string)
    (taskData : TaskData) (uuid : string) (created updated : Z) (s : TodoStore) :
  is_Some (tasks s !! normalizePath repoPath) \/ normalizePath repoPath ∉ Object_prototype ->
  let result := addTask normalizePath repoPath taskData uuid created updated s in
  let newTask := result.2 in
  let before := selectTasks normalizePath s repoPath in
  let inColumn := column (data_status taskData) before in
  selectTasks normalizePath result.1 repoPath = before ++ [newTask] /\
  sent result.1 = sent s ++ [AddTask (normalizePath repoPath) newTask] /\
  (forall other, normalizePath other <> normalizePath repoPath ->
     selectTasks normalizePath result.1 other = selectTasks normalizePath s other) /\
  ((forall t, t ∈ inColumn -> safe_integer (task_order t)) ->
   safe_integer (task_order newTask - 1) /\
   (0 <= task_order newTask)%Z /\
   (forall t, t ∈ inColumn -> (task_order t < task_order newTask)%Z) /\
   (inColumn = [] -> task_order newTask = 0%Z) /\
   (task_order newTask = 0%Z \/
    exists t, t ∈ inColumn /\ task_order newTask = (task_order t + 1)%Z)).
Proof.
  intros _ result newTask before inColumn.
  assert (task_order newTask
          = (foldl (fun max t => Z.max max (task_order t)) (-1) inColumn + 1)%Z) as Hord
    by reflexivity.
  destruct (max_order_bounds task_order inColumn (-1)) as (Hge & Hall & Hpick).
  cbn zeta in Hge, Hall, Hpick. rewrite Hord.
  generalize dependent (foldl (fun max t => Z.max max (task_order t)) (-1)%Z inColumn).
  intros maxOrder _ Hge Hall Hpick.
  split; [|split; [done|split]].
  { unfold result, newTask, addTask, selectTasks, getKey, set_tasks, send.
    cbn [fst snd tasks]. by rewrite lookup_insert_eq. }
  { intros other Hother.
    unfold result, addTask, selectTasks, getKey, set_tasks, send.
    cbn [fst snd tasks]. by rewrite lookup_insert_ne. }
  intros Hsafe. split.
  { destruct Hpick as [->|(t & Hin & ->)].
    - unfold safe_integer. cbn. lia.
    - specialize (Hsafe t Hin). unfold safe_integer in *. 
      replace (task_order t + 1 - 1)%Z with (task_order t) by lia. exact Hsafe. }
  split; [lia|]. split.
  { intros t Hin. specialize (Hall t Hin). lia. }
  split.
  { intros Hempty. rewrite Hempty in Hpick.
    destruct Hpick as [->|(t & Hin & _)]; [done|]. by apply not_elem_of_nil in Hin. }
  destruct Hpick as [->|(t & Hin & ->)]; [by left|]. right. by exists t.
Qed.

Lemma addTask_order_witness :
  task_order
    (addTask (fun p => p) "/repo" sample_task_data "d" 1700000000001 1700000000002
             sample_todo_store).2 = 2%Z.
Proof.
  assert (is_Some (tasks sample_todo_store !! "/repo")) as Hlist by (by eexists).
  destruct (addTask_order (fun p => p) "/repo" sample_task_data "d"
              1700000000001 1700000000002 sample_todo_store (or_introl Hlist))
    as (_ & _ & _ & Horder).
  destruct Horder as (_ & _ & Hlt & _ & [H0|(t & Hin & Ht)]).
  - intros t Ht. apply list_elem_of_In in Ht. cbn in Ht.
    destruct Ht as [<-|[<-|[]]]; unfold safe_integer; cbn; lia.
  - specialize (Hlt (sample_task "c" "todo" 1)).
    exfalso. cut (1 < 0)%Z; [lia|]. rewrite <- H0. apply Hlt.
    vm_compute. right. left.
  - reflexivity.
Defined.

(** X15: updateTask, deleteTask, moveTask and reorderTasks do nothing for a
    repository the store holds no list for: the state is unchanged and no
    request is sent.  addTask is different: it creates the list with the new
    task alone and sends its request.  This is stated for a key that is not
    the name of a member of Object.prototype; for such a name the read
    tasks[key] finds the inherited member instead of nothing. *)
Theorem edits_need_a_task_list (normalizePath : string -> string) (repoPath : string)
    (s : TodoStore) (taskId status : string) (updates : TaskUpdates)
    (order now : Z) (orderedIds : list string)
    (taskData : TaskData) (uuid : string) (created updated : Z) :
  normalizePath repoPath ∉ Object_prototype ->
  tasks s !! normalizePath repoPath = None ->
  updateTask normalizePath repoPath taskId updates now s = s /\
  deleteTask normalizePath repoPath taskId s = s /\
  moveTask normalizePath repoPath taskId status order now s = s /\
  reorderTasks normalizePath repoPath status orderedIds now s = s /\
  let added := addTask normalizePath repoPath taskData uuid created updated s in
  tasks added.1 !! normalizePath repoPath = Some [added.2] /\
  task_order added.2 = 0%Z /\
  sent added.1 = sent s ++ [AddTask (normalizePath repoPath) added.2].
Proof.
  intros _ Hnone.
  unfold updateTask, deleteTask, moveTask, reorderTasks, addTask, getKey.
  rewrite Hnone. cbn [fst snd tasks sent set_tasks send default from_option id task_order].
  rewrite lookup_insert_eq. done.
Qed.

Lemma edits_need_a_task_list_witness :
  deleteTask (fun p => p) "/other" "a" sample_todo_store = sample_todo_store.
Proof.
  assert ("/other" ∉ Object_prototype) as Hkey by compute_done.
  destruct (edits_need_a_task_list (fun p => p) "/other" sample_todo_store "a" "todo"
              {| new_title := None; new_description := None;
                 new_priority := None; new_status := None |}
              0 0 [] sample_task_data "d" 0 0 Hkey eq_refl) as (_ & H & _).
  exact H.
Defined.

Lemma filter_other_tasks (taskId : string) (l : list TodoTask) :
  (forall t, t ∈ l -> task_id t <> taskId) ->
  List.filter (fun t => negb (String.eqb (task_id t) taskId)) l = l.
Proof.
  induction l as [|a l IH]; [done|]. intros H. cbn [List.filter].
  destruct (String.eqb (task_id a) taskId) eqn:E.
  - apply String.eqb_eq in E. destruct (H a); [by left|done].
  - cbn [negb]. rewrite IH; [done|]. intros b Hb. apply H. by right.
Qed.

Lemma filter_sublist_of {A} (f : A -> bool) (l : list A) :
  List.filter f l `sublist_of` l.
Proof.
  induction l as [|a l IH]; [constructor|]. cbn [List.filter].
  destruct (f a); [by apply sublist_skip|by apply sublist_cons].
Qed.

(** X16: deleteTask removes every task with the given id from the
    repository's list and keeps the others in their order; deleting the task
    addTask has just added, when its id was not in use, gives back the list
    as it was before the addition. *)
Theorem deleteTask_spec (normalizePath : string -> string) (repoPath taskId : string)
    (s : TodoStore) (l : list TodoTask)
    (taskData : TaskData) (uuid : string) (created updated : Z) :
  tasks s !! normalizePath repoPath = Some l ->
  let after := selectTasks normalizePath (deleteTask normalizePath repoPath taskId s) repoPath in
  (forall t, t ∈ after <-> t ∈ l /\ task_id t <> taskId) /\
  after `sublist_of` l /\
  ((forall t, t ∈ l -> task_id t <> uuid) ->
   selectTasks normalizePath
     (deleteTask normalizePath repoPath uuid
        (addTask normalizePath repoPath taskData uuid created updated s).1) repoPath = l).
Proof.
  intros Hl after. unfold after, selectTasks, deleteTask, addTask, getKey.
  cbn [fst]. unfold send, set_tasks. cbn [tasks].
  rewrite Hl, !lookup_insert_eq. cbn [tasks default from_option id].
  rewrite !lookup_insert_eq. cbn [default from_option id].
  split; [|split].
  - intros t. rewrite !list_elem_of_In, filter_In, negb_true_iff, String.eqb_neq. tauto.
  - apply filter_sublist_of.
  - intros Hfresh. rewrite List.filter_app. cbn [List.filter task_id].
    rewrite String.eqb_refl. cbn [negb]. rewrite app_nil_r.
    by apply filter_other_tasks.
Qed.

Lemma deleteTask_spec_witness :
  selectTasks (fun p => p)
    (deleteTask (fun p => p) "/repo" "d"
       (addTask (fun p => p) "/repo" sample_task_data "d" 1700000000001 1700000000002
                sample_todo_store).1) "/repo"
  = [ sample_task "a" "todo" 0; sample_task "b" "done" 0; sample_task "c" "todo" 1 ].
Proof.
  destruct (deleteTask_spec (fun p => p) "/repo" "a" sample_todo_store
              [ sample_task "a" "todo" 0; sample_task "b" "done" 0; sample_task "c" "todo" 1 ]
              sample_task_data "d" 1700000000001 1700000000002 eq_refl) as (_ & _ & H).
  apply H. intros t Ht. apply list_elem_of_In in Ht. cbn in Ht.
  destruct Ht as [<-|[<-|[<-|[]]]]; discriminate.
Defined.

Lemma order_map_snoc (l : list string) (x : string) :
  order_map (l ++ [x]) = <[x := Z.of_nat (length l)]> (order_map l).
Proof.
  unfold order_map. rewrite imap_app, foldl_app. cbn [imap foldl fst snd].
  by rewrite Nat.add_0_r.
Qed.

Lemma order_map_absent (ids : list string) (id : string) :
  id ∉ ids -> order_map ids !! id = None.
Proof.
  induction ids as [|x l IH] using rev_ind; [done|].
  rewrite order_map_snoc. intros Hnot. rewrite not_elem_of_app in Hnot.
  destruct Hnot as [Hl Hx]. rewrite list_elem_of_singleton in Hx.
  rewrite lookup_insert_ne by done. by apply IH.
Qed.

Lemma order_map_last (ids : list string) (id : string) (pos : nat) :
  ids !! pos = Some id ->
  (forall later, (pos < later)%nat -> ids !! later <> Some id) ->
  order_map ids !! id = Some (Z.of_nat pos).
Proof.
  revert pos. induction ids as [|x l IH] using rev_ind; [done|].
  intros pos Hpos Hlast. rewrite order_map_snoc.
  pose proof (lookup_lt_Some _ _ _ Hpos) as Hlen. rewrite length_app in Hlen. cbn in Hlen.
  destruct (decide (x = id)) as [->|Hne].
  - rewrite lookup_insert_eq. do 2 f_equal.
    destruct (decide (pos = length l)) as [->|Hpl]; [done|].
    destruct (Hlast (length l)); [lia|]. by rewrite list_lookup_middle.
  - rewrite lookup_insert_ne by done.
    assert (pos < length l)%nat as Hlt.
    { destruct (decide (pos = length l)) as [->|Hpl]; [|lia].
      rewrite list_lookup_middle in Hpos by done. congruence. }
    apply IH.
    + by rewrite lookup_app_l in Hpos.
    + intros later Hlater Hl. apply (Hlast later Hlater).
      by apply lookup_app_l_Some.
Qed.

(** X17: reorderTasks keeps the tasks of the repository in their places in
    the list and with their ids and statuses.  A task of the column [status]
    whose id is listed gets as order the last position of its id in
    orderedIds and the time stamp [now]; a task of another column, or one
    not listed, is left exactly as it was. *)
Theorem reorderTasks_positions (normalizePath : string -> string)
    (repoPath status : string) (orderedIds : list string) (now : Z)
    (s : TodoStore) (l : list TodoTask) :
  tasks s !! normalizePath repoPath = Some l ->
  let after :=
    selectTasks normalizePath
      (reorderTasks normalizePath repoPath status orderedIds now s) repoPath in
  length after = length l /\
  forall i t, l !! i = Some t ->
    exists t', after !! i = Some t' /\
      task_id t' = task_id t /\ task_status t' = task_status t /\
      (forall pos, task_status t = status ->
         orderedIds !! pos = Some (task_id t) ->
         (forall later, (pos < later)%nat -> orderedIds !! later <> Some (task_id t)) ->
         task_order t' = Z.of_nat pos /\ task_updatedAt t' = now) /\
      (task_status t <> status \/ task_id t ∉ orderedIds -> t' = t).
Proof.
  intros Hl after.
  assert (after = reorder_task status (order_map orderedIds) now <$> l) as ->.
  { unfold after, selectTasks, reorderTasks, getKey. rewrite Hl.
    unfold send, set_tasks. cbn [tasks]. by rewrite lookup_insert_eq. }
  split; [apply length_fmap|].
  intros i t Hi. exists (reorder_task status (order_map orderedIds) now t).
  split; [by rewrite list_lookup_fmap, Hi|].
  unfold reorder_task.
  destruct (String.eqb (task_status t) status) eqn:Est; cbn [andb].
  - apply String.eqb_eq in Est.
    destruct (order_map orderedIds !! task_id t) as [z|] eqn:Hz.
    + rewrite bool_decide_eq_true_2 by done. cbn [task_id task_status task_order task_updatedAt].
      split; [done|]. split; [done|]. split.
      * intros pos _ Hpos Hlast.
        rewrite (order_map_last _ _ _ Hpos Hlast) in Hz. injection Hz as <-. done.
      * intros [Hne|Hnot]; [done|]. rewrite (order_map_absent _ _ Hnot) in Hz. done.
    + rewrite bool_decide_eq_false_2 by (by intros [? ?]).
      split; [done|]. split; [done|]. split; [|done].
      intros pos _ Hpos Hlast. rewrite (order_map_last _ _ _ Hpos Hlast) in Hz. done.
  - apply String.eqb_neq in Est. split; [done|]. split; [done|]. split; [|done].
    intros pos Heq. done.
Qed.

Lemma reorderTasks_positions_witness :
  exists t',
    selectTasks (fun p => p)
      (reorderTasks (fun p => p) "/repo" "todo" ["c"; "a"] 1700000000005 sample_todo_store)
      "/repo" !! 2%nat = Some t'
    /\ task_order t' = 0%Z /\ task_updatedAt t' = 1700000000005%Z.
Proof.
  destruct (reorderTasks_positions (fun p => p) "/repo" "todo" ["c"; "a"] 1700000000005
              sample_todo_store
              [ sample_task "a" "todo" 0; sample_task "b" "done" 0; sample_task "c" "todo" 1 ]
              eq_refl) as [_ H].
  destruct (H 2%nat (sample_task "c" "todo" 1) eq_refl) as (t' & Hat & _ & _ & Hpos & _).
  exists t'. split; [exact Hat|].
  apply (Hpos 0%nat); [reflexivity|reflexivity|].
  intros [|[|later]] Hlater; [lia|discriminate|discriminate].
Defined.

(** X18: loadTasks asks for the tasks of a repository that is not loaded
    yet.  When the request succeeds the list received replaces whatever the
    store held for the repository, and every later loadTasks for it changes
    nothing and sends nothing; when the request fails only the request is
    recorded, so a later loadTasks asks again. *)
Theorem loadTasks_once (normalizePath : string -> string) (repoPath : string)
    (fetched : list TodoTask) (again : option (list TodoTask)) (s : TodoStore) :
  normalizePath repoPath ∉ loaded s ->
  let success := loadTasks normalizePath repoPath (Some fetched) s in
  let failure := loadTasks normalizePath repoPath None s in
  selectTasks normalizePath success repoPath = fetched /\
  sent success = sent s ++ [GetTasks (normalizePath repoPath)] /\
  loadTasks normalizePath repoPath again success = success /\
  tasks failure = tasks s /\ loaded failure = loaded s /\
  sent failure = sent s ++ [GetTasks (normalizePath repoPath)] /\
  selectTasks normalizePath (loadTasks normalizePath repoPath (Some fetched) failure) repoPath
    = fetched.
Proof.
  intros Hnot success failure.
  unfold success, failure, loadTasks, selectTasks, getKey, send.
  cbn [tasks loaded sent].
  rewrite !(bool_decide_eq_false_2 _ Hnot). cbn [tasks loaded sent].
  rewrite ?(bool_decide_eq_false_2 _ Hnot). cbn [tasks loaded sent].
  rewrite !lookup_insert_eq.
  rewrite bool_decide_eq_true_2 by (apply elem_of_union_r, elem_of_singleton; reflexivity).
  done.
Qed.

Lemma loadTasks_once_witness :
  selectTasks (fun p => p)
    (loadTasks (fun p => p) "/other" (Some [sample_task "x" "todo" 0]) sample_todo_store)
    "/other"
  = [sample_task "x" "todo" 0].
Proof.
  assert ("/other" ∉ loaded sample_todo_store) as Hnot.
  { unfold sample_todo_store. cbn [loaded]. intros H%elem_of_singleton. discriminate. }
  destruct (loadTasks_once (fun p => p) "/other" [sample_task "x" "todo" 0] None
              sample_todo_store Hnot) as [H _].
  exact H.
Defined.

(** ** Migration: what the merged fields hold *)

Lemma lookup_two_spreads (a b : value) (k : string) :
  object_literal [ Spread a; Spread b ] !! k
  = first_defined [ own_enumerable b !! k; own_enumerable a !! k ].
Proof.
  rewrite object_literal_two_spreads, lookup_union. cbn [first_defined foldr].
  by destruct (own_enumerable b !! k), (own_enumerable a !! k).
Qed.

Lemma filterDefined_lookup (m : gmap string value) (k : string) :
  filterDefined m !! k
  = match m !! k with
    | Some v => if is_undefined v then None else Some v
    | None => None
    end.
Proof.
  unfold filterDefined. rewrite map_lookup_filter.
  destruct (m !! k) as [v|]; [|done]. cbn [mbind option_bind snd].
  destruct (is_undefined v) eqn:E.
  - rewrite option_guard_False; [done|]. cbn. congruence.
  - by rewrite option_guard_True.
Qed.

Lemma defined_prop_truthy (v : value) (k : string) :
  String.eqb k "length" = false ->
  (if truthy v then defined_prop v k else None) = defined_prop v k.
Proof.
  intros Hk. destruct (truthy v) eqn:E; [done|].
  unfold defined_prop. by rewrite (prop_falsy v k E Hk).
Qed.

Lemma spread_legacy (v : value) (ms : list member) (k : string) :
  own_enumerable (js_and v (VObj (filterDefined (object_literal ms)))) !! k
  = if truthy v
    then match lookup_members k None ms with
         | Some x => if is_undefined x then None else Some x
         | None => None
         end
    else None.
Proof.
  unfold js_and. destruct (truthy v) eqn:E.
  - cbn [own_enumerable]. by rewrite filterDefined_lookup, lookup_object_literal.
  - by rewrite (own_falsy v E), lookup_empty.
Qed.

Ltac legacy_read :=
  rewrite lookup_object_literal; cbn [lookup_members];
  rewrite !spread_legacy;
  cbn [lookup_members String.eqb Ascii.eqb Bool.eqb first_defined foldr].

(** X19: the xtermKeybindings that migration computes.  When the persisted
    state has xtermKeybindings, each binding is the persisted one, else the
    default one, and the legacy records are not read.  Otherwise newTab,
    closeTab, nextTab and prevTab come from the legacy agentKeybindings
    (newSession, closeSession, nextSession, prevSession), else from the legacy
    terminalKeybindings, else from the defaults; clear from
    terminalKeybindings, split and merge from terminalPaneKeybindings, else
    from the defaults; every other binding is the default one.  The source of
    split is stated for a terminalPaneKeybindings that is not a string: of a
    string the code reads the method String.prototype.split.  No other name
    read from the legacy records is a member of a prototype. *)
Theorem xtermKeybindings_migration (P D : value) :
  exists m, migrateXtermKeybindings P D = VObj m /\
  let defaults := own_enumerable (prop D "xtermKeybindings") in
  let tabs := prop P "terminalKeybindings" in
  let sessions := prop P "agentKeybindings" in
  let panes := prop P "terminalPaneKeybindings" in
  (truthy (prop P "xtermKeybindings") = true ->
   forall k, m !! k
     = first_defined [ own_enumerable (prop P "xtermKeybindings") !! k; defaults !! k ]) /\
  (truthy (prop P "xtermKeybindings") = false ->
   m !! "newTab" = first_defined [ defined_prop sessions "newSession";
                                    defined_prop tabs "newTab"; defaults !! "newTab" ] /\
   m !! "closeTab" = first_defined [ defined_prop sessions "closeSession";
                                      defined_prop tabs "closeTab"; defaults !! "closeTab" ] /\
   m !! "nextTab" = first_defined [ defined_prop sessions "nextSession";
                                     defined_prop tabs "nextTab"; defaults !! "nextTab" ] /\
   m !! "prevTab" = first_defined [ defined_prop sessions "prevSession";
                                     defined_prop tabs "prevTab"; defaults !! "prevTab" ] /\
   m !! "clear" = first_defined [ defined_prop tabs "clear"; defaults !! "clear" ] /\
   (is_a_string panes = false ->
    m !! "split" = first_defined [ defined_prop panes "split"; defaults !! "split" ]) /\
   m !! "merge" = first_defined [ defined_prop panes "merge"; defaults !! "merge" ] /\
   forall k, k ∉ legacy_bindings -> m !! k = defaults !! k).
Proof.
  unfold migrateXtermKeybindings.
  destruct (truthy (prop P "xtermKeybindings")) eqn:E; eexists; (split; [reflexivity|]);
    cbn zeta; (split; [|]); try discriminate.
  - intros _ k. apply lookup_two_spreads.
  - intros _. 
    assert (forall (v : value) (k : string), String.eqb k "length" = false ->
              (if truthy v
               then if is_undefined (prop v k) then None else Some (prop v k)
               else None) = defined_prop v k) as Hdef.
    { intros v k Hk. by rewrite <- (defined_prop_truthy v k Hk). }
    repeat split; try intros _.
    1-7: legacy_read; rewrite ?Hdef by reflexivity;
      repeat match goal with
      | |- context [defined_prop ?v ?k] => destruct (defined_prop v k)
      | |- context [if truthy ?v then _ else _] => destruct (truthy v)
      end; try reflexivity;
      by destruct (own_enumerable (prop D "xtermKeybindings") !! _).
    intros k Hk. unfold legacy_bindings in Hk.
    apply not_elem_of_cons in Hk as [H1 Hk]. apply not_elem_of_cons in Hk as [H2 Hk].
    apply not_elem_of_cons in Hk as [H3 Hk]. apply not_elem_of_cons in Hk as [H4 Hk].
    apply not_elem_of_cons in Hk as [H5 Hk]. apply not_elem_of_cons in Hk as [H6 Hk].
    apply not_elem_of_cons in Hk as [H7 _].
    rewrite lookup_object_literal. cbn [lookup_members]. rewrite !spread_legacy.
    rewrite !lookup_members_fields
      by (repeat constructor; by apply not_eq_sym).
    repeat match goal with
      | |- context [if truthy ?v then _ else _] => destruct (truthy v)
      end;
      by destruct (own_enumerable (prop D "xtermKeybindings") !! k).
Qed.

Lemma xtermKeybindings_migration_witness :
  exists m, migrateXtermKeybindings persisted_legacy_keys sample_defaults = VObj m /\
    m !! "newTab" = Some (keybinding "s" ["ctrl"]) /\
    m !! "clear" = Some (keybinding "k" ["ctrl"]) /\
    m !! "split" = Some (keybinding "d" ["meta"]).
Proof.
  destruct (xtermKeybindings_migration persisted_legacy_keys sample_defaults)
    as (m & Hm & _ & Hlegacy).
  exists m. split; [exact Hm|].
  destruct (Hlegacy eq_refl) as (HnewTab & _ & _ & _ & Hclear & Hsplit & _).
  rewrite HnewTab, Hclear, (Hsplit eq_refl). vm_compute. auto.
Defined.

Lemma lookup_migrated toNum (P D : value) (c a : gmap string value) (k : string) :
  object_literal (spread_members P D ++ explicit_members toNum P D c a) !! k
  = lookup_members k None (spread_members P D ++ explicit_members toNum P D c a).
Proof. apply lookup_object_literal. Qed.

(** X20: the records that migration merges field by field (the key binding
    groups, editorSettings, the generators, hapiSettings, quickTerminal):
    in the migrated snapshot each is an object in which a field has the
    persisted value when the persisted record has the field, and the value
    of the current state otherwise, so fields that only the current state
    knows are kept. *)
Theorem merged_domains_fieldwise (Number_of_string : string -> number) (P D : value)
    (k : string) :
  truthy P = true -> usable_defaults D = true -> k ∈ merged_domains ->
  exists R m,
    migrateSettings Number_of_string P D = Some R /\
    prop R k = VObj m /\
    forall f, m !! f
      = first_defined [ own_enumerable (prop P k) !! f; own_enumerable (prop D k) !! f ].
Proof.
  intros HP HD Hk.
  destruct (migrateSettings_truthy Number_of_string P D HP HD) as (c & _ & ->).
  eexists. exists (object_literal [ Spread (prop D k); Spread (prop P k) ]).
  split; [reflexivity|]. split; [|intros f; apply lookup_two_spreads].
  unfold merged_domains in Hk.
  repeat (apply elem_of_cons in Hk as [->|Hk]; [by read_members|]).
  by apply not_elem_of_nil in Hk.
Qed.

Lemma merged_domains_fieldwise_witness :
  exists R m,
    migrateSettings decimal_Number
      (obj [ ("editorSettings", obj [ ("fontSize", num 18) ]) ]) sample_defaults = Some R /\
    prop R "editorSettings" = VObj m /\
    m !! "fontSize" = Some (num 18) /\
    m !! "tabSize" = own_enumerable (prop sample_defaults "editorSettings") !! "tabSize".
Proof.
  destruct (merged_domains_fieldwise decimal_Number
              (obj [ ("editorSettings", obj [ ("fontSize", num 18) ]) ]) sample_defaults
              "editorSettings" eq_refl eq_refl) as (R & m & HR & Hm & Hf).
  { unfold merged_domains. do 5 right. left. }
  exists R, m. split; [exact HR|]. split; [exact Hm|].
  rewrite !Hf. split; reflexivity.
Defined.

(** X21: a property that the literal of migrateSettings does not write
    itself passes through: the migrated snapshot has the persisted value
    when the persisted state has the property (legacy properties included),
    the value of the current state otherwise, and does not have it when
    neither has.  mcpServers and promptPresets are the persisted ones unless
    these are undefined or null. *)
Theorem unwritten_keys_pass_through (Number_of_string : string -> number) (P D : value)
    (k : string) :
  truthy P = true -> usable_defaults D = true ->
  exists R,
    migrateSettings Number_of_string P D = Some R /\
    (k ∉ written_keys ->
     own_enumerable R !! k
       = first_defined [ own_enumerable P !! k; own_enumerable D !! k ]) /\
    prop R "mcpServers"
      = (if nullish (prop P "mcpServers") then prop D "mcpServers"
         else prop P "mcpServers") /\
    prop R "promptPresets"
      = (if nullish (prop P "promptPresets") then prop D "promptPresets"
         else prop P "promptPresets").
Proof.
  intros HP HD.
  destruct (migrateSettings_truthy Number_of_string P D HP HD) as (c & _ & ->).
  eexists. split; [reflexivity|]. split; [|split; by read_members].
  intros Hk. cbn [own_enumerable]. rewrite lookup_migrated, lookup_members_app.
  unfold written_keys in Hk. apply not_elem_of_cons in Hk as [Hrenderer Hk].
  rewrite lookup_members_fields.
  - unfold spread_members. cbn [lookup_members first_defined foldr].
    rewrite (renderer_spread_other P k Hrenderer).
    by destruct (own_enumerable P !! k), (own_enumerable D !! k).
  - unfold explicit_members, merge_domain.
    repeat (apply not_elem_of_cons in Hk as [? Hk]).
    repeat constructor; by apply not_eq_sym.
Qed.

Lemma unwritten_keys_pass_through_witness :
  exists R,
    migrateSettings decimal_Number persisted_legacy_keys sample_defaults = Some R /\
    own_enumerable R !! "theme" = Some (VStr "dark") /\
    own_enumerable R !! "agentKeybindings"
      = Some (obj [ ("newSession", keybinding "s" ["ctrl"]) ]).
Proof.
  destruct (unwritten_keys_pass_through decimal_Number persisted_legacy_keys sample_defaults
              "theme" eq_refl eq_refl) as (R & HR & Htheme & _).
  destruct (unwritten_keys_pass_through decimal_Number persisted_legacy_keys sample_defaults
              "agentKeybindings" eq_refl eq_refl) as (R' & HR' & Hagent & _).
  rewrite HR in HR'. injection HR' as <-.
  exists R. split; [exact HR|]. split.
  - rewrite Htheme; [vm_compute; reflexivity|compute_done].
  - rewrite Hagent; [vm_compute; reflexivity|compute_done].
Defined.

Lemma agent_enabled_None (P D : value) (id : string) :
  agent_enabled P D id = None <->
  nullish (prop D "agentSettings") = true /\
  nullish (prop (prop P "agentSettings") id) = true.
Proof.
  unfold agent_enabled, agentConfig_of, get_prop. rewrite opt_prop_prop.
  destruct (nullish (prop (prop P "agentSettings") id));
    destruct (nullish (prop D "agentSettings")); cbn [mbind option_bind];
    split; try done; by intros [? ?].
Qed.

(** X22: when migrateSettings throws.  It returns for every falsy persisted
    state.  For a truthy one it throws exactly when the current state is
    undefined or null, or has no claudeCodeIntegration, or has no
    agentSettings while some detection entry (of either state) belongs to an
    agent without a persisted agentSettings record.  This is stated where
    own properties decide: the current state has agentSettings, or the
    persisted agentSettings is a plain object or absent, the detection
    statuses are not strings and no detection entry is named like a member
    of Object.prototype (the read persisted.agentSettings?.[agentId] would
    find that member). *)
Theorem migrateSettings_throws (Number_of_string : string -> number) (P D : value) :
  own_properties_decide P D ->
  (migrateSettings Number_of_string P D = None <->
   truthy P = true /\
   (nullish D = true \/
    nullish (prop D "claudeCodeIntegration") = true \/
    (nullish (prop D "agentSettings") = true /\
     exists id, is_Some (detection_entries P D !! id) /\
                nullish (prop (prop P "agentSettings") id) = true))).
Proof.
  intros _.
  rewrite migrateSettings_eq, detection_union_entries.
  destruct (truthy P) eqn:HP; cbn [negb]; [|split; [done|by intros [? _]]].
  destruct (nullish D) eqn:HD; [split; [by auto|done]|].
  unfold migrateClaudeCodeIntegration at 1, get_prop.
  destruct (nullish (prop D "claudeCodeIntegration")) eqn:Hcci;
    cbn [mbind option_bind]; [split; [by auto|done]|].
  unfold filter_keys.
  destruct (decide (map_Forall (fun k _ => is_Some (agent_enabled P D k))
                               (detection_entries P D))) as [Hall|Hnot];
    cbn [mbind option_bind].
  - split; [done|]. intros (_ & [?|[?|(Has & id & [x Hx] & Hid)]]); try done.
    specialize (Hall id x Hx). cbn in Hall.
    rewrite (proj2 (agent_enabled_None P D id) (conj Has Hid)) in Hall.
    by destruct Hall.
  - split; [|done]. intros _. split; [done|]. do 2 right.
    apply map_not_Forall in Hnot; [|apply _].
    destruct Hnot as (id & x & Hx & Hid).
    assert (agent_enabled P D id = None) as Hnone.
    { destruct (agent_enabled P D id); [|done]. destruct Hid. by eexists. }
    apply agent_enabled_None in Hnone as [Has Hp].
    split; [done|]. exists id. split; [by eexists|done].
Qed.

Lemma migrateSettings_throws_witness :
  migrateSettings decimal_Number (VBool true) VNull = None /\
  migrateSettings decimal_Number VUndef VNull <> None /\
  migrateSettings decimal_Number persisted_foo_bar sample_defaults <> None.
Proof.
  assert (own_properties_decide (VBool true) VNull) as Htrue.
  { right. split; [exact I|]. split; [reflexivity|]. split; [reflexivity|].
    intros id [x Hx]. vm_compute in Hx. discriminate Hx. }
  assert (own_properties_decide VUndef VNull) as Hundef.
  { right. split; [exact I|]. split; [reflexivity|]. split; [reflexivity|].
    intros id [x Hx]. vm_compute in Hx. discriminate Hx. }
  assert (own_properties_decide persisted_foo_bar sample_defaults) as Hsample
    by (left; reflexivity).
  split; [|split].
  - apply (migrateSettings_throws decimal_Number (VBool true) VNull Htrue).
    split; [reflexivity|]. left. reflexivity.
  - intros E.
    apply (migrateSettings_throws decimal_Number VUndef VNull Hundef) in E as [E _].
    discriminate E.
  - intros E.
    apply (migrateSettings_throws decimal_Number persisted_foo_bar sample_defaults Hsample)
      in E as (_ & [E|[E|[E _]]]); discriminate E.
Defined.

Lemma migrated_background_field toNum (P D : value) (c a : gmap string value) :
  let R := VObj (object_literal (spread_members P D ++ explicit_members toNum P D c a)) in
  prop R "backgroundUrlPath" = migrated_url P D /\
  prop R "backgroundSourceType" = sanitized_enum sourceTypes P D "backgroundSourceType" /\
  prop R "backgroundImagePath" = sanitized_string P D "backgroundImagePath".
Proof. cbn zeta. split; [|split]; by read_members. Qed.

Lemma is_string_eq (v : value) (s : string) : is_string v s = true <-> v = VStr s.
Proof.
  destruct v; cbn [is_string]; try (split; [discriminate|discriminate]).
  rewrite String.eqb_eq. split; [by intros ->|by intros [= ->]].
Qed.

(** X23: the backgroundUrlPath of the migrated snapshot.  It is the
    persisted one when that is a string (the current state's otherwise),
    provided this is not empty.  When it is empty, a snapshot whose source
    type is "url" takes its backgroundImagePath as backgroundUrlPath, and
    any other snapshot gets the empty string. *)
Theorem backgroundUrlPath_migration (Number_of_string : string -> number) (P D : value) :
  truthy P = true -> usable_defaults D = true ->
  exists R,
    migrateSettings Number_of_string P D = Some R /\
    let url := sanitizeString (prop P "backgroundUrlPath") (prop D "backgroundUrlPath") in
    (truthy url = true -> prop R "backgroundUrlPath" = url) /\
    (truthy url = false -> prop R "backgroundSourceType" = VStr "url" ->
     prop R "backgroundUrlPath" = prop R "backgroundImagePath") /\
    (truthy url = false -> prop R "backgroundSourceType" <> VStr "url" ->
     prop R "backgroundUrlPath" = VStr "").
Proof.
  intros HP HD.
  destruct (migrateSettings_truthy Number_of_string P D HP HD) as (c & _ & ->).
  eexists. split; [reflexivity|]. cbn zeta.
  destruct (migrated_background_field Number_of_string P D c
              (filter (fun kv => enabled_entry P D kv.1 = true) (detection_entries P D)))
    as (-> & -> & ->).
  change (sanitizeString (prop P "backgroundUrlPath") (prop D "backgroundUrlPath"))
    with (sanitized_string P D "backgroundUrlPath").
  unfold migrated_url, js_or.
  split; [by intros ->|]. split.
  - intros -> Hurl. apply is_string_eq in Hurl. by rewrite Hurl.
  - intros -> Hurl.
    destruct (is_string (sanitized_enum sourceTypes P D "backgroundSourceType") "url") eqn:E;
      [|done].
    apply is_string_eq in E. done.
Qed.

Lemma backgroundUrlPath_migration_witness :
  exists R,
    migrateSettings decimal_Number persisted_url_image sample_defaults = Some R /\
    prop R "backgroundUrlPath" = VStr "https://example.org/a.png".
Proof.
  assert ((R ← migrateSettings decimal_Number persisted_url_image sample_defaults;
           Some (prop R "backgroundSourceType", prop R "backgroundImagePath"))
          = Some (VStr "url", VStr "https://example.org/a.png")) as Hfields
    by (vm_compute; reflexivity).
  destruct (backgroundUrlPath_migration decimal_Number persisted_url_image sample_defaults
              eq_refl eq_refl) as (R & HR & _ & Hurl & _).
  rewrite HR in Hfields. cbn [mbind option_bind] in Hfields.
  injection Hfields as Htype Hpath.
  exists R. split; [exact HR|]. rewrite <- Hpath. apply Hurl; [reflexivity|exact Htype].
Defined.

(** ** Resolving an agent id *)

Lemma length_append (a b : string) :
  String.length (a +:+ b) = (String.length a + String.length b)%nat.
Proof. induction a as [|c a IH]; simpl; [done|by f_equal]. Qed.

Lemma substring_append_r (a b : string) (i n : nat) :
  String.substring (String.length a + i) n (a +:+ b) = String.substring i n b.
Proof. induction a as [|c a IH]; simpl; [done|exact IH]. Qed.

Lemma substring_append_l (a b : string) :
  String.substring 0 (String.length a) (a +:+ b) = a.
Proof.
  induction a as [|c a IH]; simpl.
  - by destruct b.
  - by f_equal.
Qed.

Lemma endsWith_append (a suffix tail : string) (skip : nat) :
  (String.length tail = skip + String.length suffix)%nat ->
  endsWith (a +:+ tail) suffix
  = String.eqb (String.substring skip (String.length suffix) tail) suffix.
Proof.
  intros Hlen. unfold endsWith. rewrite length_append, Hlen.
  replace (String.length a + (skip + String.length suffix) - String.length suffix)%nat
    with (String.length a + skip)%nat by lia.
  rewrite substring_append_r.
  rewrite (proj2 (Nat.leb_le _ _)) by lia. done.
Qed.

Lemma slice_end_append (a tail : string) :
  slice_end (a +:+ tail) (String.length tail) = a.
Proof.
  unfold slice_end. rewrite length_append.
  replace (String.length a + String.length tail - String.length tail)%nat
    with (String.length a) by lia.
  apply substring_append_l.
Qed.

(** X24: the Hapi and Happy variants of an agent.  For an id [base] that
    does not itself end in -hapi or -happy, resolveAgent gives base-hapi and
    base-happy the command and the custom path and arguments of [base], the
    name of [base] followed by (Hapi) or (Happy), and the environments hapi
    and happy, where [base] has native; the default flag is read from the
    variant's own settings record. *)
Theorem resolveAgent_variants (base : string) (agentSettings : list (string * AgentConfig))
    (customAgents : list AgentEntry) :
  endsWith base "-hapi" = false -> endsWith base "-happy" = false ->
  let plain := resolveAgent base agentSettings customAgents in
  let viaHapi := resolveAgent (base +:+ "-hapi") agentSettings customAgents in
  let viaHappy := resolveAgent (base +:+ "-happy") agentSettings customAgents in
  resolved_environment plain = EnvNative /\
  resolved_environment viaHapi = EnvHapi /\
  resolved_environment viaHappy = EnvHappy /\
  resolved_name viaHapi = resolved_name plain +:+ " (Hapi)" /\
  resolved_name viaHappy = resolved_name plain +:+ " (Happy)" /\
  resolved_command viaHapi = resolved_command plain /\
  resolved_command viaHappy = resolved_command plain /\
  resolved_customPath viaHapi = resolved_customPath plain /\
  resolved_customPath viaHappy = resolved_customPath plain /\
  resolved_customArgs viaHapi = resolved_customArgs plain /\
  resolved_customArgs viaHappy = resolved_customArgs plain /\
  resolved_isDefault viaHapi
    = is_true (c ← settings_get (base +:+ "-hapi") agentSettings; isDefault c).
Proof.
  intros Hhapi Hhappy plain viaHapi viaHappy.
  assert (endsWith (base +:+ "-hapi") "-hapi" = true) as E1
    by (by rewrite (endsWith_append base "-hapi" "-hapi" 0)).
  assert (endsWith (base +:+ "-happy") "-hapi" = false) as E2
    by (by rewrite (endsWith_append base "-hapi" "-happy" 1)).
  assert (endsWith (base +:+ "-happy") "-happy" = true) as E3
    by (by rewrite (endsWith_append base "-happy" "-happy" 0)).
  pose proof (slice_end_append base "-hapi") as S1.
  pose proof (slice_end_append base "-happy") as S2.
  cbn [String.length] in S1, S2.
  unfold plain, viaHapi, viaHappy, resolveAgent.
  cbn [resolved_environment resolved_name resolved_command resolved_customPath
       resolved_customArgs resolved_isDefault].
  rewrite Hhapi, Hhappy, E1, E2, E3, S1, S2. done.
Qed.

Lemma resolveAgent_variants_witness :
  resolved_command (resolveAgent "cursor-hapi" defaultAgentSettings []) = "cursor-agent" /\
  resolved_name (resolveAgent "cursor-hapi" defaultAgentSettings []) = "Cursor (Hapi)".
Proof.
  destruct (resolveAgent_variants "cursor" defaultAgentSettings [] eq_refl eq_refl)
    as (_ & _ & _ & Hname & _ & Hcommand & _).
  split; [exact Hcommand|exact Hname].
Defined.

(** ** Reordering the Claude providers *)

Lemma relative_index_nat (i len : nat) :
  relative_index (Z.of_nat i) len = i `min` len.
Proof.
  unfold relative_index. destruct (Z.ltb_spec (Z.of_nat i) 0); lia.
Qed.

Lemma without_displayOrder_set (p : value) (i : nat) :
  without_displayOrder
    (VObj (object_literal [ Spread p; Field "displayOrder" (VNum (num_of_nat i)) ]))
  = without_displayOrder p.
Proof.
  unfold without_displayOrder, object_literal.
  cbn [own_enumerable foldl add_member].
  by rewrite (right_id_L ∅ (∪)), delete_insert_eq.
Qed.

Lemma without_displayOrder_imap (l : list value) :
  without_displayOrder
    <$> imap (fun index p =>
                VObj (object_literal
                        [ Spread p; Field "displayOrder" (VNum (num_of_nat index)) ])) l
  = without_displayOrder <$> l.
Proof.
  rewrite fmap_imap, <- imap_const. apply imap_ext.
  intros i x _. apply without_displayOrder_set.
Qed.

Lemma delete_beyond {A} (l : list A) (i : nat) :
  (length l <= i)%nat -> delete i l = l.
Proof.
  revert i. induction l as [|x l IH]; intros i Hi; [done|].
  destruct i as [|i]; cbn in Hi; [lia|]. cbn. f_equal. apply IH. lia.
Qed.

(** X25: reorderClaudeProviders(fromIndex, toIndex) with both indices inside
    the array keeps the number of providers, puts the provider that was at
    fromIndex at toIndex, keeps the others in their order, changes no field
    of a provider but displayOrder, and sets every displayOrder to the
    provider's new position.  With fromIndex at or beyond the end no provider
    is taken out, and an entry that holds a displayOrder and nothing else is
    inserted. *)
Theorem reorderClaudeProviders_spec (fromIndex toIndex : nat) (providers : list value) :
  let result := reorderClaudeProviders (Z.of_nat fromIndex) (Z.of_nat toIndex) providers in
  (forall i r, result !! i = Some r -> prop r "displayOrder" = VNum (num_of_nat i)) /\
  ((fromIndex < length providers)%nat -> (toIndex < length providers)%nat ->
   length result = length providers /\
   without_displayOrder <$> result !! toIndex
     = without_displayOrder <$> providers !! fromIndex /\
   delete toIndex (without_displayOrder <$> result)
     = delete fromIndex (without_displayOrder <$> providers)) /\
  ((length providers <= fromIndex)%nat ->
   length result = S (length providers) /\
   result !! (toIndex `min` length providers)
     = Some (VObj {[ "displayOrder" := VNum (num_of_nat (toIndex `min` length providers)) ]})).
Proof.
  intros result. unfold result, reorderClaudeProviders. rewrite !relative_index_nat.
  split; [|split].
  - intros i r (p & _ & ->)%list_lookup_imap_Some.
    rewrite prop_object, lookup_object_literal. cbn [lookup_members].
    by rewrite String.eqb_refl.
  - intros Hfrom Hto.
    rewrite (Nat.min_l fromIndex) by lia.
    destruct (lookup_lt_is_Some_2 providers fromIndex Hfrom) as [x Hx].
    rewrite Hx. cbn [default from_option id].
    assert (length (delete fromIndex providers) = (length providers - 1)%nat) as Hlen.
    { rewrite length_delete by by eexists. lia. }
    rewrite Hlen, (Nat.min_l toIndex) by lia.
    set (rest := delete fromIndex providers) in *.
    assert (length (take toIndex rest) = toIndex) as Htake
      by (rewrite length_take; lia).
    split; [|split].
    + rewrite length_imap, !length_app, Htake, length_drop. cbn [length]. lia.
    + rewrite list_lookup_imap.
      replace ((take toIndex rest ++ [x] ++ drop toIndex rest) !! toIndex) with (Some x).
      * cbn [fmap option_fmap option_map]. by rewrite without_displayOrder_set.
      * symmetry. apply list_lookup_middle. by rewrite Htake.
    + rewrite without_displayOrder_imap, <- !list_fmap_delete. f_equal.
      rewrite <- Htake at 1. cbn [app]. rewrite delete_middle. apply take_drop.
  - intros Hfrom.
    rewrite (Nat.min_r fromIndex) by lia.
    rewrite (lookup_ge_None_2 providers (length providers)) by lia.
    cbn [default from_option id].
    rewrite delete_beyond by lia.
    set (position := toIndex `min` length providers).
    assert (length (take position providers) = position) as Htake
      by (rewrite length_take; lia).
    split.
    + rewrite length_imap, !length_app, Htake, length_drop. cbn [length]. lia.
    + rewrite list_lookup_imap.
      replace ((take position providers ++ [VUndef] ++ drop position providers) !! position)
        with (Some VUndef).
      * cbn [fmap option_fmap option_map].
        unfold object_literal. cbn [foldl add_member own_enumerable].
        by rewrite (right_id_L ∅ (∪)), insert_empty.
      * symmetry. apply list_lookup_middle. by rewrite Htake.
Qed.

Lemma reorderClaudeProviders_spec_witness :
  without_displayOrder <$> reorderClaudeProviders 0 2 sample_providers !! 2%nat
    = without_displayOrder <$> sample_providers !! 0%nat /\
  length (reorderClaudeProviders 5 0 sample_providers) = 4%nat.
Proof.
  split.
  - destruct (reorderClaudeProviders_spec 0 2 sample_providers) as (_ & H & _).
    apply H; cbn; lia.
  - destruct (reorderClaudeProviders_spec 5 0 sample_providers) as (_ & _ & H).
    apply H. cbn. lia.
Defined.

(** ** The todo store: editing one task *)

(** X26: updateTask and moveTask keep the tasks of the repository in their
    places and leave every task with another id, and every other repository,
    exactly as it was.  In the task with the given id updateTask changes only
    the fields given in [updates] and updatedAt, and moveTask only status,
    order and updatedAt; each sends one request. *)
Theorem task_edits_frame (normalizePath : string -> string) (repoPath taskId : string)
    (updates : TaskUpdates) (newStatus : string) (newOrder now : Z)
    (s : TodoStore) (l : list TodoTask) :
  tasks s !! normalizePath repoPath = Some l ->
  let afterUpdate := updateTask normalizePath repoPath taskId updates now s in
  let afterMove := moveTask normalizePath repoPath taskId newStatus newOrder now s in
  sent afterUpdate = sent s ++ [UpdateTask (normalizePath repoPath) taskId updates] /\
  sent afterMove
    = sent s ++ [MoveTask (normalizePath repoPath) taskId newStatus newOrder] /\
  (forall other, normalizePath other <> normalizePath repoPath ->
     selectTasks normalizePath afterUpdate other = selectTasks normalizePath s other /\
     selectTasks normalizePath afterMove other = selectTasks normalizePath s other) /\
  forall i t, l !! i = Some t ->
    exists u m,
      selectTasks normalizePath afterUpdate repoPath !! i = Some u /\
      selectTasks normalizePath afterMove repoPath !! i = Some m /\
      (task_id t <> taskId -> u = t /\ m = t) /\
      (task_id t = taskId ->
       u = apply_task_updates t updates now /\
       task_id u = task_id t /\ task_order u = task_order t /\
       task_createdAt u = task_createdAt t /\ task_updatedAt u = now /\
       (new_status updates = None -> task_status u = task_status t) /\
       task_id m = task_id t /\ task_title m = task_title t /\
       task_description m = task_description t /\ task_priority m = task_priority t /\
       task_createdAt m = task_createdAt t /\
       task_status m = newStatus /\ task_order m = newOrder /\ task_updatedAt m = now).
Proof.
  intros Hl afterUpdate afterMove.
  unfold afterUpdate, afterMove, updateTask, moveTask, selectTasks, getKey.
  rewrite Hl. unfold send, set_tasks. cbn [tasks sent default from_option id].
  split; [done|]. split; [done|]. split.
  { intros other Hother. by rewrite !lookup_insert_ne. }
  intros i t Hi. rewrite !lookup_insert_eq. cbn [default from_option id].
  rewrite !list_lookup_fmap, Hi. cbn [fmap option_fmap option_map].
  eexists. eexists. split; [reflexivity|]. split; [reflexivity|].
  destruct (String.eqb (task_id t) taskId) eqn:E.
  - apply String.eqb_eq in E. split; [done|]. intros _.
    cbn [apply_task_updates task_id task_order task_createdAt task_updatedAt task_status
         task_title task_description task_priority].
    repeat split. by intros ->.
  - apply String.eqb_neq in E. split; [done|]. done.
Qed.

Lemma task_edits_frame_witness :
  exists m,
    selectTasks (fun p => p)
      (moveTask (fun p => p) "/repo" "a" "done" 1 1700000000009 sample_todo_store) "/repo"
      !! 0%nat = Some m
    /\ task_status m = "done" /\ task_order m = 1%Z.
Proof.
  destruct (task_edits_frame (fun p => p) "/repo" "a"
              {| new_title := None; new_description := None;
                 new_priority := None; new_status := None |}
              "done" 1 1700000000009 sample_todo_store
              [ sample_task "a" "todo" 0; sample_task "b" "done" 0; sample_task "c" "todo" 1 ]
              eq_refl) as (_ & _ & _ & H).
  destruct (H 0%nat (sample_task "a" "todo" 0) eq_refl) as (u & m & _ & Hm & _ & Hsame).
  exists m. split; [exact Hm|].
  destruct (Hsame eq_refl) as (_ & _ & _ & _ & _ & _ & _ & _ & _ & _ & _ & Hs & Ho & _).
  split; [exact Hs|exact Ho].
Defined.
